(** * Strategy validator: a shallow embedding of [strategy_validator.py]

    The module validates and repairs strategy objects decoded from JSON.
    Python values are embedded as the inductive type [pyval]; a method that
    can raise returns a [result]; the validator methods, which append to
    [self.errors] and [self.warnings], run in a small state-and-exception
    monad over the record [Validator]. *)

From Stdlib Require Import ZArith List String Ascii Bool Lia.
From Stdlib Require Import DecimalString SpecFloat.
Import ListNotations.

Open Scope string_scope.
Open Scope Z_scope.
Open Scope list_scope.

Set Warnings "-register-all".

(** ** JSON-like Python values *)

(** What [json.loads] can produce.  Floats are IEEE binary64 values; a dict
    is kept as its items in insertion order, looked up by first match. *)
Inductive pyval : Type :=
| PNone
| PBool (b : bool)
| PInt (z : Z)
| PFloat (f : spec_float)
| PStr (s : string)
| PList (l : list pyval)
| PDict (d : list (string * pyval)).

Definition dict := list (string * pyval).

(** ** Exceptions *)

Inductive exn : Type :=
| AttributeError | TypeError | ValueError | OverflowError | KeyError.

Inductive result (A : Type) : Type :=
| Ok (a : A)
| Raise (e : exn).
Arguments Ok {A} a.
Arguments Raise {A} e.

Definition rbind {A B} (m : result A) (k : A -> result B) : result B :=
  match m with
  | Ok a => k a
  | Raise e => Raise e
  end.

Declare Scope result_scope.
Delimit Scope result_scope with result.
Notation "x <- m ;; k" := (rbind m (fun x => k))
  (at level 61, m at next level, right associativity) : result_scope.

(** ** Dict and list primitives *)

(** [k in d] *)
Fixpoint dict_has (k : string) (d : dict) : bool :=
  match d with
  | [] => false
  | (k', _) :: d' => if String.eqb k k' then true else dict_has k d'
  end.

(** [d.get(k)] with [None] for an absent key *)
Fixpoint dict_get (k : string) (d : dict) : option pyval :=
  match d with
  | [] => None
  | (k', v) :: d' => if String.eqb k k' then Some v else dict_get k d'
  end.

(** [d.get(k, default)] *)
Definition dict_get_default (k : string) (default : pyval) (d : dict) : pyval :=
  match dict_get k d with
  | Some v => v
  | None => default
  end.

(** [d[k]] *)
Definition subscript (d : dict) (k : string) : result pyval :=
  match dict_get k d with
  | Some v => Ok v
  | None => Raise KeyError
  end.

(** [d[k] = v]: an existing key keeps its position, a new key goes last. *)
Fixpoint dict_set (k : string) (v : pyval) (d : dict) : dict :=
  match d with
  | [] => [(k, v)]
  | (k', v') :: d' =>
      if String.eqb k k' then (k, v) :: d' else (k', v') :: dict_set k v d'
  end.


(** ** Type tests and comparisons *)

Definition is_dict (v : pyval) : bool :=
  match v with PDict _ => true | _ => false end.

Definition is_list (v : pyval) : bool :=
  match v with PList _ => true | _ => false end.

Definition is_str (v : pyval) : bool :=
  match v with PStr _ => true | _ => false end.

(** [isinstance(v, int)]: [bool] is a subclass of [int]. *)
Definition is_int (v : pyval) : bool :=
  match v with PInt _ | PBool _ => true | _ => false end.

(** [isinstance(v, (int, float))] *)
Definition is_number (v : pyval) : bool :=
  match v with PInt _ | PBool _ | PFloat _ => true | _ => false end.

(** [v is None] *)
Definition is_none (v : pyval) : bool :=
  match v with PNone => true | _ => false end.

(** The integer behind an [int] instance ([True] is 1). *)
Definition int_value (v : pyval) : Z :=
  match v with
  | PInt z => z
  | PBool b => if b then 1 else 0
  | _ => 0
  end.

(** [v == s] for a string literal [s] *)
Definition eq_str (v : pyval) (s : string) : bool :=
  match v with PStr s' => String.eqb s' s | _ => false end.

(** [v in l] for a list [l] of string literals *)
Definition in_strs (v : pyval) (l : list string) : bool :=
  existsb (eq_str v) l.

(** Truth value of [v] *)
Definition truthy (v : pyval) : bool :=
  match v with
  | PNone => false
  | PBool b => b
  | PInt z => negb (z =? 0)
  | PFloat f => match f with S754_zero _ => false | _ => true end
  | PStr s => negb (String.eqb s "")
  | PList l => match l with [] => false | _ => true end
  | PDict d => match d with [] => false | _ => true end
  end.

(** ** Numbers *)

Definition prec : Z := 53.
Definition emax : Z := 1024.

(** [float(z)] for an int: round to nearest even, [OverflowError] beyond the
    largest finite double. *)
Definition float_of_Z (z : Z) : result spec_float :=
  match binary_normalize prec emax z 0 false with
  | S754_infinity _ => Raise OverflowError
  | f => Ok f
  end.

(** [int(f)] for a float: truncation toward zero. *)
Definition Z_of_float (f : spec_float) : result Z :=
  match f with
  | S754_zero _ => Ok 0
  | S754_infinity _ => Raise OverflowError
  | S754_nan => Raise ValueError
  | S754_finite s m e =>
      let a := match e with
               | Zneg p => Z.shiftr (Zpos m) (Zpos p)
               | _ => Z.shiftl (Zpos m) e
               end in
      Ok (if s then - a else a)
  end.

(** Decimal text of an int, as [str] prints it. *)
Definition str_of_Z (z : Z) : string :=
  NilZero.string_of_int (Z.to_int z).

(** An f-string: the concatenation of its pieces. *)
Definition fstr (pieces : list string) : string := String.concat "" pieces.

(** [sep.join(l)] *)
Definition join (sep : string) (l : list string) : string := String.concat sep l.

(** [needle in hay] for two strings *)
Fixpoint is_prefix (p s : string) : bool :=
  match p, s with
  | EmptyString, _ => true
  | String a p', String b s' => if Ascii.eqb a b then is_prefix p' s' else false
  | String _ _, EmptyString => false
  end.

Fixpoint is_substring (needle hay : string) : bool :=
  if is_prefix needle hay then true
  else match hay with
       | EmptyString => false
       | String _ hay' => is_substring needle hay'
       end.

(** ** The vocabulary *)

(** An entry of [VALID_INDICATORS]: [{"requires_period": False}] or
    [{"requires_period": True, "default_period": n}]. *)
Inductive ind_config : Type :=
| NoPeriod
| Period (default_period : Z).

Definition VALID_INDICATORS : list (string * ind_config) :=
  [ ("close", NoPeriod); ("open", NoPeriod); ("high", NoPeriod);
    ("low", NoPeriod); ("volume", NoPeriod); ("volume_turnover", NoPeriod);
    ("sma", Period 20); ("ema", Period 20); ("wma", Period 20);
    ("hma", Period 20); ("vwma", Period 20);
    ("rsi", Period 14); ("macd", Period 12); ("macd_signal", Period 9);
    ("adx", Period 14);
    ("atr", Period 14); ("atr_ratio", Period 14); ("bb_high", Period 20);
    ("bb_mid", Period 20); ("bb_low", Period 20);
    ("volume_sma", Period 20) ].

Definition VALID_OPERATORS : list string :=
  [">"; "<"; ">="; "<="; "=="; "≈ (approx)"].

Definition VALID_TIMEFRAMES : list string := ["daily"; "weekly"; "monthly"].

(** [VALID_INDICATORS.get(name)] *)
Fixpoint indicator_config_in (reg : list (string * ind_config)) (name : string)
  : option ind_config :=
  match reg with
  | [] => None
  | (n, c) :: reg' => if String.eqb name n then Some c else indicator_config_in reg' name
  end.

Definition indicator_config : string -> option ind_config :=
  indicator_config_in VALID_INDICATORS.

(** [name in VALID_INDICATORS] *)
Definition is_indicator (name : string) : bool :=
  match indicator_config name with Some _ => true | None => false end.

(** [VALID_INDICATORS[name]] *)
Definition indicator_item (name : string) : result ind_config :=
  match indicator_config name with
  | Some c => Ok c
  | None => Raise KeyError
  end.

(** How an f-string prints a list of plain string literals. *)
Definition repr_strs (l : list string) : string :=
  fstr ["["; join ", " (map (fun s => fstr ["'"; s; "'"]) l); "]"].

(** ** Builtins of the interpreter *)

(** The string methods and conversions the module calls are defined by the
    interpreter (over Unicode text and decimal literals), not by this
    module.  The embedding takes them through an interface together with the
    three facts about them that the proofs use; [Reference] below gives an
    instance for ASCII text that evaluates. *)
Class Builtins : Type := {
  (** [s.strip()] *)
  str_strip : string -> string;
  (** [s.lower()] *)
  str_lower : string -> string;
  (** [int(s)]; [None] is [ValueError] *)
  int_of_str : string -> option Z;
  (** [float(s)]; [None] is [ValueError] *)
  float_of_str : string -> option spec_float;
  (** [repr(s)] of a string and [repr(f)] of a float *)
  str_repr : string -> string;
  float_repr : spec_float -> string;
  str_strip_idem : forall s, str_strip (str_strip s) = str_strip s;
  str_strip_fallback : str_strip "Invalid Strategy" = "Invalid Strategy";
  str_lower_indicator :
    forall name, is_indicator name = true -> str_lower name = name
}.

(** ** The validator object *)

(** [self]: the two accumulators of a [StrategyValidator]. *)
Record Validator : Type := mkValidator {
  errors : list string;
  warnings : list string
}.

(** A method of the validator: from the state of [self] to an outcome and the
    state it leaves behind, also when it raises. *)
Definition M (A : Type) : Type := Validator -> result A * Validator.

Definition ret {A} (a : A) : M A := fun self => (Ok a, self).

Definition bind {A C} (m : M A) (k : A -> M C) : M C :=
  fun self =>
    match m self with
    | (Ok a, self') => k a self'
    | (Raise e, self') => (Raise e, self')
    end.

Definition lift {A} (r : result A) : M A := fun self => (r, self).

Declare Scope validator_scope.
Delimit Scope validator_scope with validator.
Notation "x <- m ;; k" := (bind m (fun x => k))
  (at level 61, m at next level, right associativity) : validator_scope.
Notation "m ;; k" := (bind m (fun _ => k))
  (at level 61, right associativity) : validator_scope.

(** [self.errors = l], [self.warnings = l] *)
Definition set_errors (l : list string) : M unit :=
  fun self => (Ok tt, mkValidator l (warnings self)).
Definition set_warnings (l : list string) : M unit :=
  fun self => (Ok tt, mkValidator (errors self) l).

(** [self.errors.append(e)], [self.warnings.append(w)] *)
Definition append_error (e : string) : M unit :=
  fun self => (Ok tt, mkValidator (errors self ++ [e]) (warnings self)).
Definition append_warning (w : string) : M unit :=
  fun self => (Ok tt, mkValidator (errors self) (warnings self ++ [w])).

Definition get_errors : M (list string) := fun self => (Ok (errors self), self).
Definition get_warnings : M (list string) := fun self => (Ok (warnings self), self).

(** A block of statements that may [return]: [Some r] is [return r], [None]
    falls through to the statements after the block. *)
Definition block {A} (b : M (option A)) (rest : M A) : M A :=
  bind b (fun r =>
    match r with
    | Some a => ret a
    | None => rest
    end).
Notation "'do' b ;; rest" := (block b rest)
  (at level 61, b at next level, right associativity) : validator_scope.

Definition return_ {A} (a : A) : M (option A) := ret (Some a).
Definition pass {A} : M (option A) := ret None.

(** [emits m r ws]: from any state of [self], [m] ends with outcome [r],
    leaves [self.errors] alone and appends [ws] to [self.warnings]. *)
Definition emits {A} (m : M A) (r : result A) (ws : list string) : Prop :=
  forall self, m self = (r, mkValidator (errors self) (warnings self ++ ws)).

Definition writes {A} (m : M A) : Prop := exists r ws, emits m r ws.

Section Embedding.

Context {B : Builtins}.

Open Scope result_scope.

(** ** Conversions *)

(** [repr(v)] *)
Fixpoint py_repr (v : pyval) : string :=
  match v with
  | PNone => "None"
  | PBool b => if b then "True" else "False"
  | PInt z => str_of_Z z
  | PFloat f => float_repr f
  | PStr s => str_repr s
  | PList l => fstr ["["; join ", " (map py_repr l); "]"]
  | PDict d =>
      fstr ["{";
            join ", " (map (fun '(k, x) => fstr [str_repr k; ": "; py_repr x]) d);
            "}"]
  end.

(** [str(v)], also what an f-string field prints *)
Definition py_str (v : pyval) : string :=
  match v with
  | PStr s => s
  | _ => py_repr v
  end.

(** [int(v)] *)
Definition py_int (v : pyval) : result Z :=
  match v with
  | PInt z => Ok z
  | PBool b => Ok (if b then 1 else 0)
  | PFloat f => Z_of_float f
  | PStr s => match int_of_str s with Some z => Ok z | None => Raise ValueError end
  | PNone | PList _ | PDict _ => Raise TypeError
  end.

(** [float(v)] *)
Definition py_float (v : pyval) : result spec_float :=
  match v with
  | PFloat f => Ok f
  | PInt z => float_of_Z z
  | PBool b => float_of_Z (if b then 1 else 0)
  | PStr s => match float_of_str s with Some f => Ok f | None => Raise ValueError end
  | PNone | PList _ | PDict _ => Raise TypeError
  end.

(** [v.strip()]: only [str] has the method. *)
Definition method_strip (v : pyval) : result string :=
  match v with
  | PStr s => Ok (str_strip s)
  | _ => Raise AttributeError
  end.

(** [v.lower()] *)
Definition method_lower (v : pyval) : result string :=
  match v with
  | PStr s => Ok (str_lower s)
  | _ => Raise AttributeError
  end.

(** [v.get(k, default)]: only [dict] has the method. *)
Definition method_get (v : pyval) (k : string) (default : pyval) : result pyval :=
  match v with
  | PDict d => Ok (dict_get_default k default d)
  | _ => Raise AttributeError
  end.

(** [k in v] for an arbitrary container [v] *)
Definition py_contains (k : string) (v : pyval) : result bool :=
  match v with
  | PDict d => Ok (dict_has k d)
  | PList l => Ok (existsb (fun x => eq_str x k) l)
  | PStr s => Ok (is_substring k s)
  | PNone | PBool _ | PInt _ | PFloat _ => Raise TypeError
  end.

(** [v[k]] for a string key [k] and an arbitrary [v] *)
Definition py_getitem (v : pyval) (k : string) : result pyval :=
  match v with
  | PDict d => subscript d k
  | _ => Raise TypeError
  end.

Definition float_1_0 : spec_float := SFone prec emax.
Definition float_0_0 : spec_float := S754_zero false.

(** ** The sanitizer *)

Definition _sanitize_operand (operand : pyval) (side : string) : result pyval :=
  match operand with
  | PDict operand =>
      let op_type := dict_get_default "type" (PStr "indicator") operand in
      if eq_str op_type "value" then
        let value := dict_get_default "value" (PInt 0) operand in
        value <- (if negb (is_number value) then
                    match py_float value with
                    | Ok f => Ok (PFloat f)
                    | Raise ValueError | Raise TypeError => Ok (PInt 0)
                    | Raise e => Raise e
                    end
                  else Ok value) ;;
        Ok (PDict [("type", PStr "value"); ("value", value)])
      else if eq_str op_type "indicator" then
        let name := str_lower (py_str (dict_get_default "name" (PStr "close") operand)) in
        let name := if negb (is_indicator name) then "close" else name in
        let timeframe := dict_get_default "timeframe" (PStr "daily") operand in
        offset <- py_int (dict_get_default "offset" (PInt 0) operand) ;;
        let sanitized :=
          [("type", PStr "indicator"); ("name", PStr name);
           ("timeframe", timeframe); ("offset", PInt (Z.max 0 offset))] in
        (* Fix timeframe *)
        timeframe <- subscript sanitized "timeframe" ;;
        let sanitized :=
          if negb (in_strs timeframe VALID_TIMEFRAMES)
          then dict_set "timeframe" (PStr "daily") sanitized
          else sanitized in
        (* Handle params *)
        ind_config <- indicator_item name ;;
        sanitized <-
          match ind_config with
          | Period default_period =>
              let params := dict_get_default "params" (PDict []) operand in
              period <- method_get params "period" (PInt default_period) ;;
              let period :=
                if negb (is_int period) || (int_value period <? 1)
                then PInt default_period else period in
              Ok (dict_set "params" (PDict [("period", period)]) sanitized)
          | NoPeriod => Ok (dict_set "params" (PDict []) sanitized)
          end ;;
        (* RHS-only fields *)
        sanitized <-
          (if String.eqb side "rhs" then
             sanitized <-
               (if dict_has "multiplier" operand then
                  m <- py_float (dict_get_default "multiplier" (PFloat float_1_0) operand) ;;
                  Ok (dict_set "multiplier" (PFloat m) sanitized)
                else Ok sanitized) ;;
             if dict_has "add_offset" operand then
               a <- py_float (dict_get_default "add_offset" (PFloat float_0_0) operand) ;;
               Ok (dict_set "add_offset" (PFloat a) sanitized)
             else Ok sanitized
           else Ok sanitized) ;;
        Ok (PDict sanitized)
      else Ok PNone
  | _ => Ok PNone
  end.

Definition _sanitize_condition (condition : dict) : result pyval :=
  if negb (dict_has "lhs" condition) || negb (dict_has "rhs" condition) then Ok PNone
  else
    lhs0 <- subscript condition "lhs" ;;
    lhs <- _sanitize_operand lhs0 "lhs" ;;
    let operator := dict_get_default "operator" (PStr ">") condition in
    rhs0 <- subscript condition "rhs" ;;
    rhs <- _sanitize_operand rhs0 "rhs" ;;
    let sanitized := [("lhs", lhs); ("operator", operator); ("rhs", rhs)] in
    lhs' <- subscript sanitized "lhs" ;;
    rhs' <- subscript sanitized "rhs" ;;
    if is_none lhs' || is_none rhs' then Ok PNone
    else
      (* Fix operator if invalid *)
      operator' <- subscript sanitized "operator" ;;
      let sanitized :=
        if negb (in_strs operator' VALID_OPERATORS)
        then dict_set "operator" (PStr ">") sanitized else sanitized in
      (* Add tolerance for approx operator *)
      operator'' <- subscript sanitized "operator" ;;
      let sanitized :=
        if eq_str operator'' "≈ (approx)"
        then dict_set "tolerance"
               (dict_get_default "tolerance" (PFloat float_1_0) condition) sanitized
        else sanitized in
      Ok (PDict sanitized).

(** The loop of [sanitize_strategy]; [acc] is the list held in
    [sanitized["conditions"]], to which kept conditions are appended. *)
Fixpoint sanitize_conditions (conditions acc : list pyval) : result (list pyval) :=
  match conditions with
  | [] => Ok acc
  | condition :: rest =>
      match condition with
      | PDict c =>
          sanitized_condition <- _sanitize_condition c ;;
          if truthy sanitized_condition
          then sanitize_conditions rest (acc ++ [sanitized_condition])
          else sanitize_conditions rest acc
      | _ => sanitize_conditions rest acc
      end
  end.

Definition sanitize_strategy (strategy : pyval) : result pyval :=
  match strategy with
  | PDict strategy =>
      name <- method_strip (dict_get_default "name" (PStr "Unnamed Strategy") strategy) ;;
      let description := dict_get_default "description" (PStr "") strategy in
      let conditions := dict_get_default "conditions" (PList []) strategy in
      let conditions := match conditions with PList l => l | _ => [] end in
      kept <- sanitize_conditions conditions [] ;;
      Ok (PDict [("name", PStr name); ("description", description);
                 ("conditions", PList kept)])
  | _ =>
      Ok (PDict [("name", PStr "Invalid Strategy"); ("description", PStr "");
                 ("conditions", PList [])])
  end.

(** ** The validator *)

Open Scope validator_scope.

Definition validate_indicator (indicator : dict) (side : string) : M (bool * string) :=
  (* Check name *)
  if negb (dict_has "name" indicator) then ret (false, "Missing 'name' field")
  else
    name0 <- lift (subscript indicator "name") ;;
    name <- lift (method_lower name0) ;;
    if negb (is_indicator name) then
      ret (false, fstr ["Unknown indicator '"; name; "'. Valid indicators: ";
                        repr_strs (map fst VALID_INDICATORS)])
    else
      (* Check timeframe *)
      do (if negb (dict_has "timeframe" indicator) then
            append_warning
              (fstr ["'"; name; "' missing 'timeframe' - defaulting to 'daily'"]) ;;
            pass
          else
            timeframe <- lift (subscript indicator "timeframe") ;;
            if negb (in_strs timeframe VALID_TIMEFRAMES) then
              return_ (false, fstr ["Invalid timeframe '"; py_str timeframe;
                                    "'. Valid: "; repr_strs VALID_TIMEFRAMES])
            else pass) ;;
      (* Check offset *)
      do (if dict_has "offset" indicator then
            offset <- lift (subscript indicator "offset") ;;
            if negb (is_int offset) || (int_value offset <? 0) then
              return_ (false, "'offset' must be a non-negative integer")
            else pass
          else pass) ;;
      (* Check params/period for indicators that require it *)
      ind_config <- lift (indicator_item name) ;;
      do (match ind_config with
          | Period default_period =>
              let params := dict_get_default "params" (PDict []) indicator in
              has_period <- lift (py_contains "period" params) ;;
              if negb has_period then
                append_warning
                  (fstr ["'"; name; "' missing 'period' - defaulting to ";
                         str_of_Z default_period]) ;;
                pass
              else
                period <- lift (py_getitem params "period") ;;
                if negb (is_int period) || (int_value period <? 1) then
                  return_ (false, fstr ["'"; name; "' period must be a positive integer"])
                else pass
          | NoPeriod => pass
          end) ;;
      (* RHS-only fields validation *)
      do (if String.eqb side "rhs" then
            returned <-
              (if dict_has "multiplier" indicator then
                 multiplier <- lift (subscript indicator "multiplier") ;;
                 if negb (is_number multiplier) then
                   return_ (false, "'multiplier' must be a number")
                 else pass
               else pass) ;;
            match returned with
            | Some r => return_ r
            | None =>
                if dict_has "add_offset" indicator then
                  add_offset <- lift (subscript indicator "add_offset") ;;
                  if negb (is_number add_offset) then
                    return_ (false, "'add_offset' must be a number")
                  else pass
                else pass
            end
          else if String.eqb side "lhs" then
            (if dict_has "multiplier" indicator then
               append_warning "'multiplier' on LHS will be ignored - only valid for RHS"
             else ret tt) ;;
            (if dict_has "add_offset" indicator then
               append_warning "'add_offset' on LHS will be ignored - only valid for RHS"
             else ret tt) ;;
            pass
          else pass) ;;
      ret (true, "").

Definition validate_operand (operand : pyval) (side : string) : M (bool * string) :=
  match operand with
  | PDict operand =>
      if negb (dict_has "type" operand) then ret (false, "Missing 'type' field")
      else
        op_type <- lift (subscript operand "type") ;;
        if eq_str op_type "value" then
          if negb (dict_has "value" operand) then
            ret (false, "Value type missing 'value' field")
          else
            value <- lift (subscript operand "value") ;;
            if negb (is_number value) then ret (false, "'value' must be a number")
            else ret (true, "")
        else if eq_str op_type "indicator" then validate_indicator operand side
        else ret (false, fstr ["Invalid type '"; py_str op_type;
                               "'. Must be 'indicator' or 'value'"])
  | _ => ret (false, "Operand must be an object")
  end.

Definition validate_condition (condition : pyval) (index : Z) : M (bool * string) :=
  match condition with
  | PDict condition =>
      (* Check required fields *)
      if negb (dict_has "lhs" condition) then ret (false, "Missing 'lhs' (left-hand side)")
      else if negb (dict_has "operator" condition) then ret (false, "Missing 'operator'")
      else if negb (dict_has "rhs" condition) then ret (false, "Missing 'rhs' (right-hand side)")
      else
        (* Validate operator *)
        operator <- lift (subscript condition "operator") ;;
        if negb (in_strs operator VALID_OPERATORS) then
          ret (false, fstr ["Invalid operator '"; py_str operator; "'. Valid: ";
                            repr_strs VALID_OPERATORS])
        else
          (* Validate tolerance for approximate operator *)
          (if eq_str operator "≈ (approx)" && negb (dict_has "tolerance" condition) then
             append_warning
               (fstr ["Condition "; str_of_Z (index + 1);
                      ": '≈ (approx)' operator without 'tolerance' - defaulting to 1%"])
           else ret tt) ;;
          (* Validate LHS (must be indicator) *)
          lhs <- lift (subscript condition "lhs") ;;
          lhs_result <- validate_operand lhs "lhs" ;;
          let '(lhs_valid, lhs_error) := lhs_result in
          if negb lhs_valid then ret (false, fstr ["LHS error: "; lhs_error])
          else
            (* Validate RHS (can be indicator or value) *)
            rhs <- lift (subscript condition "rhs") ;;
            rhs_result <- validate_operand rhs "rhs" ;;
            let '(rhs_valid, rhs_error) := rhs_result in
            if negb rhs_valid then ret (false, fstr ["RHS error: "; rhs_error])
            else ret (true, "")
  | _ => ret (false, "Condition must be an object")
  end.

(** [for i, condition in enumerate(conditions)], entered at index [i] *)
Fixpoint validate_conditions (conditions : list pyval) (i : Z) : M unit :=
  match conditions with
  | [] => ret tt
  | condition :: rest =>
      cond_result <- validate_condition condition i ;;
      let '(cond_valid, cond_error) := cond_result in
      (if negb cond_valid then
         append_error (fstr ["Condition "; str_of_Z (i + 1); ": "; cond_error])
       else ret tt) ;;
      validate_conditions rest (i + 1)
  end.

Definition validate_strategy (strategy : pyval)
  : M (bool * list string * list string) :=
  set_errors [] ;;
  set_warnings [] ;;
  match strategy with
  | PDict strategy =>
      (* Validate name *)
      (if negb (dict_has "name" strategy) then
         append_error "Missing required field: 'name'"
       else
         name <- lift (subscript strategy "name") ;;
         bad <- (if negb (is_str name) then ret true
                 else stripped <- lift (method_strip name) ;;
                      ret (negb (truthy (PStr stripped)))) ;;
         if bad then append_error "'name' must be a non-empty string" else ret tt) ;;
      (* Validate description (optional but recommended) *)
      (if negb (dict_has "description" strategy) then
         append_warning "Missing 'description' field - recommended for clarity"
       else ret tt) ;;
      (* Validate conditions *)
      (if negb (dict_has "conditions" strategy) then
         append_error "Missing required field: 'conditions'"
       else
         conditions <- lift (subscript strategy "conditions") ;;
         match conditions with
         | PList conditions =>
             if (List.length conditions =? 0)%nat then
               append_error "'conditions' array cannot be empty"
             else validate_conditions conditions 0
         | _ => append_error "'conditions' must be an array"
         end) ;;
      errs <- get_errors ;;
      warns <- get_warnings ;;
      let is_valid := (List.length errs =? 0)%nat in
      ret (is_valid, errs, warns)
  | _ =>
      append_error "Strategy must be a JSON object" ;;
      errs <- get_errors ;;
      warns <- get_warnings ;;
      ret (false, errs, warns)
  end.

(** ** The shape of sanitized values

    What [_sanitize_operand] and [_sanitize_condition] build when they do not
    return [None]. *)

Definition opt_field (k : string) (f : option spec_float) : dict :=
  match f with
  | Some x => [(k, PFloat x)]
  | None => []
  end.

Definition sanitized_params (cfg : ind_config) (params : pyval) : Prop :=
  match cfg with
  | NoPeriod => params = PDict []
  | Period _ =>
      exists p, params = PDict [("period", p)] /\ is_int p = true /\ 1 <= int_value p
  end.

Inductive sanitized_operand (side : string) : pyval -> Prop :=
| sanitized_value v :
    is_number v = true ->
    sanitized_operand side (PDict [("type", PStr "value"); ("value", v)])
| sanitized_indicator name cfg tf off params m a :
    indicator_config name = Some cfg ->
    In tf VALID_TIMEFRAMES ->
    0 <= off ->
    sanitized_params cfg params ->
    side = "rhs" \/ (m = None /\ a = None) ->
    sanitized_operand side
      (PDict ([("type", PStr "indicator"); ("name", PStr name);
               ("timeframe", PStr tf); ("offset", PInt off); ("params", params)]
              ++ opt_field "multiplier" m ++ opt_field "add_offset" a)).

Inductive sanitized_condition : pyval -> Prop :=
| sanitized_plain lhs op rhs :
    sanitized_operand "lhs" lhs -> sanitized_operand "rhs" rhs ->
    In op VALID_OPERATORS -> op <> "≈ (approx)" ->
    sanitized_condition (PDict [("lhs", lhs); ("operator", PStr op); ("rhs", rhs)])
| sanitized_approx lhs rhs tolerance :
    sanitized_operand "lhs" lhs -> sanitized_operand "rhs" rhs ->
    sanitized_condition
      (PDict [("lhs", lhs); ("operator", PStr "≈ (approx)"); ("rhs", rhs);
              ("tolerance", tolerance)]).

(** ** What one condition contributes

    The verdict of [validate_condition] on one condition, the warnings it
    appends, and the error line [validate_strategy] is to report for a
    failing condition at zero-based position [i]; [condition_errors_from]
    lists these lines for a run of conditions in order. *)

Definition condition_verdict (condition : pyval) (index : Z) : result (bool * string) :=
  fst (validate_condition condition index (mkValidator [] [])).

Definition condition_warnings (condition : pyval) (index : Z) : list string :=
  warnings (snd (validate_condition condition index (mkValidator [] []))).

Definition condition_error (i : nat) (condition : pyval) : list string :=
  match condition_verdict condition (Z.of_nat i) with
  | Ok (false, reason) => [fstr ["Condition "; str_of_Z (Z.of_nat i + 1); ": "; reason]]
  | _ => []
  end.

Definition condition_errors_from (start : nat) (conditions : list pyval) : list string :=
  flat_map (fun '(i, c) => condition_error i c)
           (combine (seq start (List.length conditions)) conditions).

(** The verdict of [validate_operand] on one operand and the warnings it
    appends. *)
Definition operand_verdict (operand : pyval) (side : string) : result (bool * string) :=
  fst (validate_operand operand side (mkValidator [] [])).

Definition operand_warnings (operand : pyval) (side : string) : list string :=
  warnings (snd (validate_operand operand side (mkValidator [] []))).



(** The name check of [validate_strategy] appends at most one error and
    never raises. *)
Definition name_errors (strategy : dict) : list string :=
  match dict_get "name" strategy with
  | None => ["Missing required field: 'name'"]
  | Some (PStr s) =>
      if String.eqb (str_strip s) "" then ["'name' must be a non-empty string"] else []
  | Some _ => ["'name' must be a non-empty string"]
  end.

(** ** Further specification-side definitions *)

(** The error [validate_strategy] is to append for the [conditions] field
    when it is absent, not a list, or an empty list; [None] when the field
    is a non-empty list. *)
Definition conditions_field_error (strategy : dict) : option string :=
  match dict_get "conditions" strategy with
  | None => Some "Missing required field: 'conditions'"
  | Some (PList []) => Some "'conditions' array cannot be empty"
  | Some (PList (_ :: _)) => None
  | Some _ => Some "'conditions' must be an array"
  end.

(** The warning for a missing description *)
Definition description_warnings (strategy : dict) : list string :=
  if dict_has "description" strategy then []
  else ["Missing 'description' field - recommended for clarity"].

(** An operand that is an object of type ["indicator"] *)
Definition is_indicator_operand (operand : pyval) : bool :=
  match operand with
  | PDict d => eq_str (dict_get_default "type" PNone d) "indicator"
  | _ => false
  end.

(** An indicator operand whose [name], if present, is a string and whose
    [params], if present, is an object *)
Definition typed_indicator (indicator : dict) : bool :=
  match dict_get "name" indicator with
  | Some (PStr _) | None => true
  | Some _ => false
  end &&
  match dict_get "params" indicator with
  | Some (PDict _) | None => true
  | Some _ => false
  end.

(** An operand, a condition, whose indicator operands are typed *)
Definition typed_operand (operand : pyval) : bool :=
  match operand with
  | PDict d => if eq_str (dict_get_default "type" PNone d) "indicator"
               then typed_indicator d else true
  | _ => true
  end.

Definition typed_condition (condition : pyval) : bool :=
  match condition with
  | PDict c => typed_operand (dict_get_default "lhs" PNone c) &&
               typed_operand (dict_get_default "rhs" PNone c)
  | _ => true
  end.

(** The conditions [sanitize_strategy] goes through:
    [strategy.get("conditions", [])], or none when that is not a list *)
Definition strategy_conditions (strategy : dict) : list pyval :=
  match dict_get_default "conditions" (PList []) strategy with
  | PList l => l
  | _ => []
  end.

(** An operand the sanitizer rewrites rather than drops: an object whose
    [type], ["indicator"] when absent, is ["value"] or ["indicator"] *)
Definition sanitizable_operand (operand : pyval) : bool :=
  match operand with
  | PDict d =>
      let op_type := dict_get_default "type" (PStr "indicator") d in
      eq_str op_type "value" || eq_str op_type "indicator"
  | _ => false
  end.

(** ** Suggestions *)

(** The loop of [suggest_fixes]; [suggestions] is the list built so far.
    The [if]/[elif] chain has no [else]: an error matching none of the six
    patterns appends nothing. *)
Fixpoint suggest_fixes_from (errors suggestions : list string) : list string :=
  match errors with
  | [] => suggestions
  | error :: rest =>
      suggest_fixes_from rest
        (if is_substring "Missing required field: 'name'" error then
           suggestions ++ ["Add a 'name' field with a descriptive strategy name"]
         else if is_substring "Missing required field: 'conditions'" error then
           suggestions ++ ["Add a 'conditions' array with at least one condition"]
         else if is_substring "Unknown indicator" error then
           suggestions ++ [fstr ["Valid indicators: "; repr_strs (map fst VALID_INDICATORS)]]
         else if is_substring "Invalid operator" error then
           suggestions ++ [fstr ["Valid operators: "; repr_strs VALID_OPERATORS]]
         else if is_substring "Invalid timeframe" error then
           suggestions ++ [fstr ["Valid timeframes: "; repr_strs VALID_TIMEFRAMES]]
         else if is_substring "period must be" error then
           suggestions ++ ["Period should be a positive integer like 14, 20, 50, etc."]
         else suggestions)
  end.

Definition suggest_fixes (errors : list string) : list string :=
  suggest_fixes_from errors [].

(** The suggestions [suggest_fixes] can make *)
Definition SUGGESTIONS : list string :=
  ["Add a 'name' field with a descriptive strategy name";
   "Add a 'conditions' array with at least one condition";
   fstr ["Valid indicators: "; repr_strs (map fst VALID_INDICATORS)];
   fstr ["Valid operators: "; repr_strs VALID_OPERATORS];
   fstr ["Valid timeframes: "; repr_strs VALID_TIMEFRAMES];
   "Period should be a positive integer like 14, 20, 50, etc."].

(** The errors [validate_strategy] is to report for a strategy with the
    given name and conditions, both already in sanitized form *)
Definition sanitized_errors (name : string) (kept : list pyval) : list string :=
  (if String.eqb name "" then ["'name' must be a non-empty string"] else []) ++
  (match kept with [] => ["'conditions' array cannot be empty"] | _ :: _ => [] end).

(** [float(d.get(k, default))] returns *)
Definition convertible (k : string) (default : pyval) (d : dict) : bool :=
  match py_float (dict_get_default k default d) with
  | Ok _ => true
  | Raise _ => false
  end.

(** An operand whose [multiplier] and [add_offset], if any, [float] accepts
    (a number is refused only when it is an int beyond the range of a
    float) *)
Definition rhs_fields_convertible (operand : pyval) : bool :=
  match operand with
  | PDict d =>
      convertible "multiplier" (PFloat float_1_0) d &&
      convertible "add_offset" (PFloat float_0_0) d
  | _ => true
  end.



(** The one warning of [validate_condition] that mentions the index: the
    condition has its three keys and the approximate operator, and no
    tolerance *)
Definition tolerance_warning (condition : pyval) (index : Z) : list string :=
  match condition with
  | PDict c =>
      if dict_has "lhs" c && dict_has "rhs" c
         && eq_str (dict_get_default "operator" PNone c) "≈ (approx)"
         && negb (dict_has "tolerance" c)
      then [fstr ["Condition "; str_of_Z (index + 1);
                  ": '≈ (approx)' operator without 'tolerance' - defaulting to 1%"]]
      else []
  | _ => []
  end.

(** The patterns of [suggest_fixes] with their suggestions, in the order of
    the [if]/[elif] chain *)
Definition SUGGESTION_RULES : list (string * string) :=
  [("Missing required field: 'name'",
    "Add a 'name' field with a descriptive strategy name");
   ("Missing required field: 'conditions'",
    "Add a 'conditions' array with at least one condition");
   ("Unknown indicator",
    fstr ["Valid indicators: "; repr_strs (map fst VALID_INDICATORS)]);
   ("Invalid operator", fstr ["Valid operators: "; repr_strs VALID_OPERATORS]);
   ("Invalid timeframe", fstr ["Valid timeframes: "; repr_strs VALID_TIMEFRAMES]);
   ("period must be", "Period should be a positive integer like 14, 20, 50, etc.")].

(** The suggestion for one error: that of the first rule whose pattern
    occurs in it *)
Definition first_suggestion (error : string) : list string :=
  match find (fun rule => is_substring (fst rule) error) SUGGESTION_RULES with
  | Some rule => [snd rule]
  | None => []
  end.

End Embedding.

(** * The sanitizer over a store

    To speak about mutation the sanitizer is embedded a second time, over a
    store of objects: a list or dict is a reference into the store, a
    subscript assignment or [append] rewrites the object at a location, and
    a dict or list display allocates a new one.  Every statement of the
    source that assigns into a dict or appends to a list is a [setitem] or
    [list_append] here. *)

(** A value: scalars are immutable and held by value, containers by
    reference. *)
Inductive hval : Type :=
| HNone
| HBool (b : bool)
| HInt (z : Z)
| HFloat (f : spec_float)
| HStr (s : string)
| HRef (l : nat).

(** A stored object *)
Inductive hobj : Type :=
| OList (items : list hval)
| ODict (items : list (string * hval)).

Definition heap := list hobj.

(** A statement sequence over the store; the store is kept when it raises. *)
Definition H (A : Type) : Type := heap -> result A * heap.

Definition hret {A} (a : A) : H A := fun h => (Ok a, h).

Definition hbind {A C} (m : H A) (k : A -> H C) : H C :=
  fun h =>
    match m h with
    | (Ok a, h') => k a h'
    | (Raise e, h') => (Raise e, h')
    end.

Definition hlift {A} (r : result A) : H A := fun h => (r, h).

Declare Scope heap_scope.
Delimit Scope heap_scope with heap.
Notation "x <- m ;; k" := (hbind m (fun x => k))
  (at level 61, m at next level, right associativity) : heap_scope.
Notation "m ;; k" := (hbind m (fun _ => k))
  (at level 61, right associativity) : heap_scope.

(** A display [{...}] or [[...]]: a new object at the next location *)
Definition alloc (o : hobj) : H hval :=
  fun h => (Ok (HRef (List.length h)), h ++ [o]).

(** The object a value refers to, if any *)
Definition deref (v : hval) : H (option hobj) :=
  fun h =>
    (Ok match v with
        | HRef l => nth_error h l
        | _ => None
        end, h).

(** The object at location [l] replaced by [o] *)
Fixpoint update (h : heap) (l : nat) (o : hobj) : heap :=
  match h, l with
  | [], _ => []
  | _ :: h', O => o :: h'
  | x :: h', S l' => x :: update h' l' o
  end.

Fixpoint hdict_get (k : string) (d : list (string * hval)) : option hval :=
  match d with
  | [] => None
  | (k', v) :: d' => if String.eqb k k' then Some v else hdict_get k d'
  end.

Definition hdict_has (k : string) (d : list (string * hval)) : bool :=
  match hdict_get k d with Some _ => true | None => false end.

Definition hdict_get_default (k : string) (default : hval) (d : list (string * hval)) : hval :=
  match hdict_get k d with Some v => v | None => default end.

Fixpoint hdict_set (k : string) (v : hval) (d : list (string * hval))
  : list (string * hval) :=
  match d with
  | [] => [(k, v)]
  | (k', v') :: d' =>
      if String.eqb k k' then (k, v) :: d' else (k', v') :: hdict_set k v d'
  end.

(** [target[k] = v] *)
Definition setitem (target : hval) (k : string) (v : hval) : H unit :=
  fun h =>
    match target with
    | HRef l =>
        match nth_error h l with
        | Some (ODict d) => (Ok tt, update h l (ODict (hdict_set k v d)))
        | _ => (Raise TypeError, h)
        end
    | _ => (Raise TypeError, h)
    end.

(** [target.append(v)] *)
Definition list_append (target : hval) (v : hval) : H unit :=
  fun h =>
    match target with
    | HRef l =>
        match nth_error h l with
        | Some (OList items) => (Ok tt, update h l (OList (items ++ [v])))
        | _ => (Raise AttributeError, h)
        end
    | _ => (Raise AttributeError, h)
    end.

(** [target[k]] for a string key *)
Definition getitem (target : hval) (k : string) : H hval :=
  hbind (deref target) (fun o =>
    match o with
    | Some (ODict d) =>
        match hdict_get k d with
        | Some v => hret v
        | None => hlift (Raise KeyError)
        end
    | _ => hlift (Raise TypeError)
    end).

Definition heq_str (v : hval) (s : string) : bool :=
  match v with HStr s' => String.eqb s' s | _ => false end.

Definition hin_strs (v : hval) (l : list string) : bool := existsb (heq_str v) l.

Definition his_int (v : hval) : bool :=
  match v with HInt _ | HBool _ => true | _ => false end.

Definition his_number (v : hval) : bool :=
  match v with HInt _ | HBool _ | HFloat _ => true | _ => false end.

Definition hint_value (v : hval) : Z :=
  match v with
  | HInt z => z
  | HBool b => if b then 1 else 0
  | _ => 0
  end.

(** The value a stored value denotes, followed through at most [fuel]
    references. *)
Fixpoint readback (fuel : nat) (h : heap) (v : hval) : pyval :=
  match v with
  | HNone => PNone
  | HBool b => PBool b
  | HInt z => PInt z
  | HFloat f => PFloat f
  | HStr s => PStr s
  | HRef l =>
      match fuel with
      | O => PNone
      | S fuel' =>
          match nth_error h l with
          | Some (OList items) => PList (map (readback fuel' h) items)
          | Some (ODict items) =>
              PDict (map (fun '(k, x) => (k, readback fuel' h x)) items)
          | None => PNone
          end
      end
  end.

(** The value a stored value denotes in store [h] *)
Definition value_of (h : heap) (v : hval) : pyval := readback (List.length h) h v.

(** A decoded JSON value laid out in the store, children before parents *)
Fixpoint store (v : pyval) (h : heap) : hval * heap :=
  match v with
  | PNone => (HNone, h)
  | PBool b => (HBool b, h)
  | PInt z => (HInt z, h)
  | PFloat f => (HFloat f, h)
  | PStr s => (HStr s, h)
  | PList l =>
      let '(items, h1) :=
        (fix store_items (l : list pyval) (h : heap) : list hval * heap :=
           match l with
           | [] => ([], h)
           | x :: rest =>
               let '(x', h1) := store x h in
               let '(rest', h2) := store_items rest h1 in
               (x' :: rest', h2)
           end) l h in
      (HRef (List.length h1), h1 ++ [OList items])
  | PDict d =>
      let '(items, h1) :=
        (fix store_fields (d : list (string * pyval)) (h : heap)
           : list (string * hval) * heap :=
           match d with
           | [] => ([], h)
           | (k, x) :: rest =>
               let '(x', h1) := store x h in
               let '(rest', h2) := store_fields rest h1 in
               ((k, x') :: rest', h2)
           end) d h in
      (HRef (List.length h1), h1 ++ [ODict items])
  end.

(** [frame n h h']: [h'] has every location of [h], and the objects at the
    locations below [n] are the same in both. *)
Definition frame (n : nat) (h h' : heap) : Prop :=
  (List.length h <= List.length h')%nat /\
  forall l, (l < n)%nat -> nth_error h' l = nth_error h l.

(** A reference is [fresh] for [n] when it lies at or above [n]. *)
Definition fresh (n : nat) (v : hval) : Prop :=
  forall l, v = HRef l -> (n <= l)%nat.

(** [local n m Q]: started in a store with at least [n] locations, [m]
    leaves the first [n] as they are, and a value it returns satisfies
    [Q]. *)
Definition local (n : nat) {A} (m : H A) (Q : A -> Prop) : Prop :=
  forall h, (n <= List.length h)%nat ->
            frame n h (snd (m h)) /\ forall a, fst (m h) = Ok a -> Q a.

Definition any {A} (a : A) : Prop := True.

(** A statement that only reads the store *)
Definition reads {A} (m : H A) : Prop := forall h, exists r, m h = (r, h).

(** A value, an object, a store whose references all lie below [n]: in a
    closed store no object refers outside the store. *)
Definition val_below (n : nat) (v : hval) : bool :=
  match v with
  | HRef l => (l <? n)%nat
  | _ => true
  end.

Definition obj_below (n : nat) (o : hobj) : bool :=
  match o with
  | OList items => forallb (val_below n) items
  | ODict items => forallb (fun kv => val_below n (snd kv)) items
  end.

Definition closed (h : heap) : bool := forallb (obj_below (List.length h)) h.

Section Store.

Context {B : Builtins}.

Open Scope heap_scope.

(** [str(v)] of a stored value *)
Definition hstr (v : hval) : H string :=
  fun h => (Ok (py_str (value_of h v)), h).

(** [int(v)] and [float(v)]: a container is a [TypeError] *)
Definition hint (v : hval) : result Z :=
  match v with
  | HInt z => Ok z
  | HBool b => Ok (if b then 1 else 0)
  | HFloat f => Z_of_float f
  | HStr s => match int_of_str s with Some z => Ok z | None => Raise ValueError end
  | HNone | HRef _ => Raise TypeError
  end.

Definition hfloat (v : hval) : result spec_float :=
  match v with
  | HFloat f => Ok f
  | HInt z => float_of_Z z
  | HBool b => float_of_Z (if b then 1 else 0)
  | HStr s => match float_of_str s with Some f => Ok f | None => Raise ValueError end
  | HNone | HRef _ => Raise TypeError
  end.

(** Truth value of a stored value *)
Definition htruthy (v : hval) : H bool :=
  o <- deref v ;;
  hret match v, o with
       | HNone, _ => false
       | HBool b, _ => b
       | HInt z, _ => negb (z =? 0)
       | HFloat (S754_zero _), _ => false
       | HFloat _, _ => true
       | HStr s, _ => negb (String.eqb s "")
       | HRef _, Some (OList []) => false
       | HRef _, Some (ODict []) => false
       | HRef _, _ => true
       end.

(** [isinstance(v, dict)], [isinstance(v, list)] *)
Definition his_dict (v : hval) : H bool :=
  o <- deref v ;;
  hret match o with Some (ODict _) => true | _ => false end.

Definition his_list (v : hval) : H bool :=
  o <- deref v ;;
  hret match o with Some (OList _) => true | _ => false end.

(** [target.get(k, default)] *)
Definition hget (target : hval) (k : string) (default : hval) : H hval :=
  o <- deref target ;;
  match o with
  | Some (ODict d) => hret (hdict_get_default k default d)
  | _ => hlift (Raise AttributeError)
  end.

(** [k in target] *)
Definition hcontains (k : string) (target : hval) : H bool :=
  o <- deref target ;;
  match o, target with
  | Some (ODict d), _ => hret (hdict_has k d)
  | Some (OList items), _ => hret (existsb (fun x => heq_str x k) items)
  | None, HStr s => hret (is_substring k s)
  | None, _ => hlift (Raise TypeError)
  end.

(** The items a [for] loop over [target] visits *)
Definition list_items (target : hval) : H (list hval) :=
  o <- deref target ;;
  match o with
  | Some (OList items) => hret items
  | _ => hlift (Raise TypeError)
  end.

Definition h_sanitize_operand (operand : hval) (side : string) : H hval :=
  is_object <- his_dict operand ;;
  if negb is_object then hret HNone
  else
    op_type <- hget operand "type" (HStr "indicator") ;;
    if heq_str op_type "value" then
      value <- hget operand "value" (HInt 0) ;;
      value <- hlift (if negb (his_number value) then
                        match hfloat value with
                        | Ok f => Ok (HFloat f)
                        | Raise ValueError | Raise TypeError => Ok (HInt 0)
                        | Raise e => Raise e
                        end
                      else Ok value) ;;
      alloc (ODict [("type", HStr "value"); ("value", value)])
    else if heq_str op_type "indicator" then
      name0 <- hget operand "name" (HStr "close") ;;
      name <- hstr name0 ;;
      let name := str_lower name in
      let name := if negb (is_indicator name) then "close" else name in
      timeframe <- hget operand "timeframe" (HStr "daily") ;;
      offset0 <- hget operand "offset" (HInt 0) ;;
      offset <- hlift (hint offset0) ;;
      sanitized <- alloc (ODict [("type", HStr "indicator"); ("name", HStr name);
                                 ("timeframe", timeframe);
                                 ("offset", HInt (Z.max 0 offset))]) ;;
      (* Fix timeframe *)
      timeframe <- getitem sanitized "timeframe" ;;
      (if negb (hin_strs timeframe VALID_TIMEFRAMES)
       then setitem sanitized "timeframe" (HStr "daily")
       else hret tt) ;;
      (* Handle params *)
      ind_config <- hlift (indicator_item name) ;;
      match ind_config with
      | Period default_period =>
          empty <- alloc (ODict []) ;;
          params <- hget operand "params" empty ;;
          period <- hget params "period" (HInt default_period) ;;
          let period :=
            if negb (his_int period) || (hint_value period <? 1)
            then HInt default_period else period in
          fresh_params <- alloc (ODict [("period", period)]) ;;
          setitem sanitized "params" fresh_params
      | NoPeriod =>
          fresh_params <- alloc (ODict []) ;;
          setitem sanitized "params" fresh_params
      end ;;
      (* RHS-only fields *)
      (if String.eqb side "rhs" then
         has_multiplier <- hcontains "multiplier" operand ;;
         (if has_multiplier then
            m0 <- hget operand "multiplier" (HFloat float_1_0) ;;
            m <- hlift (hfloat m0) ;;
            setitem sanitized "multiplier" (HFloat m)
          else hret tt) ;;
         has_add_offset <- hcontains "add_offset" operand ;;
         (if has_add_offset then
            a0 <- hget operand "add_offset" (HFloat float_0_0) ;;
            a <- hlift (hfloat a0) ;;
            setitem sanitized "add_offset" (HFloat a)
          else hret tt)
       else hret tt) ;;
      hret sanitized
    else hret HNone.

Definition h_sanitize_condition (condition : hval) : H hval :=
  has_lhs <- hcontains "lhs" condition ;;
  has_rhs <- hcontains "rhs" condition ;;
  if negb has_lhs || negb has_rhs then hret HNone
  else
    lhs0 <- getitem condition "lhs" ;;
    lhs <- h_sanitize_operand lhs0 "lhs" ;;
    operator <- hget condition "operator" (HStr ">") ;;
    rhs0 <- getitem condition "rhs" ;;
    rhs <- h_sanitize_operand rhs0 "rhs" ;;
    sanitized <- alloc (ODict [("lhs", lhs); ("operator", operator); ("rhs", rhs)]) ;;
    lhs' <- getitem sanitized "lhs" ;;
    rhs' <- getitem sanitized "rhs" ;;
    if match lhs', rhs' with HNone, _ | _, HNone => true | _, _ => false end
    then hret HNone
    else
      (* Fix operator if invalid *)
      operator' <- getitem sanitized "operator" ;;
      (if negb (hin_strs operator' VALID_OPERATORS)
       then setitem sanitized "operator" (HStr ">") else hret tt) ;;
      (* Add tolerance for approx operator *)
      operator'' <- getitem sanitized "operator" ;;
      (if heq_str operator'' "≈ (approx)"
       then tolerance <- hget condition "tolerance" (HFloat float_1_0) ;;
            setitem sanitized "tolerance" tolerance
       else hret tt) ;;
      hret sanitized.

(** The body of the loop of [sanitize_strategy], run on the items of
    [conditions] in order *)
Fixpoint h_sanitize_conditions (conditions : list hval) (sanitized : hval) : H unit :=
  match conditions with
  | [] => hret tt
  | condition :: rest =>
      is_object <- his_dict condition ;;
      (if negb is_object then hret tt
       else
         sanitized_condition <- h_sanitize_condition condition ;;
         keep <- htruthy sanitized_condition ;;
         if keep then
           target <- getitem sanitized "conditions" ;;
           list_append target sanitized_condition
         else hret tt) ;;
      h_sanitize_conditions rest sanitized
  end.

Definition h_sanitize_strategy (strategy : hval) : H hval :=
  is_object <- his_dict strategy ;;
  if negb is_object then
    kept <- alloc (OList []) ;;
    alloc (ODict [("name", HStr "Invalid Strategy"); ("description", HStr "");
                  ("conditions", kept)])
  else
    name0 <- hget strategy "name" (HStr "Unnamed Strategy") ;;
    name <- hlift match name0 with
                  | HStr n => Ok (str_strip n)
                  | _ => Raise AttributeError
                  end ;;
    description <- hget strategy "description" (HStr "") ;;
    kept <- alloc (OList []) ;;
    sanitized <- alloc (ODict [("name", HStr name); ("description", description);
                               ("conditions", kept)]) ;;
    default <- alloc (OList []) ;;
    conditions <- hget strategy "conditions" default ;;
    is_array <- his_list conditions ;;
    conditions <- (if negb is_array then alloc (OList []) else hret conditions) ;;
    items <- list_items conditions ;;
    h_sanitize_conditions items sanitized ;;
    hret sanitized.

End Store.

(** * The callers of the validator

    [validate_json_string] of [strategy_validator.py] and the methods of
    [OllamaClient] in [ollama_client.py] that turn the model's answer into a
    strategy. *)

(** ** String primitives *)

(** [s[n:]] *)
Fixpoint str_drop (n : nat) (s : string) : string :=
  match n, s with
  | O, _ => s
  | S n', String _ s' => str_drop n' s'
  | S _, EmptyString => EmptyString
  end.

(** [s[i:j]] for indices that are not negative *)
Definition str_slice (s : string) (i j : nat) : string := String.substring i (j - i) s.

(** [s.find(sub)]; [None] is [-1] *)
Fixpoint str_find (sub s : string) : option nat :=
  if is_prefix sub s then Some 0%nat
  else match s with
       | EmptyString => None
       | String _ s' => option_map S (str_find sub s')
       end.

(** The double quote and the newline, as one-character strings *)
Definition dquote : string := String "034"%char EmptyString.
Definition newline : string := String "010"%char EmptyString.

(** The number of occurrences of the character [c] in [s] *)
Fixpoint count_char (c : ascii) (s : string) : nat :=
  match s with
  | EmptyString => 0
  | String c' s' => (if Ascii.eqb c' c then 1 else 0) + count_char c s'
  end.

(** ** What [json.loads] answers *)

(** [json.loads] returns a value, raises [JSONDecodeError], or raises
    something else ([RecursionError] on deeply nested text); the two
    exceptions come with their text [str(e)]. *)
Inductive loaded : Type :=
| Parsed (v : pyval)
| JSONDecodeError (text : string)
| LoadError (text : string).

(** How a method of the client ends: it returns, or an exception of the
    validator or of [json.loads] goes through it. *)
Inductive outcome (A : Type) : Type :=
| Return (a : A)
| Throw (e : exn)
| ThrowLoad (text : string).
Arguments Return {A} a.
Arguments Throw {A} e.
Arguments ThrowLoad {A} text.

Section Clients.

Context {B : Builtins}.

(** The environment: the JSON parser, the text of an exception raised while
    the given strategy is processed, what [\s*] leaves of a text (the text
    without the whitespace it starts with), the answer of the model to a
    prompt, and the explanation obtained for a strategy. *)
Variable json_loads : string -> loaded.
Variable exception_text : pyval -> exn -> string.
Variable skip_spaces : string -> string.
Variable generate : string -> bool * string * string.
Variable _generate_explanation : pyval -> result string.

(** ** [validate_json_string] *)

Definition validate_json_string (json_str : string) : bool * option pyval * string :=
  match json_loads json_str with
  | Parsed strategy =>
      (* validator = StrategyValidator() *)
      let validator := mkValidator [] [] in
      match validate_strategy strategy validator with
      | (Ok (is_valid, errors, warnings), validator) =>
          if is_valid then
            (* Sanitize for safety *)
            match sanitize_strategy strategy with
            | Ok sanitized => (true, Some sanitized, "")
            | Raise e =>
                (false, None, fstr ["Validation error: "; exception_text strategy e])
            end
          else (false, None, join "; " errors)
      | (Raise e, _) =>
          (false, None, fstr ["Validation error: "; exception_text strategy e])
      end
  | JSONDecodeError text => (false, None, fstr ["Invalid JSON: "; text])
  | LoadError text => (false, None, fstr ["Validation error: "; text])
  end.

(** ** [_extract_json] *)

(** [re.search(r'```(?:json)?\s*(.*?)```', text, re.DOTALL)], giving
    [group(1)].  The opening fence is the first one in the text; [json] and
    the whitespace after it are taken when present (neither holds a
    backquote, so that nothing is gained by giving them back); the lazy group
    ends at the first fence that follows. *)
Definition search_fenced (text : string) : option string :=
  match str_find "```" text with
  | None => None
  | Some i =>
      let rest := str_drop (i + 3) text in
      let rest := if is_prefix "json" rest then str_drop 4 rest else rest in
      let rest := skip_spaces rest in
      match str_find "```" rest with
      | Some j => Some (str_slice rest 0 j)
      | None => None
      end
  end.

(** The loop over [enumerate(text[start:], start)]: the value of [end] when
    the loop is left. *)
Fixpoint scan_braces (chars : string) (i : nat) (depth : Z) (end_ : nat) : nat :=
  match chars with
  | EmptyString => end_
  | String char rest =>
      if Ascii.eqb char "{" then scan_braces rest (S i) (depth + 1) end_
      else if Ascii.eqb char "}" then
        let depth := depth - 1 in
        if depth =? 0 then S i
        else scan_braces rest (S i) depth end_
      else scan_braces rest (S i) depth end_
  end.

Definition _extract_json (text : string) : string :=
  (* Remove any leading/trailing whitespace *)
  let text := str_strip text in
  match search_fenced text with
  | Some group1 => str_strip group1
  | None =>
      match str_find "{" text with
      | Some start =>
          let end_ := scan_braces (str_drop start text) start 0 start in
          if (start <? end_)%nat then str_slice text start end_ else text
      | None => text
      end
  end.

(** ** [parse_strategy_from_nl] and [parse_strategy_from_document] *)

(** The last two statements of [parse_strategy_from_nl] *)
Definition explained (strategy : pyval) (validator : Validator)
  : outcome (bool * option pyval * string * string) * Validator :=
  match _generate_explanation strategy with
  | Ok explanation => (Return (true, Some strategy, explanation, ""), validator)
  | Raise e => (Throw e, validator)
  end.

(** [validator] is [self.validator], which lives as long as the client. *)
Definition parse_strategy_from_nl (natural_language : string) (auto_fix : bool)
           (validator : Validator)
  : outcome (bool * option pyval * string * string) * Validator :=
  (* Generate the strategy *)
  let '(success, response, error) := generate natural_language in
  if negb success then (Return (false, None, "", error), validator)
  else
    (* Extract JSON from response *)
    let json_str := _extract_json response in
    if negb (truthy (PStr json_str)) then
      (Return (false, None, "", "Could not extract JSON from LLM response"), validator)
    else
      (* Parse and validate *)
      match json_loads json_str with
      | JSONDecodeError text =>
          (Return (false, None, "", fstr ["Invalid JSON from LLM: "; text]), validator)
      | LoadError text => (ThrowLoad text, validator)
      | Parsed strategy =>
          match validate_strategy strategy validator with
          | (Raise e, validator) => (Throw e, validator)
          | (Ok (is_valid, errors, warnings), validator) =>
              if negb is_valid then
                if auto_fix then
                  (* Try to sanitize/fix *)
                  match sanitize_strategy strategy with
                  | Raise e => (Throw e, validator)
                  | Ok strategy =>
                      match validate_strategy strategy validator with
                      | (Raise e, validator) => (Throw e, validator)
                      | (Ok (is_valid, errors, warnings), validator) =>
                          if negb is_valid then
                            (Return (false, None, "",
                                     fstr ["Could not fix strategy: "; join "; " errors]),
                             validator)
                          else explained strategy validator
                      end
                  end
                else
                  (Return (false, None, "",
                           fstr ["Invalid strategy: "; join "; " errors]),
                   validator)
              else explained strategy validator
          end
      end.

Definition parse_strategy_from_document (document_text : string) (validator : Validator)
  : outcome (bool * list (option pyval) * list string * string) * Validator :=
  match parse_strategy_from_nl document_text true validator with
  | (Return (success, strategy, explanation, error), validator) =>
      if success then (Return (true, [strategy], [explanation], ""), validator)
      else (Return (false, [], [], error), validator)
  | (Throw e, validator) => (Throw e, validator)
  | (ThrowLoad text, validator) => (ThrowLoad text, validator)
  end.

End Clients.

(** ** [_basic_explanation]

    The explanation [_generate_explanation] falls back to when the model
    gives none. *)

Section Explanation.

Context {B : Builtins}.

(** [s.capitalize()] of the interpreter *)
Variable str_capitalize : string -> string.

(** [v.capitalize()]: only [str] has the method. *)
Definition method_capitalize (v : pyval) : result string :=
  match v with
  | PStr s => Ok (str_capitalize s)
  | _ => Raise AttributeError
  end.

(** The items a [for] loop goes through: the elements of a list, the keys of
    a dict, the characters of a string. *)
Definition py_iter (v : pyval) : result (list pyval) :=
  match v with
  | PList l => Ok l
  | PDict d => Ok (map (fun kv => PStr (fst kv)) d)
  | PStr s => Ok (map (fun c => PStr (String c EmptyString)) (list_ascii_of_string s))
  | PNone | PBool _ | PInt _ | PFloat _ => Raise TypeError
  end.

(** [sep.join(items)]: every item has to be a string. *)
Definition py_join (sep : string) (items : list pyval) : result string :=
  if forallb is_str items then Ok (join sep (map py_str items)) else Raise TypeError.

(** The loop over [enumerate(conditions, 1)], entered at number [i] with
    the list [lines] built so far *)
Fixpoint explanation_lines (conditions : list pyval) (i : Z) (lines : list pyval)
  : result (list pyval) :=
  match conditions with
  | [] => Ok lines
  | cond :: rest =>
      (lhs <- method_get cond "lhs" (PDict []) ;;
       rhs <- method_get cond "rhs" (PDict []) ;;
       op <- method_get cond "operator" (PStr "?") ;;
       lhs_name <- method_get lhs "name" (PStr "unknown") ;;
       lhs_tf <- method_get lhs "timeframe" (PStr "daily") ;;
       rhs_type <- method_get rhs "type" PNone ;;
       rhs_str <-
         (if eq_str rhs_type "value" then
            value <- method_get rhs "value" (PStr "?") ;;
            Ok (py_str value)
          else
            rhs_name <- method_get rhs "name" (PStr "unknown") ;;
            rhs_tf <- method_get rhs "timeframe" (PStr "daily") ;;
            Ok (fstr [py_str rhs_tf; " "; py_str rhs_name])) ;;
       capitalized <- method_capitalize lhs_tf ;;
       explanation_lines rest (i + 1)
         (lines ++ [PStr (fstr [str_of_Z i; ". "; capitalized; " "; py_str lhs_name;
                                " "; py_str op; " "; rhs_str])]))%result
  end.

Definition _basic_explanation (strategy : pyval) : result string :=
  (name <- method_get strategy "name" (PStr "Strategy") ;;
   let lines := [PStr (fstr ["**"; py_str name; "**"; newline])] in
   description <- method_get strategy "description" (PStr "No description provided.") ;;
   let lines := lines ++ [description] in
   let lines := lines ++ [PStr (fstr [newline; "**Conditions:**"])] in
   conditions <- method_get strategy "conditions" (PList []) ;;
   conditions <- py_iter conditions ;;
   lines <- explanation_lines conditions 1 lines ;;
   py_join newline lines)%result.

End Explanation.

(** * The symbol list of [a.py]

    The script reads the symbols from a spreadsheet; what it does with them
    is modelled from the list [symbols] on. *)

(** [range(0, stop, step)] for a positive [step] *)
Definition range (stop step : nat) : list nat :=
  map (fun k => k * step)%nat (seq 0 ((stop + step - 1) / step)).

(** [l[i:j]] for indices that are not negative *)
Definition slice {A} (l : list A) (i j : nat) : list A := firstn (j - i) (skipn i l).

Definition formatted_symbols (symbols : list string) : list string :=
  map (fun symbol => fstr [dquote; symbol; ".NS"; dquote]) symbols.

(** The slices taken by the loop, one per line *)
Definition chunks (formatted_symbols : list string) : list (list string) :=
  map (fun i => slice formatted_symbols i (i + 15))
      (range (List.length formatted_symbols) 15).

Definition lines (formatted_symbols : list string) : list string :=
  map (fun chunk => join ", " chunk) (chunks formatted_symbols).

Definition all_nse_stocks (symbols : list string) : string :=
  fstr [fstr ["all_nse_stocks = ["; newline; "    "];
        join (fstr [","; newline; "    "]) (lines (formatted_symbols symbols));
        fstr [newline; "]"]].

(** ** A reference instance of the builtins

    Exact on ASCII text: whitespace is the ASCII whitespace of [str.strip],
    [lower] folds [A-Z], [int] and [float] read decimal literals (with
    [_] between digits), rounding to the nearest double.  [repr] of a string
    adds single quotes without escaping, and [repr] of a float prints
    integral values, infinities and NaN the way the interpreter does and any
    other value as the product [m*2**e] it denotes. *)
Module Reference.

Definition is_space (c : ascii) : bool :=
  let n := nat_of_ascii c in
  ((9 <=? n) && (n <=? 13) || (28 <=? n) && (n <=? 32))%nat.

Fixpoint lstrip (s : string) : string :=
  match s with
  | String c s' => if is_space c then lstrip s' else s
  | EmptyString => s
  end.

Fixpoint rstrip (s : string) : string :=
  match s with
  | String c s' =>
      match rstrip s' with
      | EmptyString => if is_space c then EmptyString else String c EmptyString
      | r => String c r
      end
  | EmptyString => EmptyString
  end.

Definition strip (s : string) : string := rstrip (lstrip s).

Definition lower_ascii (c : ascii) : ascii :=
  let n := nat_of_ascii c in
  if ((65 <=? n) && (n <=? 90))%nat then ascii_of_nat (n + 32) else c.

Fixpoint lower (s : string) : string :=
  match s with
  | String c s' => String (lower_ascii c) (lower s')
  | EmptyString => EmptyString
  end.

Definition digit_value (c : ascii) : option Z :=
  let n := nat_of_ascii c in
  if ((48 <=? n) && (n <=? 57))%nat then Some (Z.of_nat (n - 48)) else None.

(** Digits with single underscores between them: the value read so far, the
    number of digits, and whether the previous character was a digit. *)
Fixpoint read_digits (s : string) (acc : Z) (n : nat) (after_digit : bool)
  : option (Z * nat) :=
  match s with
  | EmptyString => if after_digit then Some (acc, n) else None
  | String c s' =>
      match digit_value c with
      | Some d => read_digits s' (10 * acc + d) (S n) true
      | None =>
          if Ascii.eqb c "_" && after_digit then read_digits s' acc n false
          else None
      end
  end.

(** An optional sign in front of the rest *)
Definition read_sign (s : string) : bool * string :=
  match s with
  | String "-" r => (true, r)
  | String "+" r => (false, r)
  | _ => (false, s)
  end.

Definition int_literal (s : string) : option Z :=
  let '(neg, body) := read_sign (strip s) in
  match read_digits body 0 0 false with
  | Some (z, _) => Some (if neg then - z else z)
  | None => None
  end.

(** The text before and after the first character satisfying [p] *)
Fixpoint split_at (p : ascii -> bool) (s : string) : string * option string :=
  match s with
  | EmptyString => (EmptyString, None)
  | String c s' =>
      if p c then (EmptyString, Some s')
      else let '(a, b) := split_at p s' in (String c a, b)
  end.

(** The double nearest to [m * 10 ^ e] *)
Definition decimal_to_float (neg : bool) (m : Z) (e : Z) : spec_float :=
  match m with
  | Z0 => S754_zero neg
  | _ =>
      let f :=
        match e with
        | Zneg p => SFdiv prec emax (S754_finite false (Z.to_pos m) 0)
                      (S754_finite false (Z.to_pos (10 ^ Zpos p)) 0)
        | _ => binary_normalize prec emax (m * 10 ^ e) 0 false
        end in
      if neg then SFopp f else f
  end.

Definition float_literal (s : string) : option spec_float :=
  let '(neg, body) := read_sign (strip s) in
  let word := lower body in
  if String.eqb word "inf" || String.eqb word "infinity" then Some (S754_infinity neg)
  else if String.eqb word "nan" then Some S754_nan
  else
    let '(mantissa, exponent) := split_at (fun c => Ascii.eqb c "e") word in
    let '(whole, fraction) := split_at (fun c => Ascii.eqb c ".") mantissa in
    let whole_digits :=
      match whole with
      | EmptyString => Some (0, 0%nat)
      | _ => read_digits whole 0 0 false
      end in
    match whole_digits with
    | None => None
    | Some (w, nw) =>
        let all_digits :=
          match fraction with
          | None | Some EmptyString => Some (w, nw, 0%nat)
          | Some fr =>
              match read_digits fr w 0 false with
              | Some (m, nf) => Some (m, (nw + nf)%nat, nf)
              | None => None
              end
          end in
        match all_digits with
        | None => None
        | Some (m, n, nf) =>
            if (n =? 0)%nat then None
            else
              match exponent with
              | None => Some (decimal_to_float neg m (- Z.of_nat nf))
              | Some ex =>
                  let '(eneg, edigits) := read_sign ex in
                  match read_digits edigits 0 0 false with
                  | Some (e, _) =>
                      Some (decimal_to_float neg m
                              ((if eneg then - e else e) - Z.of_nat nf))
                  | None => None
                  end
              end
        end
    end.

Definition quote (s : string) : string := fstr ["'"; s; "'"].

Definition print_float (f : spec_float) : string :=
  match f with
  | S754_zero s => if s then "-0.0" else "0.0"
  | S754_infinity s => if s then "-inf" else "inf"
  | S754_nan => "nan"
  | S754_finite s m e =>
      let sign := if s then "-" else "" in
      let integral :=
        match e with
        | Zneg p => Z.land (Zpos m) (Z.ones (Zpos p)) =? 0
        | _ => true
        end in
      match Z_of_float (S754_finite false m e) with
      | Ok z =>
          if integral && (z <? 10 ^ 16) then fstr [sign; str_of_Z z; ".0"]
          else fstr [sign; str_of_Z (Zpos m); "*2**"; str_of_Z e]
      | Raise _ => "nan"
      end
  end.

Definition upper_ascii (c : ascii) : ascii :=
  let n := nat_of_ascii c in
  if ((97 <=? n) && (n <=? 122))%nat then ascii_of_nat (n - 32) else c.

(** [s.capitalize()]: the first character in upper case, the rest in lower
    case *)
Definition capitalize (s : string) : string :=
  match s with
  | String c s' => String (upper_ascii c) (lower s')
  | EmptyString => EmptyString
  end.

#[global, refine] Instance builtins : Builtins := {|
  str_strip := strip;
  str_lower := lower;
  int_of_str := int_literal;
  float_of_str := float_literal;
  str_repr := quote;
  float_repr := print_float
|}.
Proof.
  - (* stripping twice *)
    assert (idem : forall s, rstrip (rstrip s) = rstrip s).
    { induction s as [|c s IH]; simpl; [reflexivity|].
      destruct (rstrip s) as [|d r] eqn:E.
      - destruct (is_space c) eqn:Hc; simpl; [reflexivity | now rewrite Hc].
      - change (rstrip (String c (String d r)))
          with (match rstrip (String d r) with
                | EmptyString => if is_space c then EmptyString else String c EmptyString
                | String _ _ as t => String c t
                end).
        now rewrite IH. }
    assert (keep : forall s, lstrip (rstrip (lstrip s)) = rstrip (lstrip s)).
    { induction s as [|c s IH]; simpl; [reflexivity|].
      destruct (is_space c) eqn:Hc; [exact IH|].
      simpl. destruct (rstrip s); [rewrite Hc|]; simpl; now rewrite Hc. }
    intros s. unfold strip. now rewrite keep, idem.
  - (* the fallback name has no blanks around it *)
    reflexivity.
  - (* lowering a registry key *)
    intros name. unfold is_indicator, indicator_config. cbn.
    repeat match goal with
           | |- context [String.eqb name ?k] =>
               destruct (String.eqb_spec name k); [subst; reflexivity|]
           end.
    discriminate.
Defined.

End Reference.

(** ** Sample inputs *)
Module Samples.

Definition value (z : Z) : pyval := PDict [("type", PStr "value"); ("value", PInt z)].

(** The "Oversold" scenario: RSI below 30, no timeframe, no period *)
Definition oversold : pyval :=
  PDict [("name", PStr "Oversold");
         ("conditions",
          PList [PDict [("lhs", PDict [("type", PStr "indicator"); ("name", PStr "rsi")]);
                        ("operator", PStr "<");
                        ("rhs", value 30)]])].

(** What the sanitizer returns for an input that is not an object *)
Definition fallback_strategy : pyval :=
  PDict [("name", PStr "Invalid Strategy"); ("description", PStr "");
         ("conditions", PList [])].

(** A strategy whose name is a number *)
Definition numeric_name : pyval := PDict [("name", PInt 5)].

(** A passing condition and two failing ones: an element that is not an
    object, and a condition whose two operands are both invalid *)
Definition passing : pyval :=
  PDict [("lhs", PDict [("type", PStr "indicator"); ("name", PStr "close");
                        ("timeframe", PStr "daily")]);
         ("operator", PStr ">");
         ("rhs", value 100)].

Definition both_sides_bad : dict :=
  [("lhs", PDict [("type", PStr "indicator"); ("name", PStr "nope")]);
   ("operator", PStr ">");
   ("rhs", PDict [("type", PStr "value"); ("value", PStr "high")])].

Definition mixed_conditions : list pyval :=
  [PInt 3; passing; PDict both_sides_bad].

Definition mixed : dict :=
  [("name", PStr "Mixed"); ("description", PStr ""); ("conditions", PList mixed_conditions)].

(** A strategy without a name whose only condition passes *)
Definition nameless : pyval := PDict [("conditions", PList [passing])].

(** An indicator operand with a non-numeric [multiplier] *)
Definition scaled_rsi : dict :=
  [("type", PStr "indicator"); ("name", PStr "rsi"); ("timeframe", PStr "weekly");
   ("params", PDict [("period", PInt 14)]); ("multiplier", PStr "double")].

(** A strategy in need of repair: blanks around the name, a dropped
    condition, an unknown operator, an upper-case indicator name, a negative
    offset, numbers given as text *)
Definition untidy : pyval :=
  PDict [("name", PStr " Breakout ");
         ("description", PList [PStr "draft"]);
         ("conditions",
          PList [PInt 3;
                 PDict [("rhs", value 1)];
                 PDict [("lhs", PDict [("name", PStr "RSI"); ("offset", PInt (-5));
                                       ("multiplier", PInt 3)]);
                        ("operator", PStr "~=");
                        ("rhs", PDict [("type", PStr "indicator"); ("name", PStr "NOPE");
                                       ("offset", PStr " 7 ");
                                       ("multiplier", PStr "2.5");
                                       ("timeframe", PInt 5)])];
                 PDict [("lhs", PDict [("type", PStr "value"); ("value", PStr "1e3")]);
                        ("operator", PStr "≈ (approx)");
                        ("rhs", PDict [("type", PStr "indicator"); ("name", PStr "sma");
                                       ("params", PDict [("period", PBool true)])])]])].

(** The untidy strategy laid out in an empty store *)
Definition stored_untidy : hval * heap := Eval vm_compute in store untidy [].

(** A stand-in for the environment of the client.  The parser knows the
    sample strategies by name; the model answers a prompt with a fenced
    block holding the prompt; every strategy gets the same explanation. *)
Definition loads (text : string) : loaded :=
  if String.eqb text "oversold" then Parsed oversold
  else if String.eqb text "untidy" then Parsed untidy
  else if String.eqb text "nameless" then Parsed nameless
  else JSONDecodeError "Expecting value: line 1 column 1 (char 0)".

Definition error_text (strategy : pyval) (e : exn) : string := "error".

Definition answer (prompt : string) : bool * string * string :=
  (true, fstr ["Here is the strategy: ```json "; prompt; " ``` Anything else?"], "").

Definition explanation (strategy : pyval) : result string := Ok "Explained.".

End Samples.

(** * Properties *)

Section Properties.

Context {B : Builtins}.

Open Scope validator_scope.

(** ** Dicts *)

Lemma dict_has_get k d : dict_has k d = match dict_get k d with Some _ => true | None => false end.
Proof.
  induction d as [|[k' v] d IH]; simpl; [reflexivity|].
  destruct (String.eqb k k'); [reflexivity | exact IH].
Qed.

Lemma dict_get_set_same k v d : dict_get k (dict_set k v d) = Some v.
Proof.
  induction d as [|[k' v'] d IH]; simpl.
  - now rewrite String.eqb_refl.
  - destruct (String.eqb k k') eqn:E; simpl.
    + now rewrite String.eqb_refl.
    + now rewrite E.
Qed.

Lemma dict_get_set_other k k' v d :
  k <> k' -> dict_get k (dict_set k' v d) = dict_get k d.
Proof.
  intros Hne. apply String.eqb_neq in Hne.
  induction d as [|[k0 v0] d IH]; simpl.
  - now rewrite Hne.
  - destruct (String.eqb k' k0) eqn:E; simpl.
    + apply String.eqb_eq in E. subst k0. now rewrite Hne.
    + now rewrite IH.
Qed.


(** ** Methods that only append warnings *)

Lemma emits_ret {A} (a : A) : emits (ret a) (Ok a) [].
Proof. intros [e w]. unfold ret. simpl. now rewrite app_nil_r. Qed.

Lemma emits_lift {A} (r : result A) : emits (lift r) r [].
Proof. intros [e w]. unfold lift. simpl. now rewrite app_nil_r. Qed.

Lemma emits_append_warning w : emits (append_warning w) (Ok tt) [w].
Proof. intros self. reflexivity. Qed.

Lemma emits_bind_ok {A C} (m : M A) (k : A -> M C) a ws r ws' :
  emits m (Ok a) ws -> emits (k a) r ws' -> emits (bind m k) r (ws ++ ws').
Proof.
  intros Hm Hk self. unfold bind. rewrite Hm, Hk. simpl. now rewrite app_assoc.
Qed.

Lemma emits_bind_raise {A C} (m : M A) (k : A -> M C) e ws :
  emits m (Raise e) ws -> emits (bind m k) (Raise e) ws.
Proof. intros Hm self. unfold bind. now rewrite Hm. Qed.

Lemma emits_fun {A} (m : M A) r ws r' ws' :
  emits m r ws -> emits m r' ws' -> r = r' /\ ws = ws'.
Proof.
  intros H H'. specialize (H (mkValidator [] [])). specialize (H' (mkValidator [] [])).
  rewrite H in H'. simpl in H'. now inversion H'.
Qed.

Lemma writes_ret {A} (a : A) : writes (ret a).
Proof. eexists _, _. apply emits_ret. Qed.

Lemma writes_lift {A} (r : result A) : writes (lift r).
Proof. eexists _, _. apply emits_lift. Qed.

Lemma writes_append_warning w : writes (append_warning w).
Proof. eexists _, _. apply emits_append_warning. Qed.

Lemma writes_bind {A C} (m : M A) (k : A -> M C) :
  writes m -> (forall a, writes (k a)) -> writes (bind m k).
Proof.
  intros (r & ws & Hm) Hk. destruct r as [a|e].
  - destruct (Hk a) as (r' & ws' & Hk'). eexists _, _. eapply emits_bind_ok; eassumption.
  - eexists _, _. apply emits_bind_raise. eassumption.
Qed.

Lemma writes_block {A} (b : M (option A)) (rest : M A) :
  writes b -> writes rest -> writes (block b rest).
Proof.
  intros Hb Hrest. unfold block. apply writes_bind; [exact Hb|].
  intros [a|]; [apply writes_ret | exact Hrest].
Qed.

Ltac writes_step :=
  first
    [ apply writes_ret | apply writes_lift | apply writes_append_warning
    | apply writes_block | apply writes_bind; [|intros ?]
    | match goal with
      | |- writes (if ?b then _ else _) => destruct b
      | |- writes (match ?x with _ => _ end) => destruct x
      | |- writes (let '(_, _) := ?x in _) => destruct x
      end ].

Lemma writes_validate_indicator indicator side : writes (validate_indicator indicator side).
Proof. unfold validate_indicator, return_, pass. repeat writes_step. Qed.

Lemma writes_validate_operand operand side : writes (validate_operand operand side).
Proof.
  unfold validate_operand.
  repeat first [apply writes_validate_indicator | writes_step].
Qed.

Lemma writes_validate_condition condition index : writes (validate_condition condition index).
Proof.
  unfold validate_condition.
  repeat first [apply writes_validate_operand | writes_step].
Qed.

Lemma validate_condition_run condition index self :
  validate_condition condition index self =
  (condition_verdict condition index,
   mkValidator (errors self) (warnings self ++ condition_warnings condition index)).
Proof.
  destruct (writes_validate_condition condition index) as (r & ws & H).
  unfold condition_verdict, condition_warnings. now rewrite !H.
Qed.

Lemma validate_conditions_run conditions : forall start self,
  (forall k c, nth_error conditions k = Some c ->
               exists v, condition_verdict c (Z.of_nat (start + k)) = Ok v) ->
  exists ws,
    validate_conditions conditions (Z.of_nat start) self =
    (Ok tt, mkValidator (errors self ++ condition_errors_from start conditions)
                        (warnings self ++ ws)).
Proof.
  induction conditions as [|c rest IH]; intros start self Hret.
  - exists []. destruct self as [e w]. unfold condition_errors_from. simpl.
    unfold ret. now rewrite !app_nil_r.
  - destruct (Hret 0%nat c eq_refl) as ([valid reason] & Hv).
    rewrite Nat.add_0_r in Hv.
    assert (Hrest : forall k c', nth_error rest k = Some c' ->
                      exists v, condition_verdict c' (Z.of_nat (S start + k)) = Ok v).
    { intros k c' Hk. specialize (Hret (S k) c' Hk).
      now replace (start + S k)%nat with (S start + k)%nat in Hret by lia. }
    cbn [validate_conditions]. unfold bind at 1.
    rewrite validate_condition_run, Hv.
    replace (Z.of_nat start + 1) with (Z.of_nat (S start)) by lia.
    unfold condition_errors_from. cbn [List.length seq combine flat_map].
    unfold condition_error at 1. rewrite Hv.
    replace (Z.of_nat start + 1) with (Z.of_nat (S start)) by lia.
    destruct valid; cbn [negb]; unfold bind at 1; [unfold ret at 1 | unfold append_error at 1];
      cbn [errors warnings];
      match goal with
      | |- context [validate_conditions rest _ ?s] =>
          destruct (IH (S start) s Hrest) as (ws & ->)
      end;
      cbn [errors warnings];
      exists (condition_warnings c (Z.of_nat start) ++ ws);
      unfold condition_errors_from; now rewrite <- ?app_assoc.
Qed.

Lemma validate_strategy_dict strategy conds self :
  dict_get "conditions" strategy = Some (PList conds) -> conds <> [] ->
  (forall i c, nth_error conds i = Some c ->
               exists v, condition_verdict c (Z.of_nat i) = Ok v) ->
  exists warns,
    let errs := name_errors strategy ++ condition_errors_from 0 conds in
    validate_strategy (PDict strategy) self =
    (Ok ((List.length errs =? 0)%nat, errs, warns), mkValidator errs warns).
Proof.
  intros Hc Hne Hret.
  unfold validate_strategy, name_errors.
  rewrite !dict_has_get, Hc. unfold subscript. rewrite Hc.
  destruct conds as [|c0 rest]; [congruence|].
  pose proof (fun s => validate_conditions_run (c0 :: rest) 0%nat s Hret) as Hloop.
  change (Z.of_nat 0) with 0 in Hloop.
  destruct (dict_get "name" strategy) as [[| | | |s| |]|];
    destruct (dict_get "description" strategy);
    cbn -[validate_conditions condition_errors_from String.eqb];
    unfold bind, set_errors, set_warnings, append_error, append_warning, lift, ret,
      get_errors, get_warnings;
    cbn -[validate_conditions condition_errors_from String.eqb];
    try (destruct (String.eqb (str_strip s) ""); cbn -[validate_conditions condition_errors_from]);
    match goal with
    | |- context [validate_conditions (c0 :: rest) 0 ?st] =>
        destruct (Hloop st) as (ws & ->)
    end;
    cbn -[condition_errors_from]; eexists; reflexivity.
Qed.

Lemma in_condition_errors_from conds : forall start i c x,
  nth_error conds i = Some c ->
  In x (condition_error (start + i) c) ->
  In x (condition_errors_from start conds).
Proof.
  unfold condition_errors_from.
  induction conds as [|c0 rest IH]; intros start i c x Hnth Hin.
  - destruct i; discriminate.
  - cbn [List.length seq combine flat_map]. apply in_or_app.
    destruct i as [|i]; simpl in Hnth.
    + inversion Hnth; subst. rewrite Nat.add_0_r in Hin. now left.
    + right. apply (IH (S start) i c x Hnth).
      now replace (S start + i)%nat with (start + S i)%nat by lia.
Qed.

Lemma condition_errors_from_passing conds : forall start,
  (forall i c, nth_error conds i = Some c ->
               exists r, condition_verdict c (Z.of_nat (start + i)) = Ok (true, r)) ->
  condition_errors_from start conds = [].
Proof.
  unfold condition_errors_from.
  induction conds as [|c0 rest IH]; intros start Hpass; [reflexivity|].
  cbn [List.length seq combine flat_map].
  destruct (Hpass 0%nat c0 eq_refl) as (r & Hr). rewrite Nat.add_0_r in Hr.
  unfold condition_error at 1. rewrite Hr. simpl. apply IH.
  intros i c Hi. specialize (Hpass (S i) c Hi).
  now replace (start + S i)%nat with (S start + i)%nat in Hpass by lia.
Qed.

(** When [conditions] is a non-empty list whose elements' validation
    returns, [validate_strategy] returns, and its error list is the name
    error (if any) followed by one line ["Condition {i+1}: {reason}"] for
    every failing condition, taken in list order, whatever came before it
    in the list. *)
Theorem validate_strategy_reports_every_condition strategy conds self :
  dict_get "conditions" strategy = Some (PList conds) ->
  conds <> [] ->
  (forall i c, nth_error conds i = Some c ->
               exists v, condition_verdict c (Z.of_nat i) = Ok v) ->
  exists is_valid errs warns,
    validate_strategy (PDict strategy) self
      = (Ok (is_valid, errs, warns), mkValidator errs warns) /\
    errs = name_errors strategy ++ condition_errors_from 0 conds /\
    forall i c reason,
      nth_error conds i = Some c ->
      condition_verdict c (Z.of_nat i) = Ok (false, reason) ->
      condition_error i c = [fstr ["Condition "; str_of_Z (Z.of_nat i + 1); ": "; reason]] /\
      In (fstr ["Condition "; str_of_Z (Z.of_nat i + 1); ": "; reason]) errs.
Proof.
  intros Hc Hne Hret.
  destruct (validate_strategy_dict strategy conds self Hc Hne Hret) as (warns & Hrun).
  eexists _, _, warns. split; [exact Hrun|]. split; [reflexivity|].
  intros i c reason Hi Hv.
  assert (Hline : condition_error i c
                  = [fstr ["Condition "; str_of_Z (Z.of_nat i + 1); ": "; reason]]).
  { unfold condition_error. now rewrite Hv. }
  split; [exact Hline|].
  apply in_or_app. right. apply (in_condition_errors_from conds 0 i c); [exact Hi|].
  simpl. rewrite Hline. now left.
Qed.

Lemma bind_tail {A C} (m : M A) (k : A -> M C) (P : C -> Prop) self r self' :
  (forall a s r' s', k a s = (Ok r', s') -> P r') ->
  bind m k self = (Ok r, self') -> P r.
Proof.
  intros Hk. unfold bind. destruct (m self) as [[a|e] s]; [apply Hk | discriminate].
Qed.

Lemma validate_strategy_is_valid strategy self is_valid errs warns self' :
  validate_strategy strategy self = (Ok (is_valid, errs, warns), self') ->
  is_valid = (List.length errs =? 0)%nat.
Proof.
  set (Q := fun r : bool * list string * list string =>
              fst (fst r) = (List.length (snd (fst r)) =? 0)%nat).
  change (validate_strategy strategy self = (Ok (is_valid, errs, warns), self') ->
          Q (is_valid, errs, warns)).
  destruct strategy;
    try (intros H; cbv in H; inversion H; reflexivity).
  unfold validate_strategy.
  repeat (apply bind_tail; clear -Q; intros ? s r s').
  unfold ret. intros H. inversion H. reflexivity.
Qed.

(** C7 (amended): [is_valid] is true exactly when the returned error list is
    empty; and a strategy whose name is a string that is not blank and whose
    conditions list is non-empty with every condition passing validation is
    valid with no errors, whatever warnings were collected. *)
Theorem validate_strategy_valid_iff_no_errors strategy self :
  (forall is_valid errs warns self',
     validate_strategy strategy self = (Ok (is_valid, errs, warns), self') ->
     (is_valid = true <-> errs = [])) /\
  (forall fields name conds,
     strategy = PDict fields ->
     dict_get "name" fields = Some (PStr name) ->
     str_strip name <> "" ->
     dict_get "conditions" fields = Some (PList conds) ->
     conds <> [] ->
     (forall i c, nth_error conds i = Some c ->
                  exists r, condition_verdict c (Z.of_nat i) = Ok (true, r)) ->
     exists warns,
       validate_strategy strategy self = (Ok (true, [], warns), mkValidator [] warns)).
Proof.
  split.
  - intros is_valid errs warns self' H.
    apply validate_strategy_is_valid in H. subst is_valid.
    destruct errs; simpl; split; congruence.
  - intros fields name conds -> Hname Hstrip Hc Hne Hpass.
    destruct (validate_strategy_dict fields conds self Hc Hne) as (warns & Hrun).
    { intros i c Hi. destruct (Hpass i c Hi) as (r & Hr). eauto. }
    exists warns. rewrite Hrun.
    rewrite (condition_errors_from_passing conds 0 Hpass).
    unfold name_errors. rewrite Hname.
    apply String.eqb_neq in Hstrip. rewrite Hstrip. reflexivity.
Qed.

Lemma validate_operand_run operand side self :
  validate_operand operand side self =
  (operand_verdict operand side,
   mkValidator (errors self) (warnings self ++ operand_warnings operand side)).
Proof.
  destruct (writes_validate_operand operand side) as (r & ws & H).
  unfold operand_verdict, operand_warnings. now rewrite !H.
Qed.

Ltac run_monad :=
  unfold block, return_, pass;
  unfold bind, lift, ret, append_warning, append_error, subscript;
  cbn [fst snd errors warnings negb].

(** C10: [validate_condition] gives one verdict, decided by the first check
    that fails in the order lhs key, operator key, rhs key, operator value,
    LHS operand, RHS operand; it leaves [self.errors] alone; and when the LHS
    operand fails, the call does not depend on what the RHS operand is. *)
Theorem validate_condition_first_failure (condition : dict) (index : Z) :
  (forall self, errors (snd (validate_condition (PDict condition) index self)) = errors self) /\
  (dict_has "lhs" condition = false ->
   condition_verdict (PDict condition) index = Ok (false, "Missing 'lhs' (left-hand side)")) /\
  (dict_has "lhs" condition = true -> dict_has "operator" condition = false ->
   condition_verdict (PDict condition) index = Ok (false, "Missing 'operator'")) /\
  (dict_has "lhs" condition = true -> dict_has "operator" condition = true ->
   dict_has "rhs" condition = false ->
   condition_verdict (PDict condition) index = Ok (false, "Missing 'rhs' (right-hand side)")) /\
  (forall lhs operator rhs,
     dict_get "lhs" condition = Some lhs ->
     dict_get "operator" condition = Some operator ->
     dict_get "rhs" condition = Some rhs ->
     (in_strs operator VALID_OPERATORS = false ->
      condition_verdict (PDict condition) index =
      Ok (false, fstr ["Invalid operator '"; py_str operator; "'. Valid: ";
                       repr_strs VALID_OPERATORS])) /\
     (in_strs operator VALID_OPERATORS = true ->
      (forall lhs_error,
         operand_verdict lhs "lhs" = Ok (false, lhs_error) ->
         condition_verdict (PDict condition) index
           = Ok (false, fstr ["LHS error: "; lhs_error]) /\
         forall rhs' self,
           validate_condition (PDict (dict_set "rhs" rhs' condition)) index self
           = validate_condition (PDict condition) index self) /\
      (forall lhs_note rhs_error,
         operand_verdict lhs "lhs" = Ok (true, lhs_note) ->
         operand_verdict rhs "rhs" = Ok (false, rhs_error) ->
         condition_verdict (PDict condition) index
           = Ok (false, fstr ["RHS error: "; rhs_error])) /\
      (forall lhs_note rhs_note,
         operand_verdict lhs "lhs" = Ok (true, lhs_note) ->
         operand_verdict rhs "rhs" = Ok (true, rhs_note) ->
         condition_verdict (PDict condition) index = Ok (true, "")))).
Proof.
  split.
  { intros self. now rewrite validate_condition_run. }
  unfold condition_verdict, validate_condition.
  rewrite !dict_has_get.
  split; [|split; [|split]].
  - destruct (dict_get "lhs" condition); [discriminate | reflexivity].
  - destruct (dict_get "lhs" condition); [|discriminate].
    destruct (dict_get "operator" condition); [discriminate | reflexivity].
  - destruct (dict_get "lhs" condition); [|discriminate].
    destruct (dict_get "operator" condition); [|discriminate].
    destruct (dict_get "rhs" condition); [discriminate | reflexivity].
  - intros lhs operator rhs Hl Ho Hr. rewrite Hl, Ho, Hr. cbn [negb].
    run_monad. rewrite Hl, Ho, Hr. split.
    + intros Hop. now rewrite Hop.
    + intros Hop. rewrite Hop. cbn [negb].
      split; [|split].
      * intros e He. split.
        -- destruct (eq_str operator "≈ (approx)" && _); run_monad;
             rewrite validate_operand_run, He; reflexivity.
        -- intros rhs' self. rewrite !dict_has_get.
           rewrite !(dict_get_set_other _ "rhs") by discriminate.
           rewrite dict_get_set_same, ?Hl, ?Ho, ?Hr. cbn [negb].
           run_monad. rewrite ?(dict_get_set_other _ "rhs") by discriminate.
           rewrite ?Hl, ?Ho, ?Hop. cbn [negb].
           destruct (eq_str operator "≈ (approx)" && _); run_monad;
             rewrite !validate_operand_run, He; reflexivity.
      * intros m e Hm He.
        destruct (eq_str operator "≈ (approx)" && _); run_monad;
          rewrite validate_operand_run, Hm; cbn [negb];
          rewrite validate_operand_run, He; reflexivity.
      * intros m m' Hm Hm'.
        destruct (eq_str operator "≈ (approx)" && _); run_monad;
          rewrite validate_operand_run, Hm; cbn [negb];
          rewrite validate_operand_run, Hm'; reflexivity.
Qed.



Ltac destruct_scrutinee :=
  match goal with
  | |- context [match ?x with _ => _ end] =>
      lazymatch x with
      | context [match _ with _ => _ end] => fail
      | _ => destruct x eqn:?
      end
  end.



Lemma in_strs_In v l : in_strs v l = true <-> exists s, v = PStr s /\ In s l.
Proof.
  unfold in_strs. rewrite existsb_exists. split.
  - intros (s & Hin & Heq). destruct v; try discriminate.
    apply String.eqb_eq in Heq. subst. eauto.
  - intros (s & -> & Hin). exists s. split; [exact Hin | apply String.eqb_refl].
Qed.

Lemma is_indicator_config name :
  is_indicator name = true -> exists cfg, indicator_config name = Some cfg.
Proof. unfold is_indicator. destruct (indicator_config name); [eauto | discriminate]. Qed.

Lemma default_period_positive name d :
  indicator_config name = Some (Period d) -> 1 <= d.
Proof.
  unfold indicator_config. cbn.
  repeat match goal with
         | |- context [String.eqb name ?k] => destruct (String.eqb name k)
         end;
    intros H; inversion H; lia.
Qed.

Lemma sanitize_operand_shape operand side v :
  _sanitize_operand operand side = Ok v -> v = PNone \/ sanitized_operand side v.
Proof.
  unfold _sanitize_operand.
  destruct operand as [| | | | | |operand]; try (inversion 1; now left).
  destruct (eq_str (dict_get_default "type" (PStr "indicator") operand) "value").
  - (* value *)
    intros H. right.
    destruct (is_number (dict_get_default "value" (PInt 0) operand)) eqn:Hn; simpl in H.
    + inversion H. now constructor.
    + destruct (py_float _) as [f|[]]; simpl in H; inversion H; now constructor.
  - destruct (eq_str (dict_get_default "type" (PStr "indicator") operand) "indicator");
      [|inversion 1; now left].
    set (name0 := str_lower (py_str (dict_get_default "name" (PStr "close") operand))).
    set (name := if negb (is_indicator name0) then "close" else name0).
    assert (Hname : exists cfg, indicator_config name = Some cfg).
    { subst name. destruct (is_indicator name0) eqn:E; simpl.
      - now apply is_indicator_config.
      - now exists NoPeriod. }
    destruct Hname as (cfg & Hcfg).
    destruct (py_int (dict_get_default "offset" (PInt 0) operand)) as [off|]; [|discriminate].
    cbn [rbind subscript dict_get String.eqb Ascii.eqb Bool.eqb].
    unfold indicator_item. rewrite Hcfg. cbn [rbind].
    set (tf0 := dict_get_default "timeframe" (PStr "daily") operand).
    assert (Htf : exists tf,
              In tf VALID_TIMEFRAMES /\
              (if negb (in_strs tf0 VALID_TIMEFRAMES)
               then dict_set "timeframe" (PStr "daily")
                      [("type", PStr "indicator"); ("name", PStr name);
                       ("timeframe", tf0); ("offset", PInt (Z.max 0 off))]
               else [("type", PStr "indicator"); ("name", PStr name);
                     ("timeframe", tf0); ("offset", PInt (Z.max 0 off))])
              = [("type", PStr "indicator"); ("name", PStr name);
                 ("timeframe", PStr tf); ("offset", PInt (Z.max 0 off))]).
    { destruct (in_strs tf0 VALID_TIMEFRAMES) eqn:E; cbn [negb].
      - apply in_strs_In in E. destruct E as (tf & -> & Hin). eauto.
      - exists "daily". split; [now left | reflexivity]. }
    destruct Htf as (tf & Htf & ->).
    assert (Hparams : forall r,
              match cfg with
              | NoPeriod =>
                  Ok (dict_set "params" (PDict [])
                        [("type", PStr "indicator"); ("name", PStr name);
                         ("timeframe", PStr tf); ("offset", PInt (Z.max 0 off))])
              | Period default_period =>
                  (period <- method_get (dict_get_default "params" (PDict []) operand)
                               "period" (PInt default_period) ;;
                   Ok (dict_set "params"
                         (PDict [("period",
                                  if negb (is_int period) || (int_value period <? 1)
                                  then PInt default_period else period)])
                         [("type", PStr "indicator"); ("name", PStr name);
                          ("timeframe", PStr tf); ("offset", PInt (Z.max 0 off))]))%result
              end = Ok r ->
              exists params, sanitized_params cfg params /\
                r = [("type", PStr "indicator"); ("name", PStr name);
                     ("timeframe", PStr tf); ("offset", PInt (Z.max 0 off));
                     ("params", params)]).
    { intros r. destruct cfg as [|d].
      - inversion 1. exists (PDict []). split; reflexivity.
      - destruct (method_get _ _ _) as [period|]; [|discriminate].
        cbn [rbind]. inversion 1. eexists. split; [|reflexivity].
        eexists. split; [reflexivity|].
        destruct (is_int period) eqn:Hi; cbn [negb orb].
        + destruct (int_value period <? 1) eqn:Hlt.
          * split; [reflexivity|]. simpl. now apply (default_period_positive name).
          * split; [exact Hi|]. apply Z.ltb_ge in Hlt. exact Hlt.
        + split; [reflexivity|]. simpl. now apply (default_period_positive name). }
    match goal with
    | |- (rbind ?m _ = _ -> _) =>
        case_eq m; [intros base Hbase | intros e _; discriminate]
    end.
    apply Hparams in Hbase. destruct Hbase as (params & Hp & ->). clear Hparams.
    cbn [rbind].
    assert (Hoff : 0 <= Z.max 0 off) by lia.
    destruct (String.eqb side "rhs") eqn:Hside.
    + apply String.eqb_eq in Hside.
      destruct (dict_has "multiplier" operand);
        [destruct (py_float (dict_get_default "multiplier" _ _)) as [m|]; [|discriminate]|];
        (destruct (dict_has "add_offset" operand);
         [destruct (py_float (dict_get_default "add_offset" _ _)) as [a|]; [|discriminate]|]);
        cbn; inversion 1; right.
      * apply (sanitized_indicator side name cfg tf _ params (Some m) (Some a)); auto.
      * apply (sanitized_indicator side name cfg tf _ params (Some m) None); auto.
      * apply (sanitized_indicator side name cfg tf _ params None (Some a)); auto.
      * apply (sanitized_indicator side name cfg tf _ params None None); auto.
    + cbn. inversion 1. right.
      apply (sanitized_indicator side name cfg tf _ params None None); auto.
Qed.

Lemma In_in_strs s l : In s l -> in_strs (PStr s) l = true.
Proof. intros H. apply in_strs_In. eauto. Qed.

Lemma config_is_indicator name cfg :
  indicator_config name = Some cfg -> is_indicator name = true.
Proof. unfold is_indicator. now intros ->. Qed.

Lemma sanitize_operand_fixed side v :
  sanitized_operand side v -> _sanitize_operand v side = Ok v.
Proof.
  intros [v' Hn | name cfg tf off params m a Hcfg Htf Hoff Hp Hside].
  - unfold _sanitize_operand. cbn. now rewrite Hn.
  - unfold _sanitize_operand, dict_get_default. cbn [app dict_get String.eqb Ascii.eqb Bool.eqb eq_str].
    cbn [py_str]. rewrite (str_lower_indicator name) by (eapply config_is_indicator; eauto).
    rewrite (config_is_indicator _ _ Hcfg). cbn [negb py_int rbind subscript dict_get String.eqb Ascii.eqb Bool.eqb].
    rewrite (In_in_strs _ _ Htf). cbn [negb]. unfold indicator_item. rewrite Hcfg.
    cbn [rbind]. rewrite Z.max_r by exact Hoff.
    assert (Hparams :
              match cfg with
              | NoPeriod =>
                  Ok (dict_set "params" (PDict [])
                        [("type", PStr "indicator"); ("name", PStr name);
                         ("timeframe", PStr tf); ("offset", PInt off)])
              | Period default_period =>
                  (period <- method_get params "period" (PInt default_period) ;;
                   Ok (dict_set "params"
                         (PDict [("period",
                                  if negb (is_int period) || (int_value period <? 1)
                                  then PInt default_period else period)])
                         [("type", PStr "indicator"); ("name", PStr name);
                          ("timeframe", PStr tf); ("offset", PInt off)]))%result
              end = Ok [("type", PStr "indicator"); ("name", PStr name);
                        ("timeframe", PStr tf); ("offset", PInt off); ("params", params)]).
    { destruct cfg as [|d]; simpl in Hp.
      - now subst params.
      - destruct Hp as (p & -> & Hi & Hge). cbn. rewrite Hi.
        apply Z.ltb_ge in Hge. rewrite Hge. reflexivity. }
    rewrite Hparams. cbn [rbind]. clear Hparams.
    destruct (String.eqb side "rhs") eqn:E.
    + destruct m, a; reflexivity.
    + destruct Hside as [-> | [-> ->]]; [discriminate | reflexivity].
Qed.

Lemma validate_sanitized_operand side v self :
  sanitized_operand side v -> side = "lhs" \/ side = "rhs" ->
  validate_operand v side self = (Ok (true, ""), self).
Proof.
  intros [v' Hn | name cfg tf off params m a Hcfg Htf Hoff Hp Hside] Hlr.
  - unfold validate_operand. cbn. run_monad. cbn. now rewrite Hn.
  - apply Z.ltb_ge in Hoff.
    pose proof (config_is_indicator _ _ Hcfg) as Hind.
    pose proof (str_lower_indicator name Hind) as Hlow.
    pose proof (In_in_strs _ _ Htf) as Htf'.
    destruct cfg as [|d]; simpl in Hp;
      [subst params | destruct Hp as (p & -> & Hi & Hge); apply Z.ltb_ge in Hge];
      (destruct Hlr as [-> | ->];
       [destruct Hside as [? | [-> ->]]; [discriminate|] | destruct m, a]);
      unfold validate_operand, validate_indicator, indicator_item, dict_get_default;
      cbn [app opt_field dict_has dict_get String.eqb Ascii.eqb Bool.eqb eq_str negb];
      run_monad;
      cbn [app dict_has dict_get String.eqb Ascii.eqb Bool.eqb eq_str negb method_lower];
      rewrite Hlow, Hind; cbn [negb]; rewrite Htf'; cbn [negb is_int int_value orb];
      rewrite Hoff, Hcfg;
      cbn [py_contains py_getitem subscript dict_has dict_get String.eqb Ascii.eqb Bool.eqb
             negb is_number];
      rewrite ?Hi, ?Hge; reflexivity.
Qed.

Lemma sanitized_operand_not_none side v : sanitized_operand side v -> is_none v = false.
Proof. now intros []. Qed.

Lemma sanitize_condition_shape condition v :
  _sanitize_condition condition = Ok v -> v = PNone \/ sanitized_condition v.
Proof.
  unfold _sanitize_condition, subscript.
  rewrite !dict_has_get.
  destruct (dict_get "lhs" condition) as [lhs0|]; [|inversion 1; now left].
  destruct (dict_get "rhs" condition) as [rhs0|]; [|inversion 1; now left].
  cbn [negb orb rbind].
  destruct (_sanitize_operand lhs0 "lhs") as [lhs|] eqn:Hl; [|discriminate].
  destruct (_sanitize_operand rhs0 "rhs") as [rhs|] eqn:Hr; [|discriminate].
  cbn [rbind dict_get String.eqb Ascii.eqb Bool.eqb].
  apply sanitize_operand_shape in Hl, Hr.
  destruct Hl as [-> | Hl]; [inversion 1; now left|].
  destruct Hr as [-> | Hr];
    [rewrite (sanitized_operand_not_none _ _ Hl); inversion 1; now left|].
  rewrite (sanitized_operand_not_none _ _ Hl), (sanitized_operand_not_none _ _ Hr).
  cbn [orb].
  set (op0 := dict_get_default "operator" (PStr ">") condition).
  destruct (in_strs op0 VALID_OPERATORS) eqn:Hop; cbn [negb].
  - apply in_strs_In in Hop. destruct Hop as (op & Eop & Hin). rewrite Eop.
    cbn [dict_get String.eqb Ascii.eqb Bool.eqb rbind eq_str].
    destruct (String.eqb op "≈ (approx)") eqn:E.
    + apply String.eqb_eq in E. subst op. inversion 1. right. now constructor.
    + apply String.eqb_neq in E. inversion 1. right. now constructor.
  - cbn. inversion 1. right. constructor; auto; [now left | discriminate].
Qed.

Lemma sanitize_condition_fixed condition :
  sanitized_condition (PDict condition) -> _sanitize_condition condition = Ok (PDict condition).
Proof.
  intros H. inversion H as [lhs op rhs Hl Hr Hop Hne | lhs rhs tol Hl Hr]; subst;
    unfold _sanitize_condition, dict_get_default, subscript;
    cbn [dict_has dict_get String.eqb Ascii.eqb Bool.eqb negb orb subscript rbind];
    rewrite (sanitize_operand_fixed _ _ Hl), (sanitize_operand_fixed _ _ Hr);
    cbn [dict_has dict_get String.eqb Ascii.eqb Bool.eqb negb orb subscript rbind];
    rewrite (sanitized_operand_not_none _ _ Hl), (sanitized_operand_not_none _ _ Hr);
    cbn [orb].
  - rewrite (In_in_strs _ _ Hop).
    cbn [negb dict_get String.eqb Ascii.eqb Bool.eqb rbind eq_str].
    apply String.eqb_neq in Hne. now rewrite Hne.
  - reflexivity.
Qed.

Lemma validate_sanitized_condition v index self :
  sanitized_condition v -> validate_condition v index self = (Ok (true, ""), self).
Proof.
  intros [lhs op rhs Hl Hr Hop Hne | lhs rhs tol Hl Hr];
    (assert (Hvl : forall s, validate_operand lhs "lhs" s = (Ok (true, ""), s))
      by (intros s; apply validate_sanitized_operand; auto));
    (assert (Hvr : forall s, validate_operand rhs "rhs" s = (Ok (true, ""), s))
      by (intros s; apply validate_sanitized_operand; auto));
    unfold validate_condition;
    cbn [dict_has dict_get String.eqb Ascii.eqb Bool.eqb negb orb];
    run_monad;
    cbn [dict_has dict_get String.eqb Ascii.eqb Bool.eqb negb orb].
  - rewrite (In_in_strs _ _ Hop). cbn [negb eq_str].
    apply String.eqb_neq in Hne. rewrite Hne. cbn [andb].
    rewrite (Hvl self). cbn [negb]. rewrite (Hvr self). reflexivity.
  - change (in_strs (PStr "≈ (approx)") VALID_OPERATORS) with true.
    cbn [eq_str String.eqb Ascii.eqb Bool.eqb orb negb andb].
    rewrite (Hvl self). cbn [negb]. rewrite (Hvr self). reflexivity.
Qed.

Lemma sanitized_condition_truthy v : sanitized_condition v -> truthy v = true.
Proof. now intros []. Qed.

Lemma sanitize_conditions_shape conditions : forall acc kept,
  sanitize_conditions conditions acc = Ok kept ->
  Forall sanitized_condition acc -> Forall sanitized_condition kept.
Proof.
  induction conditions as [|c rest IH]; intros acc kept H Hacc; simpl in H.
  - now inversion H; subst.
  - destruct c; try (eapply IH; eassumption).
    destruct (_sanitize_condition d) as [sc|] eqn:Hsc; [|discriminate].
    cbn [rbind] in H. apply sanitize_condition_shape in Hsc.
    destruct Hsc as [-> | Hsc].
    + simpl in H. eapply IH; eassumption.
    + rewrite (sanitized_condition_truthy _ Hsc) in H.
      eapply IH; [eassumption|]. apply Forall_app. split; [exact Hacc | now constructor].
Qed.

Lemma sanitize_conditions_fixed conditions : forall acc,
  Forall sanitized_condition conditions ->
  sanitize_conditions conditions acc = Ok (acc ++ conditions).
Proof.
  induction conditions as [|c rest IH]; intros acc H; simpl.
  - now rewrite app_nil_r.
  - inversion H as [|? ? Hc Hrest]; subst.
    destruct c; try (now inversion Hc).
    rewrite (sanitize_condition_fixed _ Hc). cbn [rbind].
    rewrite (sanitized_condition_truthy _ Hc).
    rewrite IH by exact Hrest. now rewrite <- app_assoc.
Qed.

Lemma validate_sanitized_conditions conditions : forall index self,
  Forall sanitized_condition conditions ->
  validate_conditions conditions index self = (Ok tt, self).
Proof.
  induction conditions as [|c rest IH]; intros index self H; simpl.
  - reflexivity.
  - inversion H as [|? ? Hc Hrest]; subst.
    unfold bind at 1. rewrite (validate_sanitized_condition _ _ _ Hc).
    cbn [negb]. unfold bind at 1, ret at 1. now apply IH.
Qed.

Lemma sanitize_strategy_shape strategy v :
  sanitize_strategy strategy = Ok v ->
  exists name description kept,
    v = PDict [("name", PStr name); ("description", description);
               ("conditions", PList kept)] /\
    str_strip name = name /\
    Forall sanitized_condition kept.
Proof.
  unfold sanitize_strategy.
  destruct strategy as [| | | | | |strategy];
    try (inversion 1; eexists _, _, _; split; [reflexivity|]; split;
         [apply str_strip_fallback | constructor]).
  destruct (method_strip _) as [name|] eqn:Hname; [|discriminate].
  cbn [rbind].
  destruct (sanitize_conditions _ []) as [kept|] eqn:Hkept; [|discriminate].
  cbn [rbind]. inversion 1.
  eexists _, _, _. split; [reflexivity|]. split.
  - unfold method_strip in Hname.
    destruct (dict_get_default "name" _ strategy); try discriminate.
    inversion Hname. apply str_strip_idem.
  - eapply sanitize_conditions_shape; [exact Hkept | constructor].
Qed.

(** C3: sanitizing what the sanitizer returned returns it unchanged. *)
Theorem sanitize_strategy_idempotent strategy sanitized :
  sanitize_strategy strategy = Ok sanitized ->
  sanitize_strategy sanitized = Ok sanitized.
Proof.
  intros H. apply sanitize_strategy_shape in H.
  destruct H as (name & description & kept & -> & Hname & Hkept).
  unfold sanitize_strategy, dict_get_default.
  cbn [dict_get String.eqb Ascii.eqb Bool.eqb method_strip rbind].
  rewrite Hname, (sanitize_conditions_fixed kept [] Hkept). reflexivity.
Qed.

(** C1 (amended): when the sanitizer returns a strategy whose name is not
    empty and whose conditions list is not empty, validating that strategy
    succeeds, with no error and no warning. *)
Theorem sanitized_strategy_validates strategy sanitized self :
  sanitize_strategy strategy = Ok sanitized ->
  py_getitem sanitized "name" <> Ok (PStr "") ->
  py_getitem sanitized "conditions" <> Ok (PList []) ->
  validate_strategy sanitized self = (Ok (true, [], []), mkValidator [] []).
Proof.
  intros H Hn Hc. apply sanitize_strategy_shape in H.
  destruct H as (name & description & kept & -> & Hname & Hkept).
  cbn in Hn, Hc.
  assert (Hne : String.eqb name "" = false).
  { apply String.eqb_neq. congruence. }
  destruct kept as [|c rest]; [congruence|].
  unfold validate_strategy.
  cbn [dict_has dict_get String.eqb Ascii.eqb Bool.eqb negb].
  run_monad. unfold set_errors, set_warnings, get_errors, get_warnings.
  cbn [dict_has dict_get String.eqb Ascii.eqb Bool.eqb negb is_str method_strip
       errors warnings List.length Nat.eqb].
  rewrite Hname. cbn [truthy]. rewrite Hne. cbn [negb].
  rewrite (validate_sanitized_conditions (c :: rest) 0 _ Hkept). reflexivity.
Qed.

(** C5 (amended): a value that is not a dict is sanitized to the fallback
    strategy, whose name is ["Invalid Strategy"], whose description is empty
    and whose conditions list is empty. *)
Theorem sanitize_strategy_fallback strategy :
  is_dict strategy = false ->
  sanitize_strategy strategy =
  Ok (PDict [("name", PStr "Invalid Strategy"); ("description", PStr "");
             ("conditions", PList [])]).
Proof. destruct strategy; (discriminate || reflexivity). Qed.

(** C2: [sanitize_strategy] raises on a strategy whose name is a number:
    [.strip()] is called on whatever [name] holds. *)
Theorem sanitize_strategy_raises_on_numeric_name :
  sanitize_strategy (PDict [("name", PInt 5)]) = Raise AttributeError.
Proof. reflexivity. Qed.

(** C4: [validate_strategy] raises on an indicator operand whose name is a
    number: [.lower()] is called on whatever [name] holds. *)
Theorem validate_strategy_raises_on_numeric_indicator_name self :
  fst (validate_strategy
         (PDict [("name", PStr "s");
                 ("conditions",
                  PList [PDict [("lhs", PDict [("type", PStr "indicator");
                                               ("name", PInt 5)]);
                                ("operator", PStr ">");
                                ("rhs", PDict [("type", PStr "value");
                                               ("value", PInt 1)])]])])
         self)
  = Raise AttributeError.
Proof.
  unfold validate_strategy, set_errors, set_warnings.
  cbn [dict_has dict_get String.eqb Ascii.eqb Bool.eqb negb].
  run_monad.
  cbn [dict_has dict_get String.eqb Ascii.eqb Bool.eqb negb is_str method_strip truthy].
  destruct (String.eqb (str_strip "s") ""); reflexivity.
Qed.

(** ** The store: what a call may touch *)

Lemma frame_refl n h : frame n h h.
Proof. split; [lia | reflexivity]. Qed.

Lemma frame_trans n h1 h2 h3 : frame n h1 h2 -> frame n h2 h3 -> frame n h1 h3.
Proof.
  intros [L1 E1] [L2 E2]. split; [lia|].
  intros l Hl. now rewrite E2, E1.
Qed.

Lemma nth_error_update_other h : forall l l' o,
  l <> l' -> nth_error (update h l' o) l = nth_error h l.
Proof.
  induction h as [|x h IH]; intros l l' o Hne; destruct l'; simpl; try reflexivity.
  - destruct l; [congruence | reflexivity].
  - destruct l; [reflexivity|]. simpl. apply IH. congruence.
Qed.

Lemma nth_error_update_same h : forall l o,
  (l < List.length h)%nat -> nth_error (update h l o) l = Some o.
Proof.
  induction h as [|x h IH]; intros l o Hl; simpl in Hl; [lia|].
  destruct l; simpl; [reflexivity|]. apply IH. lia.
Qed.

Lemma length_update h : forall l o, List.length (update h l o) = List.length h.
Proof.
  induction h as [|x h IH]; intros l o; destruct l; simpl; try reflexivity.
  now rewrite IH.
Qed.

Lemma frame_update n h l o : (n <= l)%nat -> frame n h (update h l o).
Proof.
  intros Hl. split; [rewrite length_update; lia|].
  intros l' Hl'. apply nth_error_update_other. lia.
Qed.

Lemma frame_alloc n h o : (n <= List.length h)%nat -> frame n h (h ++ [o]).
Proof.
  intros Hn. split; [rewrite length_app; simpl; lia|].
  intros l Hl. apply nth_error_app1. lia.
Qed.

Lemma local_ret n {A} (a : A) (Q : A -> Prop) : Q a -> local n (hret a) Q.
Proof.
  intros Ha h Hn. simpl. split; [apply frame_refl|]. now inversion 1; subst.
Qed.

Lemma local_weaken n {A} (m : H A) (P Q : A -> Prop) :
  local n m P -> (forall a, P a -> Q a) -> local n m Q.
Proof.
  intros Hm HPQ h Hn. destruct (Hm h Hn) as [Hf Hp]. split; [exact Hf | auto].
Qed.

Lemma local_bind n {A C} (m : H A) (k : A -> H C) (P : A -> Prop) (Q : C -> Prop) :
  local n m P -> (forall a, P a -> local n (k a) Q) -> local n (hbind m k) Q.
Proof.
  intros Hm Hk h Hn. destruct (Hm h Hn) as [Hf Hp]. unfold hbind.
  destruct (m h) as [[a|e] h1]; simpl in *.
  - destruct (Hk a (Hp a eq_refl) h1) as [Hf' Hq]; [destruct Hf; lia|].
    split; [eapply frame_trans; eassumption | exact Hq].
  - split; [exact Hf | discriminate].
Qed.

Lemma local_alloc n o : local n (alloc o) (fresh n).
Proof.
  intros h Hn. simpl. split; [now apply frame_alloc|].
  intros a Ha l ->. inversion Ha. lia.
Qed.

Lemma local_setitem n target k v : fresh n target -> local n (setitem target k v) any.
Proof.
  intros Hfresh h Hn. unfold setitem.
  destruct target as [| | | | |l]; simpl; try (split; [apply frame_refl | easy]).
  destruct (nth_error h l) as [[|d]|]; simpl; try (split; [apply frame_refl | easy]).
  split; [|easy]. apply frame_update. now apply Hfresh.
Qed.

Lemma local_list_append n target v : fresh n target -> local n (list_append target v) any.
Proof.
  intros Hfresh h Hn. unfold list_append.
  destruct target as [| | | | |l]; simpl; try (split; [apply frame_refl | easy]).
  destruct (nth_error h l) as [[items|]|]; simpl; try (split; [apply frame_refl | easy]).
  split; [|easy]. apply frame_update. now apply Hfresh.
Qed.

Lemma local_any n {A} (m : H A) (Q : A -> Prop) : local n m Q -> local n m any.
Proof. intros Hm. eapply local_weaken; [exact Hm | easy]. Qed.

Lemma reads_hret {A} (a : A) : reads (hret a).
Proof. intros h. now eexists. Qed.

Lemma reads_hlift {A} (r : result A) : reads (hlift r).
Proof. intros h. now eexists. Qed.

Lemma reads_deref v : reads (deref v).
Proof. intros h. now eexists. Qed.

Lemma reads_hbind {A C} (m : H A) (k : A -> H C) :
  reads m -> (forall a, reads (k a)) -> reads (hbind m k).
Proof.
  intros Hm Hk h. unfold hbind. destruct (Hm h) as ([a|e] & ->).
  - apply Hk.
  - now eexists.
Qed.

Lemma reads_his_dict v : reads (his_dict v).
Proof. apply reads_hbind; [apply reads_deref | intros; apply reads_hret]. Qed.

Lemma reads_his_list v : reads (his_list v).
Proof. apply reads_hbind; [apply reads_deref | intros; apply reads_hret]. Qed.

Lemma reads_hget target k default : reads (hget target k default).
Proof.
  apply reads_hbind; [apply reads_deref|].
  intros [[|d]|]; first [apply reads_hret | apply reads_hlift].
Qed.

Lemma reads_hcontains k target : reads (hcontains k target).
Proof.
  apply reads_hbind; [apply reads_deref|].
  intros [[|d]|]; destruct target; first [apply reads_hret | apply reads_hlift].
Qed.

Lemma reads_list_items target : reads (list_items target).
Proof.
  apply reads_hbind; [apply reads_deref|].
  intros [[|d]|]; first [apply reads_hret | apply reads_hlift].
Qed.

Lemma reads_getitem target k : reads (getitem target k).
Proof.
  apply reads_hbind; [apply reads_deref|].
  intros [[|d]|]; try apply reads_hlift.
  destruct (hdict_get k d); [apply reads_hret | apply reads_hlift].
Qed.

Lemma reads_hstr v : reads (hstr v).
Proof. intros h. now eexists. Qed.

Lemma reads_htruthy v : reads (htruthy v).
Proof. apply reads_hbind; [apply reads_deref | intros; apply reads_hret]. Qed.

Lemma local_reads n {A} (m : H A) : reads m -> local n m any.
Proof.
  intros Hm h Hn. destruct (Hm h) as (r & ->). split; [apply frame_refl | easy].
Qed.

(** A read followed by [k]: either the read returns and [k] runs in the
    same store, or the read raises and the store is as it was. *)
Lemma hbind_reads {A C} (m : H A) (k : A -> H C) h :
  reads m ->
  (exists a, m h = (Ok a, h) /\ hbind m k h = k a h) \/
  (exists e, hbind m k h = (Raise e, h)).
Proof.
  intros Hm. unfold hbind. destruct (Hm h) as ([a|e] & ->); [left | right]; eauto.
Qed.

Create HintDb reads.
#[local] Hint Resolve reads_hret reads_hlift reads_deref reads_his_dict reads_his_list
  reads_hget reads_hcontains reads_list_items reads_getitem reads_hstr reads_htruthy
  : reads.

Ltac local_run :=
  first
    [ apply local_reads; solve [auto with reads]
    | apply local_alloc
    | apply local_setitem; assumption
    | apply local_list_append; assumption
    | apply local_ret; solve [assumption | exact I | intros ? ?; discriminate]
    | eapply local_bind; [apply local_alloc | intros ? ?]
    | eapply local_bind; [eapply local_any|intros ? _]
    | match goal with
      | |- local _ (if ?b then _ else _) _ => destruct b
      | |- local _ (match ?x with _ => _ end) _ => destruct x
      end ].

Lemma local_sanitize_operand n operand side :
  local n (h_sanitize_operand operand side) (fresh n).
Proof. unfold h_sanitize_operand. repeat local_run. Qed.

Lemma local_sanitize_condition n condition :
  local n (h_sanitize_condition condition) any.
Proof.
  unfold h_sanitize_condition.
  repeat first [apply local_sanitize_operand | local_run].
Qed.

Open Scope heap_scope.

Lemma nth_error_snoc (h : heap) o : nth_error (h ++ [o]) (List.length h) = Some o.
Proof. rewrite nth_error_app2 by lia. now rewrite Nat.sub_diag. Qed.

Lemma nth_error_snoc_lt (h : heap) o l :
  (l < List.length h)%nat -> nth_error (h ++ [o]) l = nth_error h l.
Proof. intros Hl. now apply nth_error_app1. Qed.

(** One step of a run [Hrun : run = (x <- m ;; k) h] whose first statement
    [m] only reads: either [m] returns and [Hrun] becomes [run = k a h], or
    it raises and [Hrun] becomes [run = (Raise e, h)]. *)
Ltac read_step Hrun :=
  match type of Hrun with
  | _ = hbind ?m ?k ?h =>
      let E := fresh "E" in
      let e := fresh "e" in
      destruct (hbind_reads m k h ltac:(auto with reads)) as [(? & ? & E) | (e & E)];
      rewrite E in Hrun; clear E
  end.

(** The loop keeps the first [n] locations when the dict it fills and the
    list under its [conditions] key both lie above them. *)
Lemma frame_sanitize_conditions n ls lk items : forall h d xs,
  (n <= ls)%nat -> (n <= lk)%nat ->
  nth_error h ls = Some (ODict d) ->
  hdict_get "conditions" d = Some (HRef lk) ->
  nth_error h lk = Some (OList xs) ->
  frame n h (snd (h_sanitize_conditions items (HRef ls) h)).
Proof.
  induction items as [|c rest IH]; intros h d xs Hls Hlk Hd Hc Hk.
  - apply frame_refl.
  - assert (Hlt : (ls < List.length h)%nat) by (apply nth_error_Some; congruence).
    assert (Hlt' : (lk < List.length h)%nat) by (apply nth_error_Some; congruence).
    assert (Hne : ls <> lk) by congruence.
    remember (h_sanitize_conditions (c :: rest) (HRef ls) h) as run eqn:Hrun.
    cbn [h_sanitize_conditions] in Hrun.
    (* the body of the loop keeps the invariant *)
    assert (Hbody : forall body : H unit,
               (forall h0 r h1,
                   (List.length h <= List.length h0)%nat ->
                   (forall l, (l < List.length h)%nat -> nth_error h0 l = nth_error h l) ->
                   body h0 = (r, h1) ->
                   exists xs', frame n h h1 /\
                               nth_error h1 ls = Some (ODict d) /\
                               nth_error h1 lk = Some (OList xs')) ->
               forall h0, (List.length h <= List.length h0)%nat ->
                          (forall l, (l < List.length h)%nat ->
                                     nth_error h0 l = nth_error h l) ->
                          frame n h (snd (hbind body
                                            (fun _ => h_sanitize_conditions rest (HRef ls)) h0))).
    { intros body Hb h0 L0 S0. unfold hbind.
      destruct (body h0) as [r h1] eqn:E.
      destruct (Hb h0 r h1 L0 S0 E) as (xs' & F & Hd' & Hk').
      destruct r as [[]|e]; cbn [snd] in *; [|exact F].
      eapply frame_trans; [exact F|]. eapply IH; eassumption. }
    unfold hbind at 1 in Hrun.
    destruct (reads_his_dict c h) as (r & Hr). rewrite Hr in Hrun.
    destruct r as [is_object|e]; [|subst run; apply frame_refl].
    subst run. apply Hbody; [|lia|reflexivity]. clear Hbody.
    intros h0 r h1 L0 S0 Hb.
    assert (F0 : frame n h h0) by (split; [exact L0 | intros l Hl; apply S0; lia]).
    assert (Hd0 : nth_error h0 ls = Some (ODict d)) by (rewrite S0; assumption).
    assert (Hk0 : nth_error h0 lk = Some (OList xs)) by (rewrite S0; assumption).
    destruct is_object; cbn [negb] in Hb;
      [|inversion Hb; subst; now exists xs].
    unfold hbind at 1 in Hb.
    destruct (local_sanitize_condition (List.length h0) c h0 (le_n _))
      as [[Hlen Hsame] _].
    assert (Hlt0 : (ls < List.length h0)%nat) by lia.
    assert (Hlt0' : (lk < List.length h0)%nat) by lia.
    destruct (h_sanitize_condition c h0) as [[sc|e] h0']; cbn [snd] in *.
    2:{ inversion Hb; subst. exists xs. split; [|split].
        - eapply frame_trans; [exact F0|]. split; [exact Hlen|].
          intros l Hl. apply Hsame. lia.
        - rewrite Hsame; assumption.
        - rewrite Hsame; assumption. }
    assert (F1 : frame n h h0').
    { eapply frame_trans; [exact F0|]. split; [exact Hlen|].
      intros l Hl. apply Hsame. lia. }
    assert (Hd1 : nth_error h0' ls = Some (ODict d)) by (rewrite Hsame; assumption).
    assert (Hk1 : nth_error h0' lk = Some (OList xs)) by (rewrite Hsame; assumption).
    unfold hbind at 1 in Hb.
    destruct (reads_htruthy sc h0') as (rt & Ht). rewrite Ht in Hb.
    destruct rt as [[|]|e]; try (inversion Hb; subst; now exists xs).
    unfold getitem, deref, hbind in Hb. cbv beta iota in Hb. rewrite Hd1, Hc in Hb.
    unfold hret, list_append in Hb. cbv beta iota in Hb. rewrite Hk1 in Hb.
    inversion Hb; subst.
    exists (xs ++ [sc]). split; [|split].
    + eapply frame_trans; [exact F1|]. now apply frame_update.
    + rewrite nth_error_update_other; assumption.
    + apply nth_error_update_same. apply nth_error_Some. congruence.
Qed.

Lemma local_sanitize_strategy strategy h :
  frame (List.length h) h (snd (h_sanitize_strategy strategy h)) /\
  forall v, fst (h_sanitize_strategy strategy h) = Ok v ->
            exists l, v = HRef l /\ (List.length h <= l)%nat.
Proof.
  remember (List.length h) as n eqn:Hn.
  remember (h_sanitize_strategy strategy h) as run eqn:Hrun.
  unfold h_sanitize_strategy in Hrun.
  assert (Hraise : forall e h', frame n h h' ->
             frame n h (snd (@Raise hval e, h')) /\
             forall v, fst (@Raise hval e, h') = Ok v ->
                       exists l, v = HRef l /\ (n <= l)%nat).
  { intros e h' F. split; [exact F | discriminate]. }
  read_step Hrun; [|subst run; apply Hraise, frame_refl].
  match goal with b : bool |- _ => destruct b end; cbn [negb] in Hrun.
  2:{ subst run. unfold hbind, alloc. cbn [fst snd]. split.
      - eapply frame_trans; apply frame_alloc; [lia | rewrite length_app; lia].
      - inversion 1. eexists. split; [reflexivity|]. rewrite length_app. lia. }
  read_step Hrun; [|subst run; apply Hraise, frame_refl].
  read_step Hrun; [|subst run; apply Hraise, frame_refl].
  read_step Hrun; [|subst run; apply Hraise, frame_refl].
  unfold hbind at 1, alloc at 1 in Hrun. unfold hbind at 1, alloc at 1 in Hrun.
  unfold hbind at 1, alloc at 1 in Hrun.
  rewrite <- Hn in Hrun.
  match type of Hrun with
  | context [h ++ [OList []] ++ _] => idtac
  | context [(h ++ [OList []]) ++ [ODict ?d0]] => set (d := d0) in *
  end.
  set (h1 := h ++ [OList []]) in *.
  set (h2 := h1 ++ [ODict d]) in *.
  set (h3 := h2 ++ [OList []]) in *.
  assert (L1 : List.length h1 = S n) by (unfold h1; rewrite length_app; simpl; lia).
  assert (L2 : List.length h2 = S (S n)) by (unfold h2; rewrite length_app; simpl; lia).
  assert (L3 : List.length h3 = S (S (S n))) by (unfold h3; rewrite length_app; simpl; lia).
  assert (F3 : frame n h h3).
  { eapply frame_trans; [apply (frame_alloc n h (OList [])); lia|].
    eapply frame_trans;
      [apply (frame_alloc n h1 (ODict d)); lia | apply (frame_alloc n h2 (OList [])); lia]. }
  assert (Hk3 : nth_error h3 n = Some (OList [])).
  { unfold h3. rewrite nth_error_snoc_lt by lia.
    unfold h2. rewrite nth_error_snoc_lt by lia.
    unfold h1. rewrite Hn. apply nth_error_snoc. }
  assert (Hd3 : nth_error h3 (List.length h1) = Some (ODict d)).
  { unfold h3. rewrite nth_error_snoc_lt by lia. apply nth_error_snoc. }
  read_step Hrun; [|subst run; apply Hraise, F3].
  read_step Hrun; [|subst run; apply Hraise, F3].
  unfold hbind at 1 in Hrun.
  match type of Hrun with
  | context [(if ?b then alloc (OList []) else hret ?c) h3] =>
      assert (Hitems : exists c' h4,
                 (if b then alloc (OList []) else hret c) h3 = (Ok c', h4) /\
                 frame n h h4 /\
                 nth_error h4 n = Some (OList []) /\
                 nth_error h4 (List.length h1) = Some (ODict d));
      [destruct b; eexists _, _; (split; [reflexivity|]); (split; [|split]);
       try assumption;
       [eapply frame_trans; [exact F3 | apply frame_alloc; lia]
       | rewrite nth_error_snoc_lt by lia; exact Hk3
       | rewrite nth_error_snoc_lt by lia; exact Hd3]
      |destruct Hitems as (c' & h4 & Hrun4 & F4 & Hk4 & Hd4); rewrite Hrun4 in Hrun]
  end.
  read_step Hrun; [|subst run; apply Hraise, F4].
  unfold hbind at 1 in Hrun.
  match type of Hrun with
  | context [h_sanitize_conditions ?items _ h4] =>
      pose proof (frame_sanitize_conditions n (List.length h1) n items h4 d []
                    ltac:(lia) ltac:(lia) Hd4 eq_refl Hk4) as Floop;
      destruct (h_sanitize_conditions items (HRef (List.length h1)) h4) as [[[]|e] h5]
  end;
    subst run; cbn [fst snd hret] in *.
  - split; [eapply frame_trans; eassumption|].
    inversion 1. eexists. split; [reflexivity | lia].
  - split; [eapply frame_trans; eassumption | discriminate].
Qed.

Lemma readback_frame h h' :
  closed h = true -> frame (List.length h) h h' ->
  forall fuel v, val_below (List.length h) v = true ->
                 readback fuel h' v = readback fuel h v.
Proof.
  intros Hclosed [_ Hsame]. unfold closed in Hclosed.
  rewrite forallb_forall in Hclosed.
  induction fuel as [|fuel IH]; intros v Hv; destruct v as [| | | | |l];
    try reflexivity.
  cbn [val_below] in Hv. apply Nat.ltb_lt in Hv.
  cbn [readback]. rewrite (Hsame l Hv).
  destruct (nth_error h l) as [o|] eqn:Ho; [|reflexivity].
  pose proof (Hclosed o (nth_error_In _ _ Ho)) as Hbelow.
  destruct o as [items|items]; cbn [obj_below] in Hbelow;
    rewrite forallb_forall in Hbelow; f_equal; apply map_ext_in.
  - intros x Hx. apply IH. now apply Hbelow.
  - intros [k x] Hx. f_equal. apply IH. now apply (Hbelow (k, x)).
Qed.

(** C9: whatever the store holds and whatever the argument is, a call of
    [sanitize_strategy] leaves every object that existed before the call as
    it was, and the dict it returns is a new object; so in a closed store
    every value that existed before the call denotes what it denoted. *)
Theorem sanitize_strategy_leaves_input_unchanged strategy h :
  (forall l, (l < List.length h)%nat ->
             nth_error (snd (h_sanitize_strategy strategy h)) l = nth_error h l) /\
  (forall v, fst (h_sanitize_strategy strategy h) = Ok v ->
             exists l, v = HRef l /\ (List.length h <= l)%nat) /\
  (closed h = true ->
   forall fuel x, val_below (List.length h) x = true ->
                  readback fuel (snd (h_sanitize_strategy strategy h)) x
                  = readback fuel h x).
Proof.
  destruct (local_sanitize_strategy strategy h) as [Hframe Hfresh].
  split; [exact (proj2 Hframe)|]. split; [exact Hfresh|].
  intros Hclosed fuel x Hx. now apply readback_frame.
Qed.

(** C6: the loop over the conditions does not reach every element: when
    the validation of one element raises, as it does on an indicator whose
    name is a number, [validate_strategy] raises with it, and a failing
    condition further down the list is never reported.  Here the first
    element has been recorded in [self.errors], the second raises, and the
    third, which lacks its [lhs], is not looked at. *)
Theorem validate_strategy_stops_at_raising_condition self :
  let raising :=
    PDict [("lhs", PDict [("type", PStr "indicator"); ("name", PInt 5)]);
           ("operator", PStr ">");
           ("rhs", PDict [("type", PStr "value"); ("value", PInt 1)])] in
  let failing := PDict [("rhs", PDict [("type", PStr "value"); ("value", PInt 1)])] in
  let strategy :=
    [("name", PStr "s"); ("conditions", PList [PInt 3; raising; failing])] in
  condition_verdict failing 2 = Ok (false, "Missing 'lhs' (left-hand side)") /\
  fst (validate_strategy (PDict strategy) self) = Raise AttributeError /\
  errors (snd (validate_strategy (PDict strategy) self))
  = name_errors strategy ++ ["Condition 1: Condition must be an object"].
Proof.
  cbv zeta. split; [reflexivity|].
  unfold validate_strategy, set_errors, set_warnings, name_errors.
  cbn [dict_has dict_get String.eqb Ascii.eqb Bool.eqb negb].
  run_monad.
  cbn [dict_has dict_get String.eqb Ascii.eqb Bool.eqb negb is_str method_strip truthy].
  destruct (String.eqb (str_strip "s") ""); split; reflexivity.
Qed.





(** * Further properties *)

Lemma bind_tail_state {A C} (m : M A) (k : A -> M C) (P : C -> Validator -> Prop)
      self r self' :
  (forall a s r' s', k a s = (Ok r', s') -> P r' s') ->
  bind m k self = (Ok r, self') -> P r self'.
Proof.
  intros Hk. unfold bind. destruct (m self) as [[a|e] s]; [apply Hk | discriminate].
Qed.

(** X1: a call of [validate_strategy] does not depend on what an earlier
    call left in [self.errors] and [self.warnings], and the lists it returns
    are the ones it leaves in [self]. *)
Theorem validate_strategy_forgets_prior_state strategy self :
  (forall self', validate_strategy strategy self' = validate_strategy strategy self) /\
  (forall is_valid errs warns after,
     validate_strategy strategy self = (Ok (is_valid, errs, warns), after) ->
     after = mkValidator errs warns).
Proof.
  split.
  - intros self'. reflexivity.
  - intros is_valid errs warns after.
    set (Q := fun (r : bool * list string * list string) (s : Validator) =>
                s = mkValidator (snd (fst r)) (snd r)).
    change (validate_strategy strategy self = (Ok (is_valid, errs, warns), after) ->
            Q (is_valid, errs, warns) after).
    unfold validate_strategy.
    apply bind_tail_state. intros _ s r s'. apply bind_tail_state. clear -Q.
    intros _ s r s'.
    assert (Htail : forall (f : list string -> bool) s r s',
               bind get_errors (fun errs => bind get_warnings
                 (fun warns => ret (f errs, errs, warns))) s = (Ok r, s') -> Q r s').
    { clear. intros f [e w] r s'. cbv. intros H. inversion H. reflexivity. }
    destruct strategy;
      try (apply bind_tail_state; clear -Q Htail; intros ? s0 r0 s0';
           apply (Htail (fun _ => false))).
    do 3 (apply bind_tail_state; clear -Q Htail; intros ? s0 r0 s0').
    apply (Htail (fun errs => (List.length errs =? 0)%nat)).
Qed.

Lemma validate_strategy_bad_field_run strategy self msg :
  conditions_field_error strategy = Some msg ->
  validate_strategy (PDict strategy) self =
  (Ok (false, name_errors strategy ++ [msg], description_warnings strategy),
   mkValidator (name_errors strategy ++ [msg]) (description_warnings strategy)).
Proof.
  unfold conditions_field_error, validate_strategy, name_errors, description_warnings.
  intros Hmsg. rewrite !dict_has_get. unfold subscript.
  assert (Hlen : forall errs : list string, (List.length (errs ++ [msg]) =? 0)%nat = false).
  { intros errs. rewrite length_app. simpl. apply Nat.eqb_neq. lia. }
  destruct (dict_get "conditions" strategy) as [[| | | | |[|c0 rest]|]|];
    inversion Hmsg; subst msg; clear Hmsg;
    destruct (dict_get "name" strategy) as [[| | | |nm| |]|];
    destruct (dict_get "description" strategy);
    cbn -[String.eqb];
    unfold bind, set_errors, set_warnings, append_error, append_warning, lift, ret,
      get_errors, get_warnings;
    cbn -[String.eqb];
    try (destruct (String.eqb (str_strip nm) ""); cbn);
    reflexivity.
Qed.

(** X2: when the [conditions] field is absent, not a list or an empty list,
    [validate_strategy] returns without raising: the strategy is invalid,
    the errors are the name error (if any) followed by the error for the
    field, and the only possible warning is the one for a missing
    description. *)
Theorem validate_strategy_bad_conditions_field strategy self msg :
  conditions_field_error strategy = Some msg ->
  validate_strategy (PDict strategy) self =
  (Ok (false, name_errors strategy ++ [msg], description_warnings strategy),
   mkValidator (name_errors strategy ++ [msg]) (description_warnings strategy)).
Proof. apply validate_strategy_bad_field_run. Qed.

Lemma eq_str_true v s : eq_str v s = true <-> v = PStr s.
Proof.
  destruct v; simpl; try (split; [discriminate | intros H; discriminate]).
  rewrite String.eqb_eq. split; [now intros -> | now inversion 1].
Qed.

(** X3: on an operand that is not an indicator object, [validate_operand]
    never raises and leaves [self] untouched, whatever the side; it succeeds
    exactly when the operand is an object of type ["value"] whose [value] is
    an int, a float or a bool. *)
Theorem validate_operand_plain operand side self :
  is_indicator_operand operand = false ->
  exists valid reason,
    validate_operand operand side self = (Ok (valid, reason), self) /\
    (valid = true <->
     exists d v, operand = PDict d /\ dict_get "type" d = Some (PStr "value") /\
                 dict_get "value" d = Some v /\ is_number v = true).
Proof.
  intros Hplain.
  destruct operand as [| | | | | |d];
    try (eexists _, _; split; [reflexivity|];
         split; [discriminate | intros (d & v & H & _); discriminate]).
  unfold is_indicator_operand, dict_get_default in Hplain.
  unfold validate_operand. rewrite !dict_has_get. run_monad.
  destruct (dict_get "type" d) as [t|] eqn:Ht; cbn [negb].
  2:{ eexists _, _. split; [reflexivity|].
      split; [discriminate | intros (d' & v & H & Ht' & _); inversion H; congruence]. }
  rewrite Hplain.
  destruct (eq_str t "value") eqn:Hv.
  - apply eq_str_true in Hv. subst t.
    destruct (dict_get "value" d) as [v|] eqn:Hval; cbn [negb].
    + destruct (is_number v) eqn:Hn; cbn [negb];
        eexists _, _; (split; [reflexivity|]).
      * split; [intros _; now exists d, v | reflexivity].
      * split; [discriminate|]. intros (d' & v' & H & _ & Hv' & Hn').
        inversion H; subst d'. congruence.
    + eexists _, _. split; [reflexivity|].
      split; [discriminate|]. intros (d' & v' & H & _ & Hv' & _).
      inversion H; subst d'. congruence.
  - eexists _, _. split; [reflexivity|].
    split; [discriminate|]. intros (d' & v' & H & Ht' & _).
    inversion H; subst d'. rewrite Ht in Ht'. inversion Ht'; subst t.
    simpl in Hv. discriminate.
Qed.

Lemma validate_indicator_returns indicator side self :
  typed_indicator indicator = true ->
  exists v after, validate_indicator indicator side self = (Ok v, after).
Proof.
  unfold typed_indicator. intros Htyped.
  apply andb_true_iff in Htyped. destruct Htyped as [Hname Hparams].
  unfold validate_indicator.
  rewrite !dict_has_get.
  unfold method_lower, py_contains, py_getitem, indicator_item, dict_get_default.
  run_monad.
  destruct (dict_get "name" indicator) as [[| | | |nm| |]|]; try discriminate;
    destruct (dict_get "params" indicator) as [[| | | | | |ps]|]; try discriminate;
    cbn [negb]; rewrite ?dict_has_get;
    repeat (destruct_scrutinee; cbn [negb orb andb errors warnings fst snd]);
    try discriminate; eauto.
  all: unfold is_indicator in *;
    match goal with
    | H : indicator_config _ = None |- _ => rewrite H in *
    end; discriminate.
Qed.

Lemma validate_operand_returns operand side self :
  typed_operand operand = true ->
  exists v after, validate_operand operand side self = (Ok v, after).
Proof.
  intros Htyped. destruct operand as [| | | | | |d]; try (eexists _, _; reflexivity).
  unfold typed_operand, dict_get_default in Htyped.
  unfold validate_operand. rewrite !dict_has_get. run_monad.
  destruct (dict_get "type" d) as [t|]; cbn [negb]; [|eexists _, _; reflexivity].
  destruct (eq_str t "value").
  - destruct (dict_get "value" d) as [v|]; cbn [negb]; [|eexists _, _; reflexivity].
    destruct (is_number v); eexists _, _; reflexivity.
  - destruct (eq_str t "indicator"); [|eexists _, _; reflexivity].
    now apply validate_indicator_returns.
Qed.

Lemma validate_condition_returns condition index :
  typed_condition condition = true ->
  exists v, condition_verdict condition index = Ok v.
Proof.
  intros Htyped. unfold condition_verdict.
  destruct condition as [| | | | | |c]; try (eexists; reflexivity).
  unfold typed_condition, dict_get_default in Htyped.
  apply andb_true_iff in Htyped. destruct Htyped as [Hl Hr].
  unfold validate_condition. rewrite !dict_has_get.
  destruct (dict_get "lhs" c) as [lhs|] eqn:Hlhs; cbn [negb]; [|eexists; reflexivity].
  destruct (dict_get "operator" c) as [op|] eqn:Hop; cbn [negb]; [|eexists; reflexivity].
  destruct (dict_get "rhs" c) as [rhs|] eqn:Hrhs; cbn [negb]; [|eexists; reflexivity].
  run_monad. rewrite Hop, Hlhs, Hrhs.
  destruct (in_strs op VALID_OPERATORS); cbn [negb]; [|eexists; reflexivity].
  destruct (eq_str op "≈ (approx)" && _); cbn [fst snd errors warnings].
  all: match goal with
  | |- context [validate_operand ?l "lhs" ?s] =>
      destruct (validate_operand_returns l "lhs" s Hl) as ([lv le] & s1 & ->)
  end.
  all: destruct lv; cbn [negb fst]; [|eexists; reflexivity].
  all: destruct (validate_operand_returns rhs "rhs" s1 Hr) as ([rv re] & s2 & ->).
  all: destruct rv; eexists; reflexivity.
Qed.

(** X4: [validate_strategy] returns, without raising, on every input in
    which each indicator operand of each condition has a string (or no)
    [name] and an object (or no) [params]. *)
Theorem validate_strategy_returns strategy self :
  (forall d conds c,
     strategy = PDict d -> dict_get "conditions" d = Some (PList conds) ->
     In c conds -> typed_condition c = true) ->
  exists is_valid errs warns,
    validate_strategy strategy self
    = (Ok (is_valid, errs, warns), mkValidator errs warns).
Proof.
  intros Htyped.
  destruct strategy as [| | | | | |d]; try (eexists _, _, _; reflexivity).
  destruct (conditions_field_error d) as [msg|] eqn:Hfield.
  - eexists _, _, _. apply validate_strategy_bad_field_run. exact Hfield.
  - unfold conditions_field_error in Hfield.
    destruct (dict_get "conditions" d) as [[| | | | |[|c0 rest]|]|] eqn:Hc;
      try discriminate.
    destruct (validate_strategy_dict d (c0 :: rest) self Hc ltac:(discriminate))
      as (warns & Hrun).
    + intros i c Hi. apply validate_condition_returns.
      apply (Htyped d (c0 :: rest) c eq_refl Hc). eapply nth_error_In. exact Hi.
    + eexists _, _, _. exact Hrun.
Qed.

Ltac tidy_tests :=
  repeat match goal with
         | H : negb _ = false |- _ => apply Bool.negb_false_iff in H
         | H : negb _ = true |- _ => apply Bool.negb_true_iff in H
         | H : _ || _ = false |- _ => apply Bool.orb_false_iff in H; destruct H
         | H : (_ <? _) = false |- _ => apply Z.ltb_ge in H
         | H1 : dict_get ?k ?d = Some ?a, H2 : dict_get ?k ?d = Some ?b |- _ =>
             assert (a = b) by congruence; subst; clear H2
         | H1 : dict_get ?k ?d = Some _, H2 : dict_get ?k ?d = None |- _ =>
             congruence
         end.

Lemma validate_indicator_accepts indicator side self reason after :
  validate_indicator indicator side self = (Ok (true, reason), after) ->
  reason = "" /\
  exists name cfg,
    dict_get "name" indicator = Some (PStr name) /\
    indicator_config (str_lower name) = Some cfg /\
    (forall tf, dict_get "timeframe" indicator = Some tf ->
                in_strs tf VALID_TIMEFRAMES = true) /\
    (forall off, dict_get "offset" indicator = Some off ->
                 is_int off = true /\ 0 <= int_value off) /\
    (forall default ps p,
       cfg = Period default ->
       dict_get "params" indicator = Some (PDict ps) ->
       dict_get "period" ps = Some p ->
       is_int p = true /\ 1 <= int_value p).
Proof.
  unfold validate_indicator.
  rewrite !dict_has_get.
  unfold method_lower, py_contains, py_getitem, indicator_item, dict_get_default.
  run_monad. rewrite ?dict_has_get.
  repeat (destruct_scrutinee; cbn [negb orb andb errors warnings fst snd]);
    intros Hrun; try discriminate; inversion Hrun; subst; clear Hrun.
  all: split; [reflexivity|].
  all: eexists _, _; split; [reflexivity|]; split; [eassumption|].
  all: split; [intros tf Htf; inversion Htf; subst; tidy_tests; assumption|].
  all: split; [intros off Hoff; inversion Hoff; subst; tidy_tests; auto|].
  all: intros default ps p Hcfg Hps Hp; try discriminate.
  all: inversion Hcfg; subst; inversion Hps; subst; tidy_tests.
  all: try (rewrite dict_has_get, Hp in *; discriminate).
  all: try (unfold subscript in *; rewrite Hp in *).
  all: split; [assumption | lia].
Qed.

(** X5: an indicator operand that [validate_indicator] accepts has a string
    name whose lower-case form is in the registry, a timeframe that is
    absent or one of the three literals, an offset that is absent or a
    non-negative int, and, when the indicator requires a period and [params]
    is an object holding [period], a period that is an int of at least 1. *)
Theorem validate_indicator_sound indicator side self reason after :
  validate_indicator indicator side self = (Ok (true, reason), after) ->
  reason = "" /\
  exists name cfg,
    dict_get "name" indicator = Some (PStr name) /\
    indicator_config (str_lower name) = Some cfg /\
    (forall tf, dict_get "timeframe" indicator = Some tf ->
                in_strs tf VALID_TIMEFRAMES = true) /\
    (forall off, dict_get "offset" indicator = Some off ->
                 is_int off = true /\ 0 <= int_value off) /\
    (forall default ps p,
       cfg = Period default ->
       dict_get "params" indicator = Some (PDict ps) ->
       dict_get "period" ps = Some p ->
       is_int p = true /\ 1 <= int_value p).
Proof. apply validate_indicator_accepts. Qed.

Lemma validate_conditions_ok conditions : forall start self after,
  validate_conditions conditions (Z.of_nat start) self = (Ok tt, after) ->
  forall k c, nth_error conditions k = Some c ->
              exists v, condition_verdict c (Z.of_nat (start + k)) = Ok v.
Proof.
  induction conditions as [|c0 rest IH]; intros start self after Hrun k c Hk.
  - destruct k; discriminate.
  - cbn [validate_conditions] in Hrun. unfold bind at 1 in Hrun.
    rewrite validate_condition_run in Hrun.
    destruct (condition_verdict c0 (Z.of_nat start)) as [[valid reason]|e] eqn:Hv;
      [|discriminate].
    destruct k as [|k].
    + inversion Hk; subst. rewrite Nat.add_0_r. eauto.
    + replace (start + S k)%nat with (S start + k)%nat by lia.
      replace (Z.of_nat start + 1) with (Z.of_nat (S start)) in Hrun by lia.
      destruct valid; cbn [negb] in Hrun; unfold bind at 1 in Hrun;
        [unfold ret at 1 in Hrun | unfold append_error at 1 in Hrun];
        eapply IH; eassumption.
Qed.

Lemma validate_strategy_conditions_ran strategy conds self r after :
  dict_get "conditions" strategy = Some (PList conds) -> conds <> [] ->
  validate_strategy (PDict strategy) self = (Ok r, after) ->
  exists s0 s1, validate_conditions conds 0 s0 = (Ok tt, s1).
Proof.
  intros Hc Hne.
  unfold validate_strategy.
  rewrite !dict_has_get, Hc. unfold subscript. rewrite Hc.
  destruct conds as [|c0 rest]; [congruence|].
  destruct (dict_get "name" strategy) as [[| | | |s| |]|];
    destruct (dict_get "description" strategy);
    cbn -[validate_conditions String.eqb];
    unfold bind, set_errors, set_warnings, append_error, append_warning, lift, ret,
      get_errors, get_warnings;
    cbn -[validate_conditions String.eqb];
    try (destruct (String.eqb (str_strip s) ""); cbn -[validate_conditions]);
    match goal with
    | |- context [validate_conditions (c0 :: rest) 0 ?st] =>
        destruct (validate_conditions (c0 :: rest) 0 st) as [[[]|e] s1] eqn:Hloop
    end;
    intros Hrun; try discriminate; eauto.
Qed.

Lemma condition_verdict_reason condition index reason :
  condition_verdict condition index = Ok (true, reason) -> reason = "".
Proof.
  unfold condition_verdict.
  destruct condition as [| | | | | |c]; try (intros H; cbv in H; discriminate).
  unfold validate_condition. rewrite !dict_has_get.
  destruct (dict_get "lhs" c) as [lhs|] eqn:Hlhs; cbn [negb]; [|discriminate].
  destruct (dict_get "operator" c) as [op|] eqn:Hop; cbn [negb]; [|discriminate].
  destruct (dict_get "rhs" c) as [rhs|] eqn:Hrhs; cbn [negb]; [|discriminate].
  run_monad. rewrite Hop, Hlhs, Hrhs.
  destruct (in_strs op VALID_OPERATORS); cbn [negb]; [|discriminate].
  destruct (eq_str op "≈ (approx)" && _); cbn [fst snd errors warnings];
    rewrite validate_operand_run;
    (destruct (operand_verdict lhs "lhs") as [[[] le]|]; cbn [negb fst]; try discriminate);
    rewrite validate_operand_run;
    (destruct (operand_verdict rhs "rhs") as [[[] re]|]; cbn [negb fst]; try discriminate);
    intros H; inversion H; reflexivity.
Qed.

Lemma condition_errors_from_nil conds : forall start,
  condition_errors_from start conds = [] ->
  forall i c v, nth_error conds i = Some c ->
                condition_verdict c (Z.of_nat (start + i)) = Ok v ->
                fst v = true.
Proof.
  unfold condition_errors_from.
  induction conds as [|c0 rest IH]; intros start Hnil i c v Hi Hv.
  - destruct i; discriminate.
  - cbn [List.length seq combine flat_map] in Hnil.
    apply app_eq_nil in Hnil. destruct Hnil as [H0 Hrest].
    destruct i as [|i]; simpl in Hi.
    + inversion Hi; subst. rewrite Nat.add_0_r in Hv.
      unfold condition_error in H0. rewrite Hv in H0.
      destruct v as [[] reason]; [reflexivity | discriminate].
    + apply (IH (S start) Hrest i c v Hi).
      now replace (S start + i)%nat with (start + S i)%nat by lia.
Qed.

Lemma valid_strategy_inv strategy self errs warns after :
  validate_strategy strategy self = (Ok (true, errs, warns), after) ->
  errs = [] /\
  exists fields name conds,
    strategy = PDict fields /\
    dict_get "name" fields = Some (PStr name) /\
    str_strip name <> "" /\
    dict_get "conditions" fields = Some (PList conds) /\
    conds <> [] /\
    forall i c, nth_error conds i = Some c ->
                condition_verdict c (Z.of_nat i) = Ok (true, "").
Proof.
  intros Hrun.
  pose proof (validate_strategy_is_valid _ _ _ _ _ _ Hrun) as Hvalid.
  assert (Herrs : errs = []) by (destruct errs; [reflexivity | discriminate]).
  split; [exact Herrs|]. subst errs.
  destruct strategy as [| | | | | |fields];
    try (cbv in Hrun; inversion Hrun; fail).
  destruct (conditions_field_error fields) as [msg|] eqn:Hfield.
  { rewrite (validate_strategy_bad_field_run fields self msg Hfield) in Hrun.
    inversion Hrun. }
  unfold conditions_field_error in Hfield.
  destruct (dict_get "conditions" fields) as [[| | | | |[|c0 rest]|]|] eqn:Hc;
    try discriminate.
  assert (Hne : c0 :: rest <> []) by discriminate.
  destruct (validate_strategy_conditions_ran fields (c0 :: rest) self _ _ Hc Hne Hrun)
    as (s0 & s1 & Hloop).
  pose proof (validate_conditions_ok (c0 :: rest) 0%nat s0 s1 Hloop) as Hret.
  destruct (validate_strategy_dict fields (c0 :: rest) self Hc Hne Hret) as (ws & Hrun').
  cbv zeta in Hrun'. rewrite Hrun in Hrun'. inversion Hrun' as [[Hlen Herrs Hws]].
  symmetry in Herrs. apply app_eq_nil in Herrs. destruct Herrs as [Hname Hconds].
  unfold name_errors in Hname.
  destruct (dict_get "name" fields) as [[| | | |name| |]|] eqn:Hn; try discriminate.
  exists fields, name, (c0 :: rest).
  split; [reflexivity|]. split; [exact Hn|]. split.
  { intros Hblank. rewrite Hblank in Hname. discriminate. }
  split; [exact Hc|]. split; [exact Hne|].
  intros i c Hi. destruct (Hret i c Hi) as ([valid reason] & Hv).
  simpl in Hv.
  pose proof (condition_errors_from_nil _ 0%nat Hconds i c _ Hi Hv) as Htrue.
  simpl in Htrue. subst valid.
  rewrite Hv. now rewrite (condition_verdict_reason _ _ _ Hv).
Qed.

(** X6: a strategy that [validate_strategy] reports as valid is an object
    whose [name] is a string that is not blank and whose [conditions] is a
    non-empty list, every element of which passes [validate_condition]; the
    error list returned with it is empty. *)
Theorem valid_strategy_sound strategy self errs warns after :
  validate_strategy strategy self = (Ok (true, errs, warns), after) ->
  errs = [] /\
  exists fields name conds,
    strategy = PDict fields /\
    dict_get "name" fields = Some (PStr name) /\
    str_strip name <> "" /\
    dict_get "conditions" fields = Some (PList conds) /\
    conds <> [] /\
    forall i c, nth_error conds i = Some c ->
                condition_verdict c (Z.of_nat i) = Ok (true, "").
Proof. apply valid_strategy_inv. Qed.

Lemma sanitize_conditions_length conditions : forall acc kept,
  sanitize_conditions conditions acc = Ok kept ->
  (List.length kept <= List.length acc + List.length conditions)%nat.
Proof.
  induction conditions as [|c rest IH]; intros acc kept H; simpl in H.
  - inversion H; subst. simpl. lia.
  - destruct c; try (apply IH in H; simpl; lia).
    destruct (_sanitize_condition d) as [sc|]; [|discriminate].
    cbn [rbind] in H. destruct (truthy sc); apply IH in H;
      rewrite ?length_app in H; simpl in *; lia.
Qed.

Lemma sanitize_strategy_result strategy v :
  sanitize_strategy strategy = Ok v ->
  exists name description kept,
    v = PDict [("name", PStr name); ("description", description);
               ("conditions", PList kept)] /\
    str_strip name = name /\
    Forall sanitized_condition kept /\
    forall d, strategy = PDict d ->
              description = dict_get_default "description" (PStr "") d /\
              (List.length kept <= List.length (strategy_conditions d))%nat.
Proof.
  intros H.
  destruct (sanitize_strategy_shape _ _ H) as (name & description & kept & -> & Hn & Hk).
  exists name, description, kept.
  split; [reflexivity|]. split; [exact Hn|]. split; [exact Hk|].
  intros d ->. unfold sanitize_strategy in H.
  destruct (method_strip _) as [name'|]; [|discriminate]. cbn [rbind] in H.
  fold (strategy_conditions d) in H.
  destruct (sanitize_conditions _ []) as [kept'|] eqn:Hkept; [|discriminate].
  cbn [rbind] in H. inversion H; subst.
  split; [reflexivity|]. apply sanitize_conditions_length in Hkept. exact Hkept.
Qed.

(** X7: whatever [sanitize_strategy] returns is an object with the three
    keys [name], [description] and [conditions], in this order and no other:
    the name is a stripped string, the description is the input's, taken as
    it is (the empty string when absent), and the conditions are in
    sanitized form and no more than the input had. *)
Theorem sanitize_strategy_output strategy v :
  sanitize_strategy strategy = Ok v ->
  exists name description kept,
    v = PDict [("name", PStr name); ("description", description);
               ("conditions", PList kept)] /\
    str_strip name = name /\
    Forall sanitized_condition kept /\
    forall d, strategy = PDict d ->
              description = dict_get_default "description" (PStr "") d /\
              (List.length kept <= List.length (strategy_conditions d))%nat.
Proof. apply sanitize_strategy_result. Qed.

Lemma rbind_ok {A C} (m : result A) (k : A -> result C) c :
  rbind m k = Ok c -> exists a, m = Ok a /\ k a = Ok c.
Proof. destruct m as [a|e]; [|discriminate]. simpl. eauto. Qed.

Lemma sanitize_operand_dropped_iff operand side :
  _sanitize_operand operand side = Ok PNone <-> sanitizable_operand operand = false.
Proof.
  unfold _sanitize_operand, sanitizable_operand.
  destruct operand as [| | | | | |d]; try (split; reflexivity).
  cbv zeta.
  destruct (eq_str (dict_get_default "type" (PStr "indicator") d) "value"); cbn [orb].
  - split; [|discriminate]. intros H.
    apply rbind_ok in H. destruct H as (x & _ & H). discriminate.
  - destruct (eq_str (dict_get_default "type" (PStr "indicator") d) "indicator");
      [|split; reflexivity].
    split; [|discriminate]. intros H.
    repeat (apply rbind_ok in H; destruct H as (? & _ & H)). discriminate.
Qed.

(** X8: [_sanitize_operand] answers [None], so that the condition is
    dropped, exactly for an operand that is not an object or whose [type]
    (["indicator"] when absent) is neither ["value"] nor ["indicator"]; on
    every other operand it raises or returns a sanitized operand. *)
Theorem sanitize_operand_dropped operand side :
  (_sanitize_operand operand side = Ok PNone <-> sanitizable_operand operand = false) /\
  (forall v, sanitizable_operand operand = true ->
             _sanitize_operand operand side = Ok v -> sanitized_operand side v).
Proof.
  split; [apply sanitize_operand_dropped_iff|].
  intros v Hkind Hrun.
  destruct (sanitize_operand_shape _ _ _ Hrun) as [-> | Hshape]; [|exact Hshape].
  apply sanitize_operand_dropped_iff in Hrun. congruence.
Qed.

Lemma sanitize_value_operand_run d side :
  dict_get "type" d = Some (PStr "value") ->
  exists v,
    _sanitize_operand (PDict d) side = Ok (PDict [("type", PStr "value"); ("value", v)]) /\
    is_number v = true /\
    (forall x, dict_get "value" d = Some x -> is_number x = true -> v = x).
Proof.
  intros Ht. unfold _sanitize_operand, dict_get_default. rewrite Ht.
  cbn [eq_str String.eqb Ascii.eqb Bool.eqb].
  destruct (dict_get "value" d) as [x|].
  - destruct (is_number x) eqn:Hn; cbn [negb].
    + exists x. split; [reflexivity|]. split; [exact Hn|]. intros y Hy _. congruence.
    + destruct x; try discriminate; cbn [py_float];
        try (eexists; split; [reflexivity|]; split; [reflexivity|];
             intros y Hy Hy'; inversion Hy; subst; discriminate).
      destruct (float_of_str s);
        (eexists; split; [reflexivity|]; split; [reflexivity|];
         intros y Hy Hy'; inversion Hy; subst; discriminate).
  - exists (PInt 0). split; [reflexivity|]. split; [reflexivity|]. discriminate.
Qed.

(** X9: on an operand of type ["value"] the sanitizer never raises, whatever
    the side and whatever [value] holds: it returns
    [{"type": "value", "value": v}] where [v] is the operand's [value] when
    that is a number, the float [float(value)] when the conversion returns,
    and 0 when it fails or when there is no [value]; [v] is a number in
    every case. *)
Theorem sanitize_value_operand d side :
  dict_get "type" d = Some (PStr "value") ->
  let value := dict_get_default "value" (PInt 0) d in
  let kept := if is_number value then value
              else match py_float value with
                   | Ok f => PFloat f
                   | Raise _ => PInt 0
                   end in
  _sanitize_operand (PDict d) side
  = Ok (PDict [("type", PStr "value"); ("value", kept)]) /\
  is_number kept = true.
Proof.
  intros Ht value kept. subst kept value.
  unfold _sanitize_operand. unfold dict_get_default at 1. rewrite Ht.
  cbn [eq_str String.eqb Ascii.eqb Bool.eqb].
  destruct (is_number (dict_get_default "value" (PInt 0) d)) eqn:Hn; cbn [negb].
  - split; [reflexivity | exact Hn].
  - destruct (dict_get_default "value" (PInt 0) d) as [| | | |s| |];
      try discriminate; cbn [py_float]; try (split; reflexivity).
    destruct (float_of_str s); split; reflexivity.
Qed.

Lemma operand_verdict_sanitizable operand side reason :
  operand_verdict operand side = Ok (true, reason) -> sanitizable_operand operand = true.
Proof.
  unfold operand_verdict, validate_operand, sanitizable_operand, dict_get_default.
  destruct operand as [| | | | | |d]; try (intros H; cbv in H; discriminate).
  rewrite !dict_has_get. run_monad.
  destruct (dict_get "type" d) as [t|]; cbn [negb]; [|discriminate].
  destruct (eq_str t "value"); [reflexivity|].
  destruct (eq_str t "indicator"); [reflexivity | discriminate].
Qed.

Lemma condition_verdict_operands condition index reason :
  condition_verdict condition index = Ok (true, reason) ->
  exists c lhs rhs,
    condition = PDict c /\
    dict_get "lhs" c = Some lhs /\ dict_get "rhs" c = Some rhs /\
    sanitizable_operand lhs = true /\ sanitizable_operand rhs = true.
Proof.
  unfold condition_verdict.
  destruct condition as [| | | | | |c]; try (intros H; cbv in H; discriminate).
  unfold validate_condition. rewrite !dict_has_get.
  destruct (dict_get "lhs" c) as [lhs|] eqn:Hlhs; cbn [negb]; [|discriminate].
  destruct (dict_get "operator" c) as [op|] eqn:Hop; cbn [negb]; [|discriminate].
  destruct (dict_get "rhs" c) as [rhs|] eqn:Hrhs; cbn [negb]; [|discriminate].
  run_monad. rewrite Hop, Hlhs, Hrhs.
  destruct (in_strs op VALID_OPERATORS); cbn [negb]; [|discriminate].
  destruct (eq_str op "≈ (approx)" && _); cbn [fst snd errors warnings];
    rewrite validate_operand_run;
    (destruct (operand_verdict lhs "lhs") as [[[] le]|] eqn:Hl; cbn [negb fst];
     try discriminate);
    rewrite validate_operand_run;
    (destruct (operand_verdict rhs "rhs") as [[[] re]|] eqn:Hr; cbn [negb fst];
     try discriminate);
    intros _; exists c, lhs, rhs;
    (split; [reflexivity|]); (split; [exact Hlhs|]); (split; [exact Hrhs|]);
    (split; eapply operand_verdict_sanitizable; eassumption).
Qed.

Lemma sanitize_condition_kept c lhs rhs v :
  dict_get "lhs" c = Some lhs -> dict_get "rhs" c = Some rhs ->
  sanitizable_operand lhs = true -> sanitizable_operand rhs = true ->
  _sanitize_condition c = Ok v -> sanitized_condition v.
Proof.
  intros Hlhs Hrhs Hl Hr Hrun.
  destruct (sanitize_condition_shape _ _ Hrun) as [-> | Hshape]; [|exact Hshape].
  exfalso. revert Hrun.
  unfold _sanitize_condition, subscript. rewrite !dict_has_get, Hlhs, Hrhs.
  cbn [negb orb rbind].
  destruct (_sanitize_operand lhs "lhs") as [lv|] eqn:Hlv; [|discriminate].
  destruct (_sanitize_operand rhs "rhs") as [rv|] eqn:Hrv; [|discriminate].
  cbn [rbind dict_get String.eqb Ascii.eqb Bool.eqb].
  assert (Hln : is_none lv = false).
  { destruct lv; try reflexivity.
    apply sanitize_operand_dropped_iff in Hlv. congruence. }
  assert (Hrn : is_none rv = false).
  { destruct rv; try reflexivity.
    apply sanitize_operand_dropped_iff in Hrv. congruence. }
  rewrite Hln, Hrn. cbn [orb].
  intros H. repeat (apply rbind_ok in H; destruct H as (? & _ & H)).
  destruct (eq_str _ _) in H; discriminate.
Qed.

Lemma sanitize_conditions_all_kept conditions : forall acc kept,
  (forall c, In c conditions -> exists r i, condition_verdict c i = Ok (true, r)) ->
  sanitize_conditions conditions acc = Ok kept ->
  List.length kept = (List.length acc + List.length conditions)%nat.
Proof.
  induction conditions as [|c rest IH]; intros acc kept Hvalid H; simpl in H.
  - inversion H; subst. simpl. lia.
  - destruct (Hvalid c (or_introl eq_refl)) as (r & i & Hv).
    apply condition_verdict_operands in Hv.
    destruct Hv as (d & lhs & rhs & -> & Hlhs & Hrhs & Hl & Hr).
    destruct (_sanitize_condition d) as [sc|] eqn:Hsc; [|discriminate].
    cbn [rbind] in H.
    pose proof (sanitize_condition_kept _ _ _ _ Hlhs Hrhs Hl Hr Hsc) as Hkept.
    rewrite (sanitized_condition_truthy _ Hkept) in H.
    apply IH in H.
    + rewrite H, length_app. simpl. lia.
    + intros c' Hc'. apply Hvalid. now right.
Qed.

Lemma validate_sanitized_strategy name description kept self :
  str_strip name = name -> name <> "" -> kept <> [] ->
  Forall sanitized_condition kept ->
  validate_strategy
    (PDict [("name", PStr name); ("description", description);
            ("conditions", PList kept)]) self
  = (Ok (true, [], []), mkValidator [] []).
Proof.
  intros Hname Hn Hc Hkept.
  assert (Hne : String.eqb name "" = false) by now apply String.eqb_neq.
  destruct kept as [|c rest]; [congruence|].
  unfold validate_strategy.
  cbn [dict_has dict_get String.eqb Ascii.eqb Bool.eqb negb].
  run_monad. unfold set_errors, set_warnings, get_errors, get_warnings.
  cbn [dict_has dict_get String.eqb Ascii.eqb Bool.eqb negb is_str method_strip
       errors warnings List.length Nat.eqb].
  rewrite Hname. cbn [truthy]. rewrite Hne. cbn [negb].
  rewrite (validate_sanitized_conditions (c :: rest) 0 _ Hkept). reflexivity.
Qed.

Lemma sanitize_valid_strategy_run strategy self errs warns after v :
  validate_strategy strategy self = (Ok (true, errs, warns), after) ->
  sanitize_strategy strategy = Ok v ->
  exists fields name kept,
    strategy = PDict fields /\
    dict_get "name" fields = Some (PStr name) /\
    v = PDict [("name", PStr (str_strip name));
               ("description", dict_get_default "description" (PStr "") fields);
               ("conditions", PList kept)] /\
    List.length kept = List.length (strategy_conditions fields) /\
    forall self', validate_strategy v self' = (Ok (true, [], []), mkValidator [] []).
Proof.
  intros Hvalid Hrun.
  destruct (valid_strategy_inv _ _ _ _ _ Hvalid)
    as (_ & fields & name & conds & -> & Hname & Hstrip & Hconds & Hne & Hpass).
  unfold sanitize_strategy in Hrun.
  fold (strategy_conditions fields) in Hrun.
  assert (Hsc : strategy_conditions fields = conds).
  { unfold strategy_conditions, dict_get_default. now rewrite Hconds. }
  unfold dict_get_default at 1 in Hrun. rewrite Hname in Hrun.
  cbn [method_strip rbind] in Hrun.
  destruct (sanitize_conditions (strategy_conditions fields) []) as [kept|] eqn:Hkept;
    [|discriminate].
  cbn [rbind] in Hrun. inversion Hrun; subst v. clear Hrun.
  assert (Hlen : List.length kept = List.length (strategy_conditions fields)).
  { apply (sanitize_conditions_all_kept _ [] kept); [|exact Hkept].
    rewrite Hsc. intros c Hc. apply In_nth_error in Hc. destruct Hc as (i & Hi).
    exists "", (Z.of_nat i). now apply Hpass. }
  exists fields, name, kept.
  split; [reflexivity|]. split; [exact Hname|]. split; [reflexivity|].
  split; [exact Hlen|].
  intros self'. apply validate_sanitized_strategy.
  - apply str_strip_idem.
  - exact Hstrip.
  - intros ->. rewrite Hsc in Hlen. destruct conds; [congruence | discriminate].
  - eapply sanitize_conditions_shape; [exact Hkept | constructor].
Qed.

(** X10: when [sanitize_strategy] returns on a strategy that
    [validate_strategy] reports as valid, it has dropped no condition: the
    result holds the stripped name, the description as it was, and as many
    conditions as the input; and the result validates with no error and no
    warning. *)
Theorem sanitize_valid_strategy strategy self errs warns after v :
  validate_strategy strategy self = (Ok (true, errs, warns), after) ->
  sanitize_strategy strategy = Ok v ->
  exists fields name kept,
    strategy = PDict fields /\
    dict_get "name" fields = Some (PStr name) /\
    v = PDict [("name", PStr (str_strip name));
               ("description", dict_get_default "description" (PStr "") fields);
               ("conditions", PList kept)] /\
    List.length kept = List.length (strategy_conditions fields) /\
    forall self', validate_strategy v self' = (Ok (true, [], []), mkValidator [] []).
Proof. apply sanitize_valid_strategy_run. Qed.

Lemma suggest_fixes_from_step errors : forall suggestions,
  exists added,
    suggest_fixes_from errors suggestions = suggestions ++ added /\
    suggest_fixes_from errors [] = added /\
    (List.length added <= List.length errors)%nat /\
    incl added SUGGESTIONS.
Proof.
  induction errors as [|error rest IH]; intros suggestions.
  - exists []. rewrite app_nil_r. repeat split; auto. intros x [].
  - cbn [suggest_fixes_from].
    assert (Hone : forall s, In s SUGGESTIONS ->
              exists added,
                suggest_fixes_from rest (suggestions ++ [s]) = suggestions ++ added /\
                suggest_fixes_from rest ([] ++ [s]) = added /\
                (List.length added <= List.length (error :: rest))%nat /\
                incl added SUGGESTIONS).
    { intros s Hs.
      destruct (IH (suggestions ++ [s])) as (a1 & H1 & H2 & H3 & H4).
      destruct (IH ([] ++ [s])) as (a2 & H1' & H2' & _).
      assert (Ha : a2 = a1) by congruence.
      exists (s :: a1). rewrite H1, H1', Ha, <- app_assoc.
      split; [reflexivity|]. split; [reflexivity|]. split; [simpl; lia|].
      intros x [<- | Hx]; [exact Hs | now apply H4]. }
    assert (Hnone : exists added,
                suggest_fixes_from rest suggestions = suggestions ++ added /\
                suggest_fixes_from rest [] = added /\
                (List.length added <= List.length (error :: rest))%nat /\
                incl added SUGGESTIONS).
    { destruct (IH suggestions) as (a1 & H1 & H2 & H3 & H4).
      exists a1. repeat split; auto. simpl. lia. }
    repeat match goal with
           | |- context [if ?b then _ else _] => destruct b
           end;
      try exact Hnone; apply Hone; unfold SUGGESTIONS; simpl; tauto.
Qed.

Lemma suggest_fixes_app errors1 errors2 :
  suggest_fixes (errors1 ++ errors2) = suggest_fixes errors1 ++ suggest_fixes errors2.
Proof.
  unfold suggest_fixes.
  assert (H : forall suggestions,
             suggest_fixes_from (errors1 ++ errors2) suggestions
             = suggest_fixes_from errors2 (suggest_fixes_from errors1 suggestions)).
  { induction errors1 as [|e rest IH]; intros suggestions; [reflexivity|].
    cbn [app suggest_fixes_from]. apply IH. }
  rewrite H.
  destruct (suggest_fixes_from_step errors2 (suggest_fixes_from errors1 []))
    as (added & -> & -> & _). reflexivity.
Qed.

Lemma suggest_fixes_one error : suggest_fixes [error] = first_suggestion error.
Proof.
  unfold suggest_fixes, first_suggestion, SUGGESTION_RULES.
  cbn [suggest_fixes_from find fst snd app].
  repeat match goal with
         | |- context [is_substring ?p error] => destruct (is_substring p error)
         end;
    reflexivity.
Qed.

Lemma suggest_fixes_flat_map errors :
  suggest_fixes errors = flat_map first_suggestion errors.
Proof.
  induction errors as [|error rest IH]; [reflexivity|].
  change (error :: rest) with ([error] ++ rest).
  rewrite suggest_fixes_app, suggest_fixes_one, IH. reflexivity.
Qed.

(** X11: [suggest_fixes] treats the errors one by one and in order, and
    makes for each error the suggestion of the first of its six patterns,
    taken in the order of the [if]/[elif] chain, that occurs in the error,
    and none when no pattern occurs.  So the suggestions for a list of
    errors are those for its first part followed by those for the rest,
    there is at most one per error, and each is one of the six fixed
    texts. *)
Theorem suggest_fixes_per_error errors1 errors2 :
  suggest_fixes errors1 = flat_map first_suggestion errors1 /\
  suggest_fixes (errors1 ++ errors2) = suggest_fixes errors1 ++ suggest_fixes errors2 /\
  (List.length (suggest_fixes errors1) <= List.length errors1)%nat /\
  incl (suggest_fixes errors1) SUGGESTIONS.
Proof.
  split; [apply suggest_fixes_flat_map|].
  split; [apply suggest_fixes_app|].
  destruct (suggest_fixes_from_step errors1 []) as (added & _ & H & Hlen & Hincl).
  unfold suggest_fixes. rewrite H. split; assumption.
Qed.

(** X12: for a strategy whose [conditions] field is absent, not a list or an
    empty list, the suggestions made for the errors of [validate_strategy]
    are one for an absent name and one for absent conditions: a name that is
    present but blank or not a string, and conditions that are present but
    empty or not a list, are reported as errors and get no suggestion. *)
Theorem suggest_fixes_for_bad_fields strategy self msg :
  conditions_field_error strategy = Some msg ->
  exists errs warns after,
    validate_strategy (PDict strategy) self = (Ok (false, errs, warns), after) /\
    suggest_fixes errs =
    (if dict_has "name" strategy then []
     else ["Add a 'name' field with a descriptive strategy name"]) ++
    (if dict_has "conditions" strategy then []
     else ["Add a 'conditions' array with at least one condition"]).
Proof.
  intros Hfield. eexists _, _, _.
  split; [apply validate_strategy_bad_field_run; exact Hfield|].
  rewrite suggest_fixes_app. f_equal.
  - unfold name_errors. rewrite dict_has_get.
    destruct (dict_get "name" strategy) as [[| | | |s| |]|]; try reflexivity.
    destruct (String.eqb (str_strip s) ""); reflexivity.
  - unfold conditions_field_error in Hfield. rewrite dict_has_get.
    destruct (dict_get "conditions" strategy) as [[| | | | |[|c0 rest]|]|];
      inversion Hfield; reflexivity.
Qed.

Lemma validate_sanitized_output name description kept self :
  str_strip name = name -> Forall sanitized_condition kept ->
  validate_strategy
    (PDict [("name", PStr name); ("description", description);
            ("conditions", PList kept)]) self
  = (Ok ((List.length (sanitized_errors name kept) =? 0)%nat,
         sanitized_errors name kept, []),
     mkValidator (sanitized_errors name kept) []).
Proof.
  intros Hname Hkept.
  unfold validate_strategy, sanitized_errors.
  cbn [dict_has dict_get String.eqb Ascii.eqb Bool.eqb negb].
  run_monad. unfold set_errors, set_warnings, get_errors, get_warnings.
  cbn [dict_has dict_get String.eqb Ascii.eqb Bool.eqb negb is_str method_strip
       errors warnings].
  rewrite Hname. cbn [truthy].
  destruct (String.eqb name ""); cbn [negb errors warnings app];
    (destruct kept as [|c rest]; cbn [List.length Nat.eqb errors warnings app];
     [reflexivity|]);
    rewrite (validate_sanitized_conditions (c :: rest) 0 _ Hkept); reflexivity.
Qed.

(** X13: the verdict of [validate_strategy] on whatever [sanitize_strategy]
    returned: never a warning, and no error other than the one for an empty
    name and the one for an empty conditions list, so that the sanitized
    strategy is valid exactly when its name is not empty and at least one
    condition was kept. *)
Theorem sanitized_strategy_verdict strategy sanitized self :
  sanitize_strategy strategy = Ok sanitized ->
  exists name description kept,
    sanitized = PDict [("name", PStr name); ("description", description);
                       ("conditions", PList kept)] /\
    validate_strategy sanitized self
    = (Ok ((List.length (sanitized_errors name kept) =? 0)%nat,
           sanitized_errors name kept, []),
       mkValidator (sanitized_errors name kept) []) /\
    (sanitized_errors name kept = [] <-> name <> "" /\ kept <> []).
Proof.
  intros H. apply sanitize_strategy_shape in H.
  destruct H as (name & description & kept & -> & Hname & Hkept).
  exists name, description, kept. split; [reflexivity|].
  split; [now apply validate_sanitized_output|].
  unfold sanitized_errors.
  destruct (String.eqb name "") eqn:E;
    [apply String.eqb_eq in E | apply String.eqb_neq in E];
    destruct kept; cbn [app]; split;
    try discriminate; try reflexivity; try tauto;
    try (intros [H1 H2]; congruence).
  intros _. split; [exact E | discriminate].
Qed.

Lemma condition_verdict_index condition i j :
  condition_verdict condition i = condition_verdict condition j.
Proof.
  unfold condition_verdict.
  destruct condition as [| | | | | |c]; try reflexivity.
  unfold validate_condition. rewrite !dict_has_get.
  destruct (dict_get "lhs" c) as [lhs|] eqn:Hlhs; cbn [negb]; [|reflexivity].
  destruct (dict_get "operator" c) as [op|] eqn:Hop; cbn [negb]; [|reflexivity].
  destruct (dict_get "rhs" c) as [rhs|] eqn:Hrhs; cbn [negb]; [|reflexivity].
  run_monad. rewrite Hop, Hlhs, Hrhs.
  destruct (in_strs op VALID_OPERATORS); cbn [negb]; [|reflexivity].
  destruct (eq_str op "≈ (approx)" && _); cbn [fst snd errors warnings];
    rewrite !(validate_operand_run lhs);
    (destruct (operand_verdict lhs "lhs") as [[[] le]|]; cbn [negb fst];
     try reflexivity);
    rewrite !(validate_operand_run rhs);
    (destruct (operand_verdict rhs "rhs") as [[[] re]|]; reflexivity).
Qed.

(** X24: the index given to [validate_condition] is only used to number the
    warning for a missing tolerance.  The verdict on a condition, valid or
    not and for which reason, is the same at every index and whatever the
    validator holds; the errors are left alone; and the warnings appended are
    [tolerance_warning], the one warning that carries the index, followed by
    warnings that do not depend on the index. *)
Theorem condition_verdict_any_index condition :
  exists rest, forall i j self,
    validate_condition condition i self
    = (condition_verdict condition j,
       mkValidator (errors self)
         (warnings self ++ tolerance_warning condition i ++ rest)).
Proof.
  assert (Hnil : forall (v : result (bool * string)) self,
             (v, self) = (v, mkValidator (errors self) (warnings self ++ [] ++ []))).
  { intros v [e w]. cbn [errors warnings app]. now rewrite app_nil_r. }
  destruct condition as [| | | | | |c];
    try (exists []; intros i j self; apply Hnil).
  unfold condition_verdict, tolerance_warning, validate_condition, dict_get_default.
  rewrite !dict_has_get.
  destruct (dict_get "lhs" c) as [lhs|] eqn:Hlhs; cbn [negb andb];
    [|exists []; intros i j self; apply Hnil].
  destruct (dict_get "operator" c) as [op|] eqn:Hop; cbn [negb andb].
  2:{ exists []. intros i j self.
      destruct (dict_get "rhs" c); cbn [negb andb eq_str]; apply Hnil. }
  destruct (dict_get "rhs" c) as [rhs|] eqn:Hrhs; cbn [negb andb];
    [|exists []; intros i j self; apply Hnil].
  run_monad. rewrite Hop, Hlhs, Hrhs.
  destruct (in_strs op VALID_OPERATORS) eqn:Hin; cbn [negb].
  2:{ exists []. intros i j self.
      destruct (eq_str op "≈ (approx)") eqn:Heq; cbn [andb]; [|apply Hnil].
      apply eq_str_true in Heq. subst op. discriminate Hin. }
  destruct (operand_verdict lhs "lhs") as [[[] le]|el] eqn:Hl.
  - destruct (operand_verdict rhs "rhs") as [[rvalid re]|er] eqn:Hr.
    + exists (operand_warnings lhs "lhs" ++ operand_warnings rhs "rhs").
      intros i j self.
      destruct (eq_str op "≈ (approx)" && _); cbn [fst snd errors warnings];
        rewrite !(validate_operand_run lhs), Hl; cbn [negb fst snd errors warnings];
        rewrite !(validate_operand_run rhs), Hr; cbn [negb fst snd errors warnings];
        destruct rvalid; cbn [negb app]; now rewrite <- ?app_assoc.
    + exists (operand_warnings lhs "lhs" ++ operand_warnings rhs "rhs").
      intros i j self.
      destruct (eq_str op "≈ (approx)" && _); cbn [fst snd errors warnings];
        rewrite !(validate_operand_run lhs), Hl; cbn [negb fst snd errors warnings];
        rewrite !(validate_operand_run rhs), Hr; cbn [negb fst snd errors warnings app];
        now rewrite <- ?app_assoc.
  - exists (operand_warnings lhs "lhs"). intros i j self.
    destruct (eq_str op "≈ (approx)" && _); cbn [fst snd errors warnings];
      rewrite !(validate_operand_run lhs), Hl; cbn [negb fst snd errors warnings app];
      now rewrite <- ?app_assoc.
  - exists (operand_warnings lhs "lhs"). intros i j self.
    destruct (eq_str op "≈ (approx)" && _); cbn [fst snd errors warnings];
      rewrite !(validate_operand_run lhs), Hl; cbn [negb fst snd errors warnings app];
      now rewrite <- ?app_assoc.
Qed.

Lemma sanitize_condition_dropped_iff c :
  _sanitize_condition c = Ok PNone <->
  (dict_has "lhs" c = false \/ dict_has "rhs" c = false) \/
  exists lhs rhs lv rv,
    dict_get "lhs" c = Some lhs /\ dict_get "rhs" c = Some rhs /\
    _sanitize_operand lhs "lhs" = Ok lv /\ _sanitize_operand rhs "rhs" = Ok rv /\
    (sanitizable_operand lhs = false \/ sanitizable_operand rhs = false).
Proof.
  unfold _sanitize_condition, subscript. rewrite !dict_has_get.
  destruct (dict_get "lhs" c) as [lhs|] eqn:Hlhs; cbn [negb orb];
    [|split; [intros _; left; now left | reflexivity]].
  destruct (dict_get "rhs" c) as [rhs|] eqn:Hrhs; cbn [negb orb];
    [|split; [intros _; left; now right | reflexivity]].
  cbn [rbind].
  destruct (_sanitize_operand lhs "lhs") as [lv|e] eqn:Hlv; cbn [rbind].
  2:{ split; [discriminate|].
      intros [[H | H] | (l & r & lv & rv & Hl & _ & H & _)]; try discriminate.
      inversion Hl; subst. rewrite Hlv in H. discriminate. }
  destruct (_sanitize_operand rhs "rhs") as [rv|e] eqn:Hrv; cbn [rbind].
  2:{ split; [discriminate|].
      intros [[H | H] | (l & r & lv' & rv & _ & Hr & _ & H & _)]; try discriminate.
      inversion Hr; subst. rewrite Hrv in H. discriminate. }
  cbn [rbind dict_get String.eqb Ascii.eqb Bool.eqb].
  assert (Hl : is_none lv = negb (sanitizable_operand lhs)).
  { destruct (sanitizable_operand lhs) eqn:E; cbn [negb].
    - destruct lv; try reflexivity.
      apply sanitize_operand_dropped_iff in Hlv. congruence.
    - apply (proj2 (sanitize_operand_dropped_iff lhs "lhs")) in E.
      rewrite Hlv in E. inversion E. reflexivity. }
  assert (Hr : is_none rv = negb (sanitizable_operand rhs)).
  { destruct (sanitizable_operand rhs) eqn:E; cbn [negb].
    - destruct rv; try reflexivity.
      apply sanitize_operand_dropped_iff in Hrv. congruence.
    - apply (proj2 (sanitize_operand_dropped_iff rhs "rhs")) in E.
      rewrite Hrv in E. inversion E. reflexivity. }
  rewrite Hl, Hr.
  destruct (sanitizable_operand lhs) eqn:El, (sanitizable_operand rhs) eqn:Er;
    cbn [negb orb];
    try (split; [intros _; right; exists lhs, rhs, lv, rv; repeat split; auto
                | reflexivity]).
  split.
  - intros H. repeat (apply rbind_ok in H; destruct H as (? & _ & H)).
    destruct (eq_str _ _) in H; discriminate.
  - intros [[H | H] | (l & r & lv' & rv' & Hl' & Hr' & _ & _ & [H | H])];
      try discriminate; inversion Hl'; inversion Hr'; subst; congruence.
Qed.

(** X25: [_sanitize_condition] answers [None], so that [sanitize_strategy]
    leaves the condition out, exactly when the condition lacks [lhs] or
    [rhs], or when both operands are sanitized without raising and one of
    them is dropped.  It raises exactly when it has both keys and either the
    LHS operand raises, or the LHS operand is sanitized (dropped or not) and
    the RHS operand raises: so when one operand is dropped and the other
    raises, the call raises. *)
Theorem sanitize_condition_dropped c :
  (_sanitize_condition c = Ok PNone <->
   (dict_has "lhs" c = false \/ dict_has "rhs" c = false) \/
   exists lhs rhs lv rv,
     dict_get "lhs" c = Some lhs /\ dict_get "rhs" c = Some rhs /\
     _sanitize_operand lhs "lhs" = Ok lv /\ _sanitize_operand rhs "rhs" = Ok rv /\
     (sanitizable_operand lhs = false \/ sanitizable_operand rhs = false)) /\
  (forall e,
     _sanitize_condition c = Raise e <->
     exists lhs rhs,
       dict_get "lhs" c = Some lhs /\ dict_get "rhs" c = Some rhs /\
       (_sanitize_operand lhs "lhs" = Raise e \/
        (exists lv, _sanitize_operand lhs "lhs" = Ok lv) /\
        _sanitize_operand rhs "rhs" = Raise e)) /\
  (forall lhs rhs e,
     dict_get "lhs" c = Some lhs -> dict_get "rhs" c = Some rhs ->
     (sanitizable_operand lhs = false /\ _sanitize_operand rhs "rhs" = Raise e) \/
     (sanitizable_operand rhs = false /\ _sanitize_operand lhs "lhs" = Raise e) ->
     _sanitize_condition c = Raise e).
Proof.
  assert (Hraise : forall e,
     _sanitize_condition c = Raise e <->
     exists lhs rhs,
       dict_get "lhs" c = Some lhs /\ dict_get "rhs" c = Some rhs /\
       (_sanitize_operand lhs "lhs" = Raise e \/
        (exists lv, _sanitize_operand lhs "lhs" = Ok lv) /\
        _sanitize_operand rhs "rhs" = Raise e)).
  { intros e. unfold _sanitize_condition, subscript. rewrite !dict_has_get.
    destruct (dict_get "lhs" c) as [lhs|] eqn:Hlhs; cbn [negb orb];
      [|split; [discriminate | intros (l & r & H & _); discriminate]].
    destruct (dict_get "rhs" c) as [rhs|] eqn:Hrhs; cbn [negb orb];
      [|split; [discriminate | intros (l & r & _ & H & _); discriminate]].
    cbn [rbind].
    destruct (_sanitize_operand lhs "lhs") as [lv|el] eqn:Hlv; cbn [rbind].
    2:{ split.
        - intros H. inversion H; subst. exists lhs, rhs. now repeat split; try left.
        - intros (l & r & Hl & Hr & [H | [(lv & H) _]]);
            inversion Hl; subst; rewrite Hlv in H; inversion H; reflexivity. }
    destruct (_sanitize_operand rhs "rhs") as [rv|er] eqn:Hrv; cbn [rbind].
    2:{ split.
        - intros H. inversion H; subst. exists lhs, rhs.
          split; [reflexivity|]. split; [reflexivity|]. right. split; [now exists lv | assumption].
        - intros (l & r & Hl & Hr & [H | [_ H]]).
          + inversion Hl; subst. rewrite Hlv in H. discriminate.
          + inversion Hr; subst. rewrite Hrv in H. inversion H. reflexivity. }
    cbn [rbind dict_get String.eqb Ascii.eqb Bool.eqb].
    split.
    - intros H. exfalso. revert H.
      destruct (is_none lv || is_none rv); [discriminate|].
      cbn [rbind].
      destruct (negb (in_strs _ VALID_OPERATORS));
        cbn [dict_set dict_get String.eqb Ascii.eqb Bool.eqb rbind];
        match goal with |- context [eq_str ?o ?s] => destruct (eq_str o s) end;
        discriminate.
    - intros (l & r & Hl & Hr & [H | [_ H]]).
      + inversion Hl; subst. rewrite Hlv in H. discriminate.
      + inversion Hr; subst. rewrite Hrv in H. discriminate. }
  split; [apply sanitize_condition_dropped_iff|]. split; [exact Hraise|].
  intros lhs rhs e Hlhs Hrhs [[Hdrop Hr] | [Hdrop Hl]].
  - apply (proj2 (sanitize_operand_dropped_iff lhs "lhs")) in Hdrop.
    apply Hraise. exists lhs, rhs.
    split; [exact Hlhs|]. split; [exact Hrhs|]. right.
    split; [now exists PNone | exact Hr].
  - apply Hraise. exists lhs, rhs.
    split; [exact Hlhs|]. split; [exact Hrhs|]. now left.
Qed.

Lemma rhs_fields_keep (side : string) (operand base sanitized : dict) k :
  k <> "multiplier" -> k <> "add_offset" ->
  (sanitized <-
     (if String.eqb side "rhs" then
        sanitized <-
          (if dict_has "multiplier" operand then
             m <- py_float (dict_get_default "multiplier" (PFloat float_1_0) operand) ;;
             Ok (dict_set "multiplier" (PFloat m) base)
           else Ok base) ;;
        if dict_has "add_offset" operand then
          a <- py_float (dict_get_default "add_offset" (PFloat float_0_0) operand) ;;
          Ok (dict_set "add_offset" (PFloat a) sanitized)
        else Ok sanitized
      else Ok base) ;;
   Ok (PDict sanitized))%result = Ok (PDict sanitized) ->
  dict_get k sanitized = dict_get k base.
Proof.
  intros Hm Ha H.
  destruct (String.eqb side "rhs");
    [|cbn [rbind] in H; inversion H; reflexivity].
  destruct (dict_has "multiplier" operand);
    [destruct (py_float (dict_get_default "multiplier" _ _)) as [m|]; [|discriminate]|];
    (destruct (dict_has "add_offset" operand);
     [destruct (py_float (dict_get_default "add_offset" _ _)) as [a|]; [|discriminate]|]);
    cbn [rbind] in H; inversion H;
    rewrite ?dict_get_set_other by assumption; reflexivity.
Qed.

Lemma sanitize_valid_indicator_run indicator side self reason after v :
  validate_indicator indicator side self = (Ok (true, reason), after) ->
  dict_get_default "type" (PStr "indicator") indicator = PStr "indicator" ->
  _sanitize_operand (PDict indicator) side = Ok v ->
  exists name cfg d,
    dict_get "name" indicator = Some (PStr name) /\
    indicator_config (str_lower name) = Some cfg /\
    v = PDict d /\
    dict_get "name" d = Some (PStr (str_lower name)) /\
    dict_get "timeframe" d
    = Some (dict_get_default "timeframe" (PStr "daily") indicator) /\
    dict_get "offset" d
    = Some (PInt (int_value (dict_get_default "offset" (PInt 0) indicator))) /\
    dict_get "params" d
    = Some (match cfg with
            | NoPeriod => PDict []
            | Period default =>
                PDict [("period",
                        match dict_get "params" indicator with
                        | Some (PDict ps) => dict_get_default "period" (PInt default) ps
                        | _ => PInt default
                        end)]
            end).
Proof.
  intros Hvalid Htype Hsan.
  destruct (validate_indicator_accepts _ _ _ _ _ Hvalid)
    as (_ & name & cfg & Hname & Hcfg & Htf & Hoff & Hperiod).
  exists name, cfg.
  unfold _sanitize_operand in Hsan. rewrite Htype in Hsan.
  cbn [eq_str String.eqb Ascii.eqb Bool.eqb] in Hsan.
  assert (Hn : dict_get_default "name" (PStr "close") indicator = PStr name)
    by (unfold dict_get_default; now rewrite Hname).
  rewrite Hn in Hsan. cbn [py_str] in Hsan.
  rewrite (config_is_indicator _ _ Hcfg) in Hsan. cbn [negb] in Hsan.
  set (off0 := dict_get_default "offset" (PInt 0) indicator) in *.
  assert (Hoffset : py_int off0 = Ok (int_value off0) /\ 0 <= int_value off0).
  { subst off0. unfold dict_get_default.
    destruct (dict_get "offset" indicator) as [off|]; [|split; [reflexivity | simpl; lia]].
    destruct (Hoff off eq_refl) as (Hint & Hpos).
    destruct off; try discriminate; split; auto. }
  destruct Hoffset as (Hint & Hpos).
  rewrite Hint in Hsan. cbn [rbind] in Hsan.
  rewrite Z.max_r in Hsan by exact Hpos.
  set (tf0 := dict_get_default "timeframe" (PStr "daily") indicator) in *.
  assert (Htf0 : in_strs tf0 VALID_TIMEFRAMES = true).
  { subst tf0. unfold dict_get_default.
    destruct (dict_get "timeframe" indicator) as [tf|]; [now apply Htf | reflexivity]. }
  cbn [subscript dict_get String.eqb Ascii.eqb Bool.eqb rbind] in Hsan.
  rewrite Htf0 in Hsan. cbn [negb] in Hsan.
  unfold indicator_item in Hsan. rewrite Hcfg in Hsan. cbn [rbind] in Hsan.
  apply rbind_ok in Hsan. destruct Hsan as (base & Hparams & Hrest).
  pose proof Hrest as Hfinal. apply rbind_ok in Hfinal.
  destruct Hfinal as (d & _ & Hfinal). inversion Hfinal; subst v. clear Hfinal.
  exists d. split; [exact Hname|]. split; [exact Hcfg|]. split; [reflexivity|].
  assert (Hkept : forall k, k <> "multiplier" -> k <> "add_offset" ->
                            dict_get k d = dict_get k base)
    by (intros k Hm Ha; exact (rhs_fields_keep side indicator base d k Hm Ha Hrest)).
  rewrite !Hkept by discriminate.
  clear Hrest Hkept d.
  destruct cfg as [|default].
  - inversion Hparams. repeat split.
  - unfold dict_get_default in Hparams at 1.
    destruct (dict_get "params" indicator) as [params|] eqn:Hp.
    + destruct params as [| | | | | |ps]; try discriminate.
      cbn [method_get rbind] in Hparams.
      assert (Hkeep : (if negb (is_int (dict_get_default "period" (PInt default) ps))
                          || (int_value (dict_get_default "period" (PInt default) ps) <? 1)
                       then PInt default
                       else dict_get_default "period" (PInt default) ps)
                      = dict_get_default "period" (PInt default) ps).
      { unfold dict_get_default.
        destruct (dict_get "period" ps) as [p|] eqn:Hper.
        - destruct (Hperiod default ps p eq_refl eq_refl Hper) as (Hi & Hge).
          rewrite Hi. apply Z.ltb_ge in Hge. now rewrite Hge.
        - cbn [is_int negb int_value orb].
          pose proof (default_period_positive _ _ Hcfg) as Hge.
          apply Z.ltb_ge in Hge. now rewrite Hge. }
      rewrite Hkeep in Hparams. inversion Hparams. repeat split.
    + cbn [method_get dict_get_default dict_get rbind is_int negb int_value orb]
        in Hparams.
      pose proof (default_period_positive _ _ Hcfg) as Hge.
      apply Z.ltb_ge in Hge. rewrite Hge in Hparams.
      inversion Hparams. repeat split.
Qed.

(** X26: on an indicator operand that [validate_indicator] accepts, the
    sanitizer, when it returns, keeps what was given and fills in the
    defaults: the name in lower case, the timeframe or ["daily"], the offset
    as an int or 0, and for an indicator with a period the period given or
    the default of the registry. *)
Theorem sanitize_valid_indicator indicator side self reason after v :
  validate_indicator indicator side self = (Ok (true, reason), after) ->
  dict_get_default "type" (PStr "indicator") indicator = PStr "indicator" ->
  _sanitize_operand (PDict indicator) side = Ok v ->
  exists name cfg d,
    dict_get "name" indicator = Some (PStr name) /\
    indicator_config (str_lower name) = Some cfg /\
    v = PDict d /\
    dict_get "name" d = Some (PStr (str_lower name)) /\
    dict_get "timeframe" d
    = Some (dict_get_default "timeframe" (PStr "daily") indicator) /\
    dict_get "offset" d
    = Some (PInt (int_value (dict_get_default "offset" (PInt 0) indicator))) /\
    dict_get "params" d
    = Some (match cfg with
            | NoPeriod => PDict []
            | Period default =>
                PDict [("period",
                        match dict_get "params" indicator with
                        | Some (PDict ps) => dict_get_default "period" (PInt default) ps
                        | _ => PInt default
                        end)]
            end).
Proof. apply sanitize_valid_indicator_run. Qed.



Lemma sanitize_condition_operator_run c d :
  _sanitize_condition c = Ok (PDict d) ->
  dict_get "operator" d
  = Some (if in_strs (dict_get_default "operator" (PStr ">") c) VALID_OPERATORS
          then dict_get_default "operator" (PStr ">") c else PStr ">") /\
  dict_get "tolerance" d
  = (if in_strs (dict_get_default "operator" (PStr ">") c) VALID_OPERATORS
        && eq_str (dict_get_default "operator" (PStr ">") c) "≈ (approx)"
     then Some (dict_get_default "tolerance" (PFloat float_1_0) c) else None).
Proof.
  unfold _sanitize_condition, subscript. rewrite !dict_has_get.
  destruct (dict_get "lhs" c) as [lhs|]; [|discriminate].
  destruct (dict_get "rhs" c) as [rhs|]; [|discriminate].
  cbn [negb orb rbind].
  destruct (_sanitize_operand lhs "lhs") as [lv|]; [|discriminate].
  destruct (_sanitize_operand rhs "rhs") as [rv|]; [|discriminate].
  cbn [rbind dict_get String.eqb Ascii.eqb Bool.eqb].
  destruct (is_none lv || is_none rv); [discriminate|].
  set (op0 := dict_get_default "operator" (PStr ">") c).
  destruct (in_strs op0 VALID_OPERATORS) eqn:Hop; cbn [negb andb].
  - cbn [dict_get String.eqb Ascii.eqb Bool.eqb rbind].
    destruct (eq_str op0 "≈ (approx)"); intros H; inversion H; split; reflexivity.
  - cbn. intros H. inversion H. split; reflexivity.
Qed.

(** X28: in a condition the sanitizer returns, the operator is the one
    given (or [>] when none was given) if it is one of [VALID_OPERATORS], and
    [>] otherwise; a tolerance is present exactly for the approximate
    operator, and it is the one given, taken as it is, or 1.0. *)
Theorem sanitize_condition_operator c d :
  _sanitize_condition c = Ok (PDict d) ->
  dict_get "operator" d
  = Some (if in_strs (dict_get_default "operator" (PStr ">") c) VALID_OPERATORS
          then dict_get_default "operator" (PStr ">") c else PStr ">") /\
  dict_get "tolerance" d
  = (if in_strs (dict_get_default "operator" (PStr ">") c) VALID_OPERATORS
        && eq_str (dict_get_default "operator" (PStr ">") c) "≈ (approx)"
     then Some (dict_get_default "tolerance" (PFloat float_1_0) c) else None).
Proof. apply sanitize_condition_operator_run. Qed.



Lemma sanitize_valid_indicator_returns indicator side self reason after :
  validate_indicator indicator side self = (Ok (true, reason), after) ->
  dict_get_default "type" (PStr "indicator") indicator = PStr "indicator" ->
  typed_indicator indicator = true ->
  (String.eqb side "rhs" = true -> rhs_fields_convertible (PDict indicator) = true) ->
  exists v, _sanitize_operand (PDict indicator) side = Ok v.
Proof.
  intros Hvalid Htype Htyped Hconv.
  destruct (validate_indicator_accepts _ _ _ _ _ Hvalid)
    as (_ & name & cfg & Hname & Hcfg & Htf & Hoff & Hperiod).
  unfold _sanitize_operand. rewrite Htype.
  cbn [eq_str String.eqb Ascii.eqb Bool.eqb].
  assert (Hn : dict_get_default "name" (PStr "close") indicator = PStr name)
    by (unfold dict_get_default; now rewrite Hname).
  rewrite Hn. cbn [py_str].
  rewrite (config_is_indicator _ _ Hcfg). cbn [negb].
  assert (Hint : exists z, py_int (dict_get_default "offset" (PInt 0) indicator) = Ok z).
  { unfold dict_get_default.
    destruct (dict_get "offset" indicator) as [off|]; [|now exists 0].
    destruct (Hoff off eq_refl) as (Hi & _).
    destruct off; try discriminate; eexists; reflexivity. }
  destruct Hint as (z & ->).
  cbn [rbind subscript dict_get String.eqb Ascii.eqb Bool.eqb].
  unfold indicator_item. rewrite Hcfg. cbn [rbind].
  match goal with
  | |- exists v, (sanitized <- ?m ;; _)%result = Ok v =>
      assert (Hbase : exists base, m = Ok base)
  end.
  { destruct cfg as [|default]; [eexists; reflexivity|].
    unfold typed_indicator in Htyped. apply andb_true_iff in Htyped.
    destruct Htyped as (_ & Hparams). unfold dict_get_default at 1.
    destruct (dict_get "params" indicator) as [[| | | | | |ps]|]; try discriminate;
      cbn [method_get rbind]; eexists; reflexivity. }
  destruct Hbase as (base & ->). cbn [rbind].
  destruct (String.eqb side "rhs"); [|eexists; reflexivity].
  specialize (Hconv eq_refl).
  unfold rhs_fields_convertible, convertible in Hconv.
  apply andb_true_iff in Hconv. destruct Hconv as (Hm & Ha).
  destruct (py_float (dict_get_default "multiplier" (PFloat float_1_0) indicator))
    as [m|]; [|discriminate].
  destruct (py_float (dict_get_default "add_offset" (PFloat float_0_0) indicator))
    as [a|]; [|discriminate].
  destruct (dict_has "multiplier" indicator), (dict_has "add_offset" indicator);
    eexists; reflexivity.
Qed.

Lemma sanitize_valid_operand_returns operand side reason :
  operand_verdict operand side = Ok (true, reason) ->
  typed_operand operand = true ->
  (String.eqb side "rhs" = true -> rhs_fields_convertible operand = true) ->
  exists v, _sanitize_operand operand side = Ok v.
Proof.
  unfold operand_verdict, validate_operand, typed_operand.
  destruct operand as [| | | | | |d]; try (intros H; cbv in H; discriminate).
  rewrite !dict_has_get. run_monad. unfold dict_get_default.
  destruct (dict_get "type" d) as [t|] eqn:Ht; cbn [negb]; [|discriminate].
  destruct (eq_str t "value") eqn:Hv.
  - intros _ _ _. apply eq_str_true in Hv. subst t.
    destruct (sanitize_value_operand_run d side Ht) as (v & Hrun & _). eauto.
  - destruct (eq_str t "indicator") eqn:Hi; [|discriminate].
    apply eq_str_true in Hi. subst t.
    intros Hvalid Htyped Hconv.
    destruct (validate_indicator d side (mkValidator [] []))
      as [[[valid reason']|e] after] eqn:Hrun; [|discriminate].
    cbn [fst] in Hvalid. inversion Hvalid; subst.
    apply (sanitize_valid_indicator_returns d side _ _ _ Hrun); auto.
    unfold dict_get_default. now rewrite Ht.
Qed.

Lemma condition_verdict_inv condition index reason :
  condition_verdict condition index = Ok (true, reason) ->
  exists c lhs rhs lr rr,
    condition = PDict c /\
    dict_get "lhs" c = Some lhs /\ dict_get "rhs" c = Some rhs /\
    operand_verdict lhs "lhs" = Ok (true, lr) /\
    operand_verdict rhs "rhs" = Ok (true, rr).
Proof.
  unfold condition_verdict.
  destruct condition as [| | | | | |c]; try (intros H; cbv in H; discriminate).
  unfold validate_condition. rewrite !dict_has_get.
  destruct (dict_get "lhs" c) as [lhs|] eqn:Hlhs; cbn [negb]; [|discriminate].
  destruct (dict_get "operator" c) as [op|] eqn:Hop; cbn [negb]; [|discriminate].
  destruct (dict_get "rhs" c) as [rhs|] eqn:Hrhs; cbn [negb]; [|discriminate].
  run_monad. rewrite Hop, Hlhs, Hrhs.
  destruct (in_strs op VALID_OPERATORS); cbn [negb]; [|discriminate].
  destruct (eq_str op "≈ (approx)" && _); cbn [fst snd errors warnings];
    rewrite validate_operand_run;
    (destruct (operand_verdict lhs "lhs") as [[[] le]|] eqn:Hl; cbn [negb fst];
     try discriminate);
    rewrite validate_operand_run;
    (destruct (operand_verdict rhs "rhs") as [[[] re]|] eqn:Hr; cbn [negb fst];
     try discriminate);
    intros _; exists c, lhs, rhs, le, re; repeat split; assumption.
Qed.

Lemma sanitize_valid_condition_returns condition index reason :
  condition_verdict condition index = Ok (true, reason) ->
  typed_condition condition = true ->
  (forall c, condition = PDict c ->
             rhs_fields_convertible (dict_get_default "rhs" PNone c) = true) ->
  exists c v, condition = PDict c /\ _sanitize_condition c = Ok v.
Proof.
  intros Hvalid Htyped Hconv.
  destruct (condition_verdict_inv _ _ _ Hvalid)
    as (c & lhs & rhs & lr & rr & -> & Hlhs & Hrhs & Hl & Hr).
  specialize (Hconv c eq_refl).
  unfold typed_condition, dict_get_default in Htyped, Hconv.
  rewrite Hlhs, Hrhs in Htyped. rewrite Hrhs in Hconv.
  apply andb_true_iff in Htyped. destruct Htyped as (Htl & Htr).
  exists c. unfold _sanitize_condition, subscript.
  rewrite !dict_has_get, Hlhs, Hrhs. cbn [negb orb rbind].
  assert (Hsl : exists lv, _sanitize_operand lhs "lhs" = Ok lv).
  { apply (sanitize_valid_operand_returns lhs "lhs" lr Hl Htl). discriminate. }
  destruct Hsl as (lv & ->).
  destruct (sanitize_valid_operand_returns rhs "rhs" rr Hr Htr (fun _ => Hconv))
    as (rv & ->).
  cbn [rbind dict_get String.eqb Ascii.eqb Bool.eqb].
  destruct (is_none lv || is_none rv); [eexists; split; reflexivity|].
  destruct (in_strs _ VALID_OPERATORS); cbn [negb];
    cbn [dict_get dict_set String.eqb Ascii.eqb Bool.eqb rbind];
    destruct (eq_str _ "≈ (approx)"); eexists; split; reflexivity.
Qed.

Lemma sanitize_conditions_returns conditions : forall acc,
  (forall c, In c conditions ->
             (exists reason index, condition_verdict c index = Ok (true, reason)) /\
             typed_condition c = true /\
             (forall d, c = PDict d ->
                        rhs_fields_convertible (dict_get_default "rhs" PNone d) = true)) ->
  exists kept, sanitize_conditions conditions acc = Ok kept.
Proof.
  induction conditions as [|c rest IH]; intros acc Hall; [now exists acc|].
  destruct (Hall c (or_introl eq_refl)) as ((reason & index & Hvalid) & Htyped & Hconv).
  destruct (sanitize_valid_condition_returns _ _ _ Hvalid Htyped Hconv)
    as (d & v & -> & Hrun).
  cbn [sanitize_conditions]. rewrite Hrun. cbn [rbind].
  destruct (truthy v); apply IH; intros c' Hc'; apply Hall; now right.
Qed.

Lemma sanitize_returns_on_valid_run strategy self errs warns after :
  validate_strategy strategy self = (Ok (true, errs, warns), after) ->
  (forall fields c,
     strategy = PDict fields -> In c (strategy_conditions fields) ->
     typed_condition c = true /\
     (forall d, c = PDict d ->
                rhs_fields_convertible (dict_get_default "rhs" PNone d) = true)) ->
  exists v,
    sanitize_strategy strategy = Ok v /\
    forall self', validate_strategy v self' = (Ok (true, [], []), mkValidator [] []).
Proof.
  intros Hvalid Hfit.
  destruct (valid_strategy_inv _ _ _ _ _ Hvalid)
    as (_ & fields & name & conds & Hs & Hname & Hstrip & Hconds & Hne & Hpass).
  assert (Hrun : exists v, sanitize_strategy strategy = Ok v).
  { subst strategy. unfold sanitize_strategy.
    unfold dict_get_default at 1. rewrite Hname. cbn [method_strip rbind].
    fold (strategy_conditions fields).
    destruct (sanitize_conditions_returns (strategy_conditions fields) []) as (kept & ->).
    - intros c Hc. destruct (Hfit fields c eq_refl Hc) as (Htyped & Hconv).
      split; [|split; assumption].
      unfold strategy_conditions, dict_get_default in Hc. rewrite Hconds in Hc.
      apply In_nth_error in Hc. destruct Hc as (i & Hi).
      exists "", (Z.of_nat i). now apply Hpass.
    - cbn [rbind]. eexists. reflexivity. }
  destruct Hrun as (v & Hrun). exists v. split; [exact Hrun|].
  destruct (sanitize_valid_strategy_run _ _ _ _ _ _ Hvalid Hrun)
    as (f & n & kept & _ & _ & _ & _ & Hok).
  exact Hok.
Qed.

(** X30: [sanitize_strategy] returns on every strategy the validator
    accepts in which each indicator operand has a string (or no) [name] and
    an object (or no) [params], and in which [float] accepts the
    [multiplier] and [add_offset] of each RHS operand; what it returns
    validates with no error and no warning.  On a valid strategy the
    sanitizer can thus raise only for [params] that is not an object or for
    a number [float] refuses. *)
Theorem sanitize_returns_on_valid strategy self errs warns after :
  validate_strategy strategy self = (Ok (true, errs, warns), after) ->
  (forall fields c,
     strategy = PDict fields -> In c (strategy_conditions fields) ->
     typed_condition c = true /\
     (forall d, c = PDict d ->
                rhs_fields_convertible (dict_get_default "rhs" PNone d) = true)) ->
  exists v,
    sanitize_strategy strategy = Ok v /\
    forall self', validate_strategy v self' = (Ok (true, [], []), mkValidator [] []).
Proof. apply sanitize_returns_on_valid_run. Qed.

(** * The callers *)

Section ClientProperties.

Variable json_loads : string -> loaded.
Variable exception_text : pyval -> exn -> string.
Variable skip_spaces : string -> string.
Variable generate : string -> bool * string * string.
Variable _generate_explanation : pyval -> result string.

Lemma validate_strategy_state strategy self is_valid errs warns after :
  validate_strategy strategy self = (Ok (is_valid, errs, warns), after) ->
  after = mkValidator errs warns.
Proof.
  set (Q := fun (r : bool * list string * list string) (s : Validator) =>
              s = mkValidator (snd (fst r)) (snd r)).
  change (validate_strategy strategy self = (Ok (is_valid, errs, warns), after) ->
          Q (is_valid, errs, warns) after).
  unfold validate_strategy.
  apply bind_tail_state. intros _ s r s'. apply bind_tail_state. clear -Q.
  intros _ s r s'.
  assert (Htail : forall (f : list string -> bool) s r s',
             bind get_errors (fun errs => bind get_warnings
               (fun warns => ret (f errs, errs, warns))) s = (Ok r, s') -> Q r s').
  { clear. intros f [e w] r s'. cbv. intros H. inversion H. reflexivity. }
  destruct strategy;
    try (apply bind_tail_state; clear -Q Htail; intros ? s0 r0 s0';
         apply (Htail (fun _ => false))).
  do 3 (apply bind_tail_state; clear -Q Htail; intros ? s0 r0 s0').
  apply (Htail (fun errs => (List.length errs =? 0)%nat)).
Qed.

Lemma validate_strategy_any_state strategy self self' :
  validate_strategy strategy self' = validate_strategy strategy self.
Proof. reflexivity. Qed.

Lemma valid_run strategy self errs warns after :
  validate_strategy strategy self = (Ok (true, errs, warns), after) ->
  forall self', validate_strategy strategy self' = (Ok (true, [], warns), mkValidator [] warns).
Proof.
  intros Hrun self'.
  rewrite (validate_strategy_any_state strategy self self'), Hrun.
  pose proof (validate_strategy_state _ _ _ _ _ _ Hrun) as ->.
  apply validate_strategy_is_valid in Hrun.
  destruct errs; [reflexivity | discriminate].
Qed.

Lemma validate_json_string_true json_str parsed message :
  validate_json_string json_loads exception_text json_str = (true, parsed, message) ->
  message = "" /\
  exists strategy warns sanitized,
    json_loads json_str = Parsed strategy /\
    (forall self, validate_strategy strategy self
                  = (Ok (true, [], warns), mkValidator [] warns)) /\
    sanitize_strategy strategy = Ok sanitized /\
    parsed = Some sanitized /\
    forall self, validate_strategy sanitized self = (Ok (true, [], []), mkValidator [] []).
Proof.
  unfold validate_json_string.
  destruct (json_loads json_str) as [strategy|text|text]; try discriminate.
  destruct (validate_strategy strategy (mkValidator [] []))
    as [[[[is_valid errs] warns]|e] after] eqn:Hrun; [|discriminate].
  destruct is_valid; [|discriminate].
  destruct (sanitize_strategy strategy) as [sanitized|e] eqn:Hsan; [|discriminate].
  intros H. inversion H; subst. split; [reflexivity|].
  exists strategy, warns, sanitized.
  split; [reflexivity|]. split; [exact (valid_run _ _ _ _ _ Hrun)|].
  split; [exact Hsan|]. split; [reflexivity|].
  destruct (sanitize_valid_strategy_run _ _ _ _ _ _ Hrun Hsan)
    as (fields & name & kept & _ & _ & _ & _ & Hvalid).
  exact Hvalid.
Qed.

(** X14: [validate_json_string] answers [True] only for a text that parses
    to a strategy the validator accepts and the sanitizer returns on; the
    strategy it hands back is the sanitized one, not the parsed one, it
    validates with no error and no warning, and the message is empty.  With
    [False] no strategy comes back. *)
Theorem validate_json_string_accepts json_str :
  (forall parsed message,
     validate_json_string json_loads exception_text json_str = (true, parsed, message) ->
     message = "" /\
     exists strategy warns sanitized,
       json_loads json_str = Parsed strategy /\
       (forall self, validate_strategy strategy self
                     = (Ok (true, [], warns), mkValidator [] warns)) /\
       sanitize_strategy strategy = Ok sanitized /\
       parsed = Some sanitized /\
       forall self, validate_strategy sanitized self
                    = (Ok (true, [], []), mkValidator [] [])) /\
  (forall parsed message,
     validate_json_string json_loads exception_text json_str = (false, parsed, message) ->
     parsed = None).
Proof.
  split; [apply validate_json_string_true|].
  unfold validate_json_string. intros parsed message.
  destruct (json_loads json_str) as [strategy|text|text];
    try (intros H; inversion H; reflexivity).
  destruct (validate_strategy strategy (mkValidator [] []))
    as [[[[is_valid errs] warns]|e] after];
    [|intros H; inversion H; reflexivity].
  destruct is_valid; [|intros H; inversion H; reflexivity].
  destruct (sanitize_strategy strategy); intros H; inversion H; reflexivity.
Qed.

Lemma explained_returns strategy validator success parsed explanation error after :
  explained _generate_explanation strategy validator
  = (Return (success, parsed, explanation, error), after) ->
  success = true /\ parsed = Some strategy /\ error = "" /\ after = validator /\
  _generate_explanation strategy = Ok explanation.
Proof.
  unfold explained.
  destruct (_generate_explanation strategy) as [text|e]; [|discriminate].
  intros H. inversion H; subst. repeat split; reflexivity.
Qed.

Lemma parse_strategy_from_nl_returns natural_language auto_fix validator
      success parsed explanation error after :
  parse_strategy_from_nl json_loads skip_spaces generate _generate_explanation
    natural_language auto_fix validator
  = (Return (success, parsed, explanation, error), after) ->
  (success = true ->
   error = "" /\
   exists strategy warns,
     parsed = Some strategy /\
     _generate_explanation strategy = Ok explanation /\
     after = mkValidator [] warns /\
     forall self, validate_strategy strategy self
                  = (Ok (true, [], warns), mkValidator [] warns)) /\
  (success = false -> parsed = None /\ explanation = "").
Proof.
  unfold parse_strategy_from_nl.
  destruct (generate natural_language) as [[ok response] err].
  destruct ok; cbn [negb]; [|intros H; inversion H; subst; split; [discriminate | auto]].
  destruct (truthy (PStr (_extract_json skip_spaces response))); cbn [negb];
    [|intros H; inversion H; subst; split; [discriminate | auto]].
  destruct (json_loads (_extract_json skip_spaces response)) as [strategy|text|text];
    [|intros H; inversion H; subst; split; [discriminate | auto] | discriminate].
  destruct (validate_strategy strategy validator)
    as [[[[is_valid errs] warns]|e] validator1] eqn:Hrun; [|discriminate].
  destruct is_valid; cbn [negb].
  - intros H. apply explained_returns in H.
    destruct H as (-> & -> & -> & -> & Hexp).
    split; [|discriminate]. intros _. split; [reflexivity|].
    exists strategy, warns. split; [reflexivity|]. split; [exact Hexp|].
    pose proof (valid_run _ _ _ _ _ Hrun validator) as Hrun'.
    rewrite Hrun in Hrun'. inversion Hrun'; subst.
    split; [reflexivity|]. exact (valid_run _ _ _ _ _ Hrun).
  - destruct auto_fix;
      [|intros H; inversion H; subst; split; [discriminate | auto]].
    destruct (sanitize_strategy strategy) as [fixed|e]; [|discriminate].
    destruct (validate_strategy fixed validator1)
      as [[[[is_valid' errs'] warns']|e] validator2] eqn:Hrun'; [|discriminate].
    destruct is_valid'; cbn [negb];
      [|intros H; inversion H; subst; split; [discriminate | auto]].
    intros H. apply explained_returns in H.
    destruct H as (-> & -> & -> & -> & Hexp).
    split; [|discriminate]. intros _. split; [reflexivity|].
    exists fixed, warns'. split; [reflexivity|]. split; [exact Hexp|].
    pose proof (valid_run _ _ _ _ _ Hrun' validator1) as Hrun''.
    rewrite Hrun' in Hrun''. inversion Hrun''; subst.
    split; [reflexivity|]. exact (valid_run _ _ _ _ _ Hrun').
Qed.

(** X15: when [parse_strategy_from_nl] returns success, the strategy it
    returns is one that [validate_strategy] accepts, from any state of a
    validator and with no error, whether it is the parsed strategy or the
    repaired one; the error message is empty and the client's validator is
    left holding that validation's warnings.  When it returns failure,
    neither a strategy nor an explanation comes back. *)
Theorem parse_strategy_from_nl_sound natural_language auto_fix validator
      success parsed explanation error after :
  parse_strategy_from_nl json_loads skip_spaces generate _generate_explanation
    natural_language auto_fix validator
  = (Return (success, parsed, explanation, error), after) ->
  (success = true ->
   error = "" /\
   exists strategy warns,
     parsed = Some strategy /\
     _generate_explanation strategy = Ok explanation /\
     after = mkValidator [] warns /\
     forall self, validate_strategy strategy self
                  = (Ok (true, [], warns), mkValidator [] warns)) /\
  (success = false -> parsed = None /\ explanation = "").
Proof. apply parse_strategy_from_nl_returns. Qed.

(** X16: [auto_fix] makes a difference only for a strategy the validator
    rejects.  The calls with and without it end alike, unless the model's
    answer parses to a strategy with at least one validation error, for
    which the call without [auto_fix] fails with ["Invalid strategy: ..."].
    And a strategy that is valid as parsed is never sanitized: with or
    without [auto_fix] the call goes on to the explanation with the parsed
    strategy itself, and returns it when the explanation returns. *)
Theorem auto_fix_only_for_invalid natural_language validator :
  (parse_strategy_from_nl json_loads skip_spaces generate _generate_explanation
     natural_language true validator
   = parse_strategy_from_nl json_loads skip_spaces generate _generate_explanation
       natural_language false validator
   \/
   exists response error strategy errs warns,
     generate natural_language = (true, response, error) /\
     json_loads (_extract_json skip_spaces response) = Parsed strategy /\
     validate_strategy strategy validator
     = (Ok (false, errs, warns), mkValidator errs warns) /\
     errs <> [] /\
     parse_strategy_from_nl json_loads skip_spaces generate _generate_explanation
       natural_language false validator
     = (Return (false, None, "", fstr ["Invalid strategy: "; join "; " errs]),
        mkValidator errs warns)) /\
  (forall auto_fix response error strategy errs warns after,
     generate natural_language = (true, response, error) ->
     _extract_json skip_spaces response <> "" ->
     json_loads (_extract_json skip_spaces response) = Parsed strategy ->
     validate_strategy strategy validator = (Ok (true, errs, warns), after) ->
     parse_strategy_from_nl json_loads skip_spaces generate _generate_explanation
       natural_language auto_fix validator
     = match _generate_explanation strategy with
       | Ok explanation =>
           (Return (true, Some strategy, explanation, ""), mkValidator [] warns)
       | Raise e => (Throw e, mkValidator [] warns)
       end).
Proof.
  split.
  - unfold parse_strategy_from_nl.
    destruct (generate natural_language) as [[ok response] err] eqn:Hgen.
    destruct ok; cbn [negb]; [|now left].
    destruct (truthy (PStr (_extract_json skip_spaces response))); cbn [negb]; [|now left].
    destruct (json_loads (_extract_json skip_spaces response)) as [strategy|text|text]
      eqn:Hload; try (now left).
    destruct (validate_strategy strategy validator)
      as [[[[is_valid errs] warns]|e] validator1] eqn:Hrun; [|now left].
    destruct is_valid; cbn [negb]; [now left|].
    right. exists response, err, strategy, errs, warns.
    pose proof (validate_strategy_state _ _ _ _ _ _ Hrun) as ->.
    split; [first [reflexivity | exact Hgen]|].
    split; [first [reflexivity | exact Hload]|].
    split; [first [reflexivity | exact Hrun]|].
    split; [|reflexivity].
    apply validate_strategy_is_valid in Hrun. intros ->. discriminate.
  - intros auto_fix response error strategy errs warns after Hgen Hjson Hload Hrun.
    unfold parse_strategy_from_nl. rewrite Hgen. cbn [negb truthy].
    apply String.eqb_neq in Hjson. rewrite Hjson. cbn [negb].
    rewrite Hload, Hrun. cbn [negb]. unfold explained.
    pose proof (valid_run _ _ _ _ _ Hrun validator) as Hrun'.
    rewrite Hrun in Hrun'. inversion Hrun'; subst. reflexivity.
Qed.

(** X17: what [auto_fix] does with a rejected strategy on which the
    sanitizer returns.  When the sanitized name is not empty and a condition
    was kept, the call goes on to the explanation with the sanitized
    strategy: it returns success with that strategy when the explanation
    returns, and raises what the explanation raises.  Otherwise it returns
    failure with ["Could not fix strategy: "] followed by the one or two
    errors an empty name and an empty conditions list give. *)
Theorem auto_fix_outcome natural_language validator response error strategy
      errs warns after sanitized :
  generate natural_language = (true, response, error) ->
  _extract_json skip_spaces response <> "" ->
  json_loads (_extract_json skip_spaces response) = Parsed strategy ->
  validate_strategy strategy validator = (Ok (false, errs, warns), after) ->
  sanitize_strategy strategy = Ok sanitized ->
  exists name description kept,
    sanitized = PDict [("name", PStr name); ("description", description);
                       ("conditions", PList kept)] /\
    parse_strategy_from_nl json_loads skip_spaces generate _generate_explanation
      natural_language true validator
    = match sanitized_errors name kept with
      | [] =>
          match _generate_explanation sanitized with
          | Ok explanation =>
              (Return (true, Some sanitized, explanation, ""), mkValidator [] [])
          | Raise e => (Throw e, mkValidator [] [])
          end
      | _ :: _ =>
          (Return (false, None, "",
                   fstr ["Could not fix strategy: ";
                         join "; " (sanitized_errors name kept)]),
           mkValidator (sanitized_errors name kept) [])
      end.
Proof.
  intros Hgen Hjson Hload Hrun Hsan.
  pose proof (sanitize_strategy_shape _ _ Hsan)
    as (name & description & kept & -> & Hname & Hkept).
  exists name, description, kept. split; [reflexivity|].
  unfold parse_strategy_from_nl. rewrite Hgen. cbn [negb truthy].
  apply String.eqb_neq in Hjson. rewrite Hjson. cbn [negb].
  rewrite Hload, Hrun. cbn [negb]. rewrite Hsan.
  rewrite (validate_sanitized_output name description kept after Hname Hkept).
  unfold explained.
  destruct (sanitized_errors name kept); reflexivity.
Qed.

(** X18: [parse_strategy_from_document] returns, on success, exactly one
    strategy and one explanation, the strategy being one the validator
    accepts; on failure both lists are empty. *)
Theorem parse_strategy_from_document_single document_text validator
      success strategies explanations error after :
  parse_strategy_from_document json_loads skip_spaces generate _generate_explanation
    document_text validator
  = (Return (success, strategies, explanations, error), after) ->
  (success = true ->
   error = "" /\
   exists strategy explanation warns,
     strategies = [Some strategy] /\ explanations = [explanation] /\
     forall self, validate_strategy strategy self
                  = (Ok (true, [], warns), mkValidator [] warns)) /\
  (success = false -> strategies = [] /\ explanations = []).
Proof.
  unfold parse_strategy_from_document.
  destruct (parse_strategy_from_nl _ _ _ _ document_text true validator)
    as [[[[[ok parsed] explanation] err]|e|text] validator1] eqn:Hparse;
    try discriminate.
  apply parse_strategy_from_nl_returns in Hparse. destruct Hparse as [Hok Hfail].
  destruct ok; intros H; inversion H; subst.
  - split; [|discriminate]. intros _. split; [reflexivity|].
    destruct (Hok eq_refl) as (_ & strategy & warns & -> & _ & _ & Hvalid).
    exists strategy, explanation, warns. repeat split. exact Hvalid.
  - split; [discriminate|]. intros _. split; reflexivity.
Qed.

(** ** Strings *)

Lemma app_str_assoc a b c : ((a ++ b) ++ c = a ++ (b ++ c))%string.
Proof. induction a as [|x a IH]; simpl; [reflexivity | now rewrite IH]. Qed.

Lemma app_str_nil_r a : (a ++ "")%string = a.
Proof. induction a as [|x a IH]; simpl; [reflexivity | now rewrite IH]. Qed.

Lemma length_app_str a b :
  String.length (a ++ b) = (String.length a + String.length b)%nat.
Proof. induction a as [|x a IH]; simpl; [reflexivity | now rewrite IH]. Qed.

Lemma count_char_app c a b :
  count_char c (a ++ b) = (count_char c a + count_char c b)%nat.
Proof. induction a as [|x a IH]; simpl; [reflexivity | rewrite IH; lia]. Qed.

Lemma str_drop_app a b : str_drop (String.length a) (a ++ b) = b.
Proof. induction a as [|x a IH]; simpl; [now destruct b | exact IH]. Qed.

Lemma str_drop_suffix n : forall s, exists a, s = (a ++ str_drop n s)%string.
Proof.
  induction n as [|n IH]; intros s; [now exists ""|].
  destruct s as [|x s]; [now exists ""|].
  destruct (IH s) as (a & Ha). exists (String x a). simpl. now rewrite <- Ha.
Qed.

Lemma substring_prefix a b : substring 0 (String.length a) (a ++ b) = a.
Proof.
  induction a as [|x a IH]; simpl; [now destruct b | now rewrite IH].
Qed.

Lemma substring_middle pre mid post :
  substring (String.length pre) (String.length mid) (pre ++ mid ++ post) = mid.
Proof.
  induction pre as [|x pre IH]; simpl; [apply substring_prefix | exact IH].
Qed.

Lemma substring_part n : forall m s, exists a b, s = (a ++ substring n m s ++ b)%string.
Proof.
  induction n as [|n IH]; intros m s.
  - exists "". revert s. induction m as [|m IHm]; intros s.
    + exists s. now destruct s.
    + destruct s as [|x s]; [now exists ""|].
      destruct (IHm s) as (b & Hb). exists b. simpl in *. now rewrite <- Hb.
  - destruct s as [|x s].
    + exists "", "". now destruct m.
    + destruct (IH m s) as (a & b & Hab). exists (String x a), b.
      simpl. now rewrite <- Hab.
Qed.

Lemma part_trans a b c :
  (exists x y, b = (x ++ a ++ y)%string) ->
  (exists x y, c = (x ++ b ++ y)%string) ->
  exists x y, c = (x ++ a ++ y)%string.
Proof.
  intros (x & y & ->) (x' & y' & ->).
  exists (x' ++ x)%string, (y ++ y')%string.
  now rewrite !app_str_assoc.
Qed.

Lemma suffix_part a s : (exists x, s = (x ++ a)%string) -> exists x y, s = (x ++ a ++ y)%string.
Proof. intros (x & ->). exists x, "". now rewrite app_str_nil_r. Qed.

Lemma str_find_char c : forall s i,
  str_find (String c "") s = Some i ->
  exists pre post,
    s = (pre ++ String c post)%string /\ String.length pre = i /\
    count_char c pre = 0%nat.
Proof.
  induction s as [|x s IH]; intros i; simpl; [discriminate|].
  destruct (Ascii.eqb c x) eqn:E.
  - apply Ascii.eqb_eq in E. subst x. intros H. inversion H; subst.
    exists "", s. repeat split.
  - destruct (str_find (String c "") s) as [j|]; [|discriminate].
    simpl. intros H. inversion H; subst.
    destruct (IH j eq_refl) as (pre & post & -> & Hlen & Hcount).
    exists (String x pre), post. simpl.
    rewrite Ascii.eqb_sym, E, Hlen, Hcount. repeat split.
Qed.

Lemma str_find_fence a b :
  count_char "`" a = 0%nat ->
  str_find "```" (a ++ "```" ++ b) = Some (String.length a).
Proof.
  induction a as [|x a IH]; [reflexivity|].
  cbn [count_char]. destruct (Ascii.eqb x "`") eqn:E; [discriminate|].
  intros Hcount. specialize (IH Hcount).
  change ((String x a ++ "```" ++ b)%string) with (String x (a ++ "```" ++ b)%string).
  remember (a ++ "```" ++ b)%string as tail eqn:Htail.
  cbn [str_find is_prefix]. rewrite Ascii.eqb_sym, E, IH. reflexivity.
Qed.

Lemma scan_braces_found chars : forall i depth end_,
  scan_braces chars i depth end_ = end_ \/
  exists body post,
    chars = (body ++ "}" ++ post)%string /\
    scan_braces chars i depth end_ = (i + String.length body + 1)%nat /\
    Z.of_nat (count_char "{" body) + depth = Z.of_nat (count_char "}" body) + 1.
Proof.
  induction chars as [|c rest IH]; intros i depth end_; [now left|].
  cbn [scan_braces].
  destruct (Ascii.eqb c "{") eqn:Eo.
  - apply Ascii.eqb_eq in Eo. subst c.
    destruct (IH (S i) (depth + 1) end_) as [H | (body & post & -> & Hend & Hcount)];
      [now left|].
    right. exists (String "{" body), post. split; [reflexivity|].
    split; [rewrite Hend; simpl; lia|].
    assert (H1 : count_char "{" (String "{" body) = S (count_char "{" body))
      by reflexivity.
    assert (H2 : count_char "}" (String "{" body) = count_char "}" body)
      by reflexivity.
    rewrite H1, H2. lia.
  - destruct (Ascii.eqb c "}") eqn:Ec.
    + apply Ascii.eqb_eq in Ec. subst c. cbv zeta.
      destruct (depth - 1 =? 0) eqn:Ed.
      * right. exists "", rest. split; [reflexivity|]. split; [simpl; lia|].
        apply Z.eqb_eq in Ed. simpl. lia.
      * destruct (IH (S i) (depth - 1) end_)
          as [H | (body & post & -> & Hend & Hcount)]; [now left|].
        right. exists (String "}" body), post. split; [reflexivity|].
        split; [rewrite Hend; simpl; lia|].
        assert (H1 : count_char "{" (String "}" body) = count_char "{" body)
          by reflexivity.
        assert (H2 : count_char "}" (String "}" body) = S (count_char "}" body))
          by reflexivity.
        rewrite H1, H2. lia.
    + destruct (IH (S i) depth end_) as [H | (body & post & -> & Hend & Hcount)];
        [now left|].
      right. exists (String c body), post. split; [reflexivity|].
      split; [rewrite Hend; simpl; lia|].
      cbn [count_char]. rewrite Eo, Ec. exact Hcount.
Qed.

Lemma extract_json_braces_run text :
  search_fenced skip_spaces (str_strip text) = None ->
  _extract_json skip_spaces text = str_strip text \/
  exists pre body post,
    str_strip text = (pre ++ "{" ++ body ++ "}" ++ post)%string /\
    _extract_json skip_spaces text = ("{" ++ body ++ "}")%string /\
    count_char "{" pre = 0%nat /\
    count_char "{" body = count_char "}" body.
Proof.
  intros Hfence. unfold _extract_json. rewrite Hfence.
  destruct (str_find "{" (str_strip text)) as [start|] eqn:Hfind; [|now left].
  apply str_find_char in Hfind.
  destruct Hfind as (pre & rest & Htext & Hlen & Hpre).
  rewrite Htext. subst start. rewrite str_drop_app.
  cbn [scan_braces Ascii.eqb Bool.eqb].
  destruct (scan_braces_found rest (S (String.length pre)) (0 + 1) (String.length pre))
    as [-> | (body & post & -> & -> & Hcount)].
  - rewrite Nat.ltb_irrefl. now left.
  - right. exists pre, body, post.
    split; [reflexivity|].
    split; [|split; [exact Hpre | lia]].
    replace (String.length pre <? S (String.length pre) + String.length body + 1)%nat
      with true by (symmetry; apply Nat.ltb_lt; lia).
    unfold str_slice.
    replace (S (String.length pre) + String.length body + 1 - String.length pre)%nat
      with (String.length ("{" ++ body ++ "}")) by (rewrite !length_app_str; cbn [String.length]; lia).
    change (String "{" (body ++ "}" ++ post))%string
      with ("{" ++ (body ++ "}" ++ post))%string.
    replace ("{" ++ body ++ "}" ++ post)%string
      with (("{" ++ body ++ "}") ++ post)%string
      by (simpl; now rewrite !app_str_assoc).
    apply substring_middle.
Qed.

(** X20: when the answer holds no fenced block, [_extract_json] returns
    either the whole stripped text, or the part of it that starts at its
    first [{] and ends at a [}], with as many [{] as [}] in between: a
    brace-balanced piece, cut out where the text says. *)
Theorem extract_json_braces text :
  search_fenced skip_spaces (str_strip text) = None ->
  _extract_json skip_spaces text = str_strip text \/
  exists pre body post,
    str_strip text = (pre ++ "{" ++ body ++ "}" ++ post)%string /\
    _extract_json skip_spaces text = ("{" ++ body ++ "}")%string /\
    count_char "{" pre = 0%nat /\
    count_char "{" body = count_char "}" body.
Proof. apply extract_json_braces_run. Qed.

Lemma extract_json_part text :
  (forall s, exists a b, s = (a ++ str_strip s ++ b)%string) ->
  (forall s, exists a, s = (a ++ skip_spaces s)%string) ->
  exists a b, text = (a ++ _extract_json skip_spaces text ++ b)%string.
Proof.
  intros Hstrip Hskip.
  apply (part_trans _ (str_strip text)); [|apply Hstrip].
  unfold _extract_json.
  destruct (search_fenced skip_spaces (str_strip text)) as [group1|] eqn:Hfence.
  - apply (part_trans _ group1); [apply Hstrip|].
    unfold search_fenced in Hfence.
    destruct (str_find "```" (str_strip text)) as [i|]; [|discriminate].
    set (rest1 := str_drop (i + 3) (str_strip text)) in Hfence.
    set (rest2 := if is_prefix "json" rest1 then str_drop 4 rest1 else rest1) in Hfence.
    destruct (str_find "```" (skip_spaces rest2)) as [j|]; [|discriminate].
    inversion Hfence; subst group1. unfold str_slice.
    apply (part_trans _ (skip_spaces rest2)); [apply substring_part|].
    apply (part_trans _ rest2); [apply suffix_part, Hskip|].
    apply (part_trans _ rest1); [|apply suffix_part, str_drop_suffix].
    subst rest2. destruct (is_prefix "json" rest1).
    + apply suffix_part, str_drop_suffix.
    + exists "", "". now rewrite app_str_nil_r.
  - destruct (str_find "{" (str_strip text)) as [start|].
    + destruct (_ <? _)%nat.
      * apply substring_part.
      * exists "", "". now rewrite app_str_nil_r.
    + exists "", "". now rewrite app_str_nil_r.
Qed.

(** X19: the text [_extract_json] returns is a contiguous part of the text
    it was given: nothing is added or rewritten.  ([strip] returns a part of
    its argument, and [\s*] leaves the end of the text it is matched on.) *)
Theorem extract_json_is_part text :
  (forall s, exists a b, s = (a ++ str_strip s ++ b)%string) ->
  (forall s, exists a, s = (a ++ skip_spaces s)%string) ->
  exists a b, text = (a ++ _extract_json skip_spaces text ++ b)%string.
Proof. apply extract_json_part. Qed.

Lemma is_prefix_app p r : is_prefix p (p ++ r) = true.
Proof. induction p as [|x p IH]; simpl; [reflexivity|]. now rewrite Ascii.eqb_refl. Qed.

Lemma json_tag_absent body r :
  is_prefix "json" body = false -> count_char "`" body = 0%nat ->
  is_prefix "json" (body ++ "```" ++ r) = false.
Proof.
  intros Hp Hc.
  destruct body as [|c1 [|c2 [|c3 [|c4 body]]]]; try reflexivity;
    cbn [append is_prefix] in *;
    repeat match goal with
           | |- context [Ascii.eqb ?a ?b] => destruct (Ascii.eqb a b) eqn:?
           end;
    try reflexivity; try discriminate.
Qed.

Lemma extract_json_fenced_run text pre tag body post :
  (forall a b, skip_spaces (a ++ "```" ++ b) = (skip_spaces a ++ "```" ++ b)%string) ->
  (forall s, exists a, s = (a ++ skip_spaces s)%string) ->
  str_strip text = (pre ++ "```" ++ tag ++ body ++ "```" ++ post)%string ->
  count_char "`" pre = 0%nat -> count_char "`" body = 0%nat ->
  tag = "json" \/ (tag = "" /\ is_prefix "json" body = false) ->
  _extract_json skip_spaces text = str_strip (skip_spaces body).
Proof.
  intros Hfence Hskip Htext Hpre Hbody Htag.
  assert (Hgroup : search_fenced skip_spaces (str_strip text) = Some (skip_spaces body)).
  { unfold search_fenced. rewrite Htext.
    rewrite (str_find_fence pre _ Hpre).
    replace (pre ++ "```" ++ tag ++ body ++ "```" ++ post)%string
      with ((pre ++ "```") ++ tag ++ body ++ "```" ++ post)%string
      by now rewrite app_str_assoc.
    replace (String.length pre + 3)%nat with (String.length (pre ++ "```"))
      by (rewrite length_app_str; reflexivity).
    rewrite str_drop_app.
    assert (Hrest : (if is_prefix "json" (tag ++ body ++ "```" ++ post)
                     then str_drop 4 (tag ++ body ++ "```" ++ post)
                     else (tag ++ body ++ "```" ++ post))%string
                    = (body ++ "```" ++ post)%string).
    { destruct Htag as [-> | [-> Hnot]].
      - rewrite is_prefix_app. apply (str_drop_app "json").
      - change ("" ++ body ++ "```" ++ post)%string with (body ++ "```" ++ post)%string.
        now rewrite json_tag_absent. }
    rewrite Hrest, Hfence.
    assert (Hclean : count_char "`" (skip_spaces body) = 0%nat).
    { destruct (Hskip body) as (a & Ha). rewrite Ha, count_char_app in Hbody. lia. }
    rewrite (str_find_fence _ _ Hclean). unfold str_slice.
    rewrite Nat.sub_0_r. now rewrite substring_prefix. }
  unfold _extract_json. now rewrite Hgroup.
Qed.

(** X21: from a text that holds a fenced block, with or without the [json]
    tag, [_extract_json] returns what stands between the fences, without the
    whitespace around it, whatever comes before and after the block -
    braces included.  (No backquote stands before the block or in it;
    whitespace is skipped up to a fence and no further.) *)
Theorem extract_json_fenced text pre tag body post :
  (forall a b, skip_spaces (a ++ "```" ++ b) = (skip_spaces a ++ "```" ++ b)%string) ->
  (forall s, exists a, s = (a ++ skip_spaces s)%string) ->
  str_strip text = (pre ++ "```" ++ tag ++ body ++ "```" ++ post)%string ->
  count_char "`" pre = 0%nat -> count_char "`" body = 0%nat ->
  tag = "json" \/ (tag = "" /\ is_prefix "json" body = false) ->
  _extract_json skip_spaces text = str_strip (skip_spaces body).
Proof. apply extract_json_fenced_run. Qed.

End ClientProperties.

(** * The symbol list *)

Lemma firstn_add_skipn {A} (a b : nat) : forall l : list A,
  firstn a l ++ firstn b (skipn a l) = firstn (a + b) l.
Proof.
  induction a as [|a IH]; intros l; [reflexivity|].
  destruct l as [|x l]; simpl; [now destruct b | now rewrite IH].
Qed.

Lemma concat_slices {A} (l : list A) m : forall s,
  List.concat (map (fun i => slice l i (i + 15)) (map (fun k => k * 15)%nat (seq s m)))
  = firstn (15 * m) (skipn (s * 15) l).
Proof.
  induction m as [|m IH]; intros s; [reflexivity|].
  cbn [seq map List.concat]. rewrite IH. unfold slice.
  replace (s * 15 + 15 - s * 15)%nat with 15%nat by lia.
  replace (S s * 15)%nat with (15 + s * 15)%nat by lia.
  rewrite <- skipn_skipn, firstn_add_skipn. f_equal. lia.
Qed.

Lemma chunk_count (n : nat) :
  let m := ((n + 15 - 1) / 15)%nat in
  (n <= 15 * m)%nat /\ (forall k, (k < m)%nat -> (k * 15 < n)%nat) /\
  (forall k, (S k < m)%nat -> (k * 15 + 15 <= n)%nat).
Proof.
  intros m. subst m.
  pose proof (Nat.div_mod_eq (n + 15 - 1) 15) as Hdiv.
  pose proof (Nat.mod_upper_bound (n + 15 - 1) 15 ltac:(lia)) as Hmod.
  remember ((n + 15 - 1) / 15)%nat as m. remember ((n + 15 - 1) mod 15)%nat as r.
  repeat split; intros; lia.
Qed.

Lemma chunks_nth {A} (l : list A) k chunk :
  nth_error (map (fun i => slice l i (i + 15))
                 (range (List.length l) 15)) k = Some chunk ->
  (k < (List.length l + 15 - 1) / 15)%nat /\ chunk = firstn 15 (skipn (k * 15) l).
Proof.
  unfold range. rewrite !nth_error_map. intros H.
  destruct (nth_error (seq 0 _) k) as [k'|] eqn:Hk; [|discriminate].
  pose proof (nth_error_Some (seq 0 ((List.length l + 15 - 1) / 15)) k) as Hlt.
  rewrite Hk, length_seq in Hlt.
  assert (Hk_lt : (k < (List.length l + 15 - 1) / 15)%nat) by (apply Hlt; discriminate).
  rewrite (nth_error_nth' _ 0%nat) in Hk by now rewrite length_seq.
  rewrite seq_nth in Hk by exact Hk_lt. inversion Hk; subst k'.
  simpl in H. inversion H. split; [exact Hk_lt|].
  unfold slice. f_equal. lia.
Qed.

(** X22: the lines of the symbol list split the formatted symbols into runs
    of 15: put end to end the runs give back every symbol once, in order;
    there are [ceil(n/15)] of them, none empty and none longer than 15, and
    every run but the last holds exactly 15. *)
Theorem chunks_partition (symbols : list string) :
  let formatted := formatted_symbols symbols in
  List.concat (chunks formatted) = formatted /\
  List.length formatted = List.length symbols /\
  List.length (lines formatted) = ((List.length symbols + 14) / 15)%nat /\
  (forall k chunk,
     nth_error (chunks formatted) k = Some chunk ->
     (1 <= List.length chunk <= 15)%nat /\
     (S k < List.length (chunks formatted) -> List.length chunk = 15)%nat).
Proof.
  intros formatted.
  assert (Hlen : List.length formatted = List.length symbols).
  { unfold formatted, formatted_symbols. apply length_map. }
  destruct (chunk_count (List.length formatted)) as (Hall & Hsome & Hfull).
  split; [|split; [exact Hlen|split]].
  - unfold chunks, range. rewrite concat_slices. simpl skipn.
    apply firstn_all2. exact Hall.
  - unfold lines, chunks, range. rewrite !length_map, length_seq, Hlen.
    f_equal. lia.
  - intros k chunk Hk. unfold chunks in *.
    apply chunks_nth in Hk. destruct Hk as (Hlt & ->).
    rewrite length_firstn, length_skipn.
    specialize (Hsome k Hlt). split; [lia|].
    unfold range. rewrite !length_map, length_seq. intros Hnext.
    specialize (Hfull k Hnext). lia.
Qed.

(** * The fallback explanation *)

Section ExplanationProperties.

Variable str_capitalize : string -> string.

Lemma sanitized_operand_fields side v :
  sanitized_operand side v ->
  exists d,
    v = PDict d /\
    (exists tf, dict_get_default "timeframe" (PStr "daily") d = PStr tf) /\
    (dict_get "type" d = Some (PStr "value") \/
     dict_get "type" d = Some (PStr "indicator")).
Proof.
  intros [x Hx | name cfg tf off params m a Hcfg Htf Hoff Hp Hside];
    eexists; (split; [reflexivity|]); split; cbn; eauto.
Qed.

Lemma explanation_lines_sanitized conditions : forall i lines,
  Forall sanitized_condition conditions ->
  exists body,
    explanation_lines str_capitalize conditions i lines = Ok (lines ++ body) /\
    forallb is_str body = true /\
    List.length body = List.length conditions.
Proof.
  induction conditions as [|c rest IH]; intros i lines Hall.
  - exists []. rewrite app_nil_r. repeat split.
  - inversion Hall as [|? ? Hc Hrest]; subst.
    assert (Hstep : exists line,
               explanation_lines str_capitalize (c :: rest) i lines
               = explanation_lines str_capitalize rest (i + 1) (lines ++ [PStr line])).
    { destruct Hc as [lhs op rhs Hl Hr Hop Hne | lhs rhs tol Hl Hr];
        destruct (sanitized_operand_fields _ _ Hl) as (ld & -> & (ltf & Hltf) & _);
        destruct (sanitized_operand_fields _ _ Hr) as (rd & -> & _ & Hrt);
        cbn [explanation_lines method_get dict_get_default dict_get String.eqb
             Ascii.eqb Bool.eqb rbind];
        unfold dict_get_default in Hltf |- *; rewrite Hltf;
        (destruct Hrt as [-> | ->]);
        cbn [eq_str String.eqb Ascii.eqb Bool.eqb rbind method_capitalize];
        eexists; reflexivity. }
    destruct Hstep as (line & ->).
    destruct (IH (i + 1) (lines ++ [PStr line]) Hrest) as (body & -> & Hstr & Hlen).
    exists (PStr line :: body). rewrite <- app_assoc.
    split; [reflexivity|]. split; [exact Hstr | simpl; now rewrite Hlen].
Qed.

(** X23: on what [sanitize_strategy] returned, [_basic_explanation] returns
    whenever the description is a string: a title line, the description, a
    heading and one line per condition, joined by newlines.  With a
    description that is not a string, which the sanitizer lets through, it
    raises [TypeError]. *)
Theorem basic_explanation_of_sanitized strategy sanitized :
  sanitize_strategy strategy = Ok sanitized ->
  exists name description kept,
    sanitized = PDict [("name", PStr name); ("description", description);
                       ("conditions", PList kept)] /\
    (forall text, description = PStr text ->
       exists body,
         List.length body = List.length kept /\
         _basic_explanation str_capitalize sanitized
         = Ok (join newline (fstr ["**"; name; "**"; newline] :: text ::
                             fstr [newline; "**Conditions:**"] :: body))) /\
    (is_str description = false ->
     _basic_explanation str_capitalize sanitized = Raise TypeError).
Proof.
  intros H. apply sanitize_strategy_shape in H.
  destruct H as (name & description & kept & -> & _ & Hkept).
  exists name, description, kept. split; [reflexivity|].
  unfold _basic_explanation.
  cbn [method_get dict_get_default dict_get String.eqb Ascii.eqb Bool.eqb rbind
       py_iter py_str app].
  destruct (explanation_lines_sanitized kept 1
              [PStr (fstr ["**"; name; "**"; newline]); description;
               PStr (fstr [newline; "**Conditions:**"])] Hkept)
    as (body & -> & Hstr & Hlen).
  cbn [rbind]. unfold py_join. cbn [app forallb is_str andb].
  split.
  - intros text ->. cbn [is_str]. rewrite Hstr.
    exists (map py_str body). split; [now rewrite length_map|]. reflexivity.
  - intros ->. reflexivity.
Qed.

End ExplanationProperties.

End Properties.

(** * Worked cases

    The statements above are run here on the sample inputs, with the
    reference builtins. *)

Import Samples.

(** C1 as stated fails: the strategy returned for [None] does not validate,
    its conditions list being empty. *)
Lemma sanitized_fallback_is_invalid :
  sanitize_strategy PNone = Ok fallback_strategy /\
  fst (validate_strategy fallback_strategy (mkValidator [] []))
  = Ok (false, ["'conditions' array cannot be empty"], []).
Proof. split; reflexivity. Qed.

(** The untidy strategy, once sanitized, validates. *)
Lemma sanitized_strategy_validates_witness :
  exists sanitized,
    sanitize_strategy untidy = Ok sanitized /\
    py_getitem sanitized "name" <> Ok (PStr "") /\
    py_getitem sanitized "conditions" <> Ok (PList []) /\
    validate_strategy sanitized (mkValidator ["stale"] ["stale"])
    = (Ok (true, [], []), mkValidator [] []).
Proof.
  let r := eval vm_compute in (sanitize_strategy untidy) in
  match r with
  | Ok ?s =>
      exists s;
      assert (Hrun : sanitize_strategy untidy = Ok s) by (vm_compute; reflexivity);
      assert (Hname : py_getitem s "name" <> Ok (PStr "")) by (vm_compute; discriminate);
      assert (Hconds : py_getitem s "conditions" <> Ok (PList []))
        by (vm_compute; discriminate);
      split; [exact Hrun|]; split; [exact Hname|]; split; [exact Hconds|];
      exact (sanitized_strategy_validates untidy s _ Hrun Hname Hconds)
  end.
Defined.

(** Sanitizing the sanitized untidy strategy changes nothing. *)
Lemma sanitize_strategy_idempotent_witness :
  exists sanitized,
    sanitize_strategy untidy = Ok sanitized /\
    sanitize_strategy sanitized = Ok sanitized.
Proof.
  let r := eval vm_compute in (sanitize_strategy untidy) in
  match r with
  | Ok ?s =>
      exists s;
      assert (Hrun : sanitize_strategy untidy = Ok s) by (vm_compute; reflexivity);
      split; [exact Hrun|];
      exact (sanitize_strategy_idempotent untidy s Hrun)
  end.
Defined.

(** C5 as stated fails: the fallback strategy is named ["Invalid Strategy"],
    not the empty string. *)
Lemma fallback_name_is_not_empty :
  sanitize_strategy PNone = Ok fallback_strategy /\
  py_getitem fallback_strategy "name" = Ok (PStr "Invalid Strategy") /\
  py_getitem fallback_strategy "name" <> Ok (PStr "").
Proof. split; [reflexivity|]. split; [reflexivity | discriminate]. Qed.

(** A list is sanitized to the fallback strategy. *)
Lemma sanitize_strategy_fallback_witness :
  is_dict (PList [PInt 1]) = false /\
  sanitize_strategy (PList [PInt 1]) = Ok fallback_strategy.
Proof.
  split; [reflexivity|].
  exact (sanitize_strategy_fallback (PList [PInt 1]) eq_refl).
Defined.

(** Validation of each of the mixed conditions returns. *)
Lemma mixed_conditions_return i c :
  nth_error mixed_conditions i = Some c ->
  exists v, condition_verdict c (Z.of_nat i) = Ok v.
Proof.
  intros Hi.
  do 3 (destruct i as [|i];
        [inversion Hi; subst; eexists; vm_compute; reflexivity|]).
  destruct i; discriminate.
Defined.

(** The mixed strategy: every failing condition is reported. *)
Lemma validate_strategy_reports_every_condition_witness :
  dict_get "conditions" mixed = Some (PList mixed_conditions) /\
  mixed_conditions <> [] /\
  exists is_valid errs warns,
    validate_strategy (PDict mixed) (mkValidator [] [])
      = (Ok (is_valid, errs, warns), mkValidator errs warns) /\
    errs = name_errors mixed ++ condition_errors_from 0 mixed_conditions /\
    forall i c reason,
      nth_error mixed_conditions i = Some c ->
      condition_verdict c (Z.of_nat i) = Ok (false, reason) ->
      condition_error i c = [fstr ["Condition "; str_of_Z (Z.of_nat i + 1); ": "; reason]] /\
      In (fstr ["Condition "; str_of_Z (Z.of_nat i + 1); ": "; reason]) errs.
Proof.
  assert (Hc : dict_get "conditions" mixed = Some (PList mixed_conditions)) by reflexivity.
  assert (Hne : mixed_conditions <> []) by discriminate.
  split; [exact Hc|]. split; [exact Hne|].
  exact (validate_strategy_reports_every_condition mixed mixed_conditions
           (mkValidator [] []) Hc Hne mixed_conditions_return).
Defined.

(** On the mixed strategy both failing conditions are reported, the first
    and the third, with their 1-based positions. *)
Example mixed_errors :
  fst (validate_strategy (PDict mixed) (mkValidator [] []))
  = Ok (false,
        ["Condition 1: Condition must be an object";
         fstr ["Condition 3: LHS error: Unknown indicator 'nope'. Valid indicators: ";
               repr_strs (map fst VALID_INDICATORS)]],
        []).
Proof. reflexivity. Qed.

(** C7 as stated fails: every condition of the nameless strategy passes,
    and the strategy is still invalid. *)
Lemma nameless_strategy_is_invalid :
  condition_verdict passing 0 = Ok (true, "") /\
  fst (validate_strategy nameless (mkValidator [] []))
  = Ok (false, ["Missing required field: 'name'"],
        ["Missing 'description' field - recommended for clarity"]).
Proof. split; reflexivity. Qed.

(** The "Oversold" strategy is valid with no error although warnings were
    collected. *)
Lemma validate_strategy_valid_iff_no_errors_witness :
  exists warns,
    warns <> [] /\
    validate_strategy oversold (mkValidator [] [])
    = (Ok (true, [], warns), mkValidator [] warns).
Proof.
  assert (Hrun : exists warns,
             validate_strategy oversold (mkValidator [] [])
             = (Ok (true, [], warns), mkValidator [] warns)).
  { destruct (validate_strategy_valid_iff_no_errors oversold (mkValidator [] []))
      as [_ Hvalid].
    eapply Hvalid; try reflexivity; try discriminate.
    intros i c Hi. destruct i as [|i]; [|destruct i; discriminate].
    inversion Hi; subst. eexists. vm_compute. reflexivity. }
  destruct Hrun as (warns & Hrun).
  exists warns. split; [|exact Hrun].
  intros ->. vm_compute in Hrun. discriminate.
Defined.



(** With both operands invalid only the LHS error is reported, and the
    call is the same whatever the RHS is. *)
Lemma validate_condition_first_failure_witness :
  operand_verdict (PDict [("type", PStr "value"); ("value", PStr "high")]) "rhs"
  = Ok (false, "'value' must be a number") /\
  exists lhs_error,
    condition_verdict (PDict both_sides_bad) 2 = Ok (false, fstr ["LHS error: "; lhs_error]) /\
    forall rhs' self,
      validate_condition (PDict (dict_set "rhs" rhs' both_sides_bad)) 2 self
      = validate_condition (PDict both_sides_bad) 2 self.
Proof.
  split; [reflexivity|].
  destruct (validate_condition_first_failure both_sides_bad 2)
    as (_ & _ & _ & _ & Hpresent).
  destruct (Hpresent _ _ _ eq_refl eq_refl eq_refl) as (_ & Hvalid_op).
  destruct (Hvalid_op eq_refl) as (Hlhs & _ & _).
  eexists. apply Hlhs. vm_compute. reflexivity.
Defined.

(** The store model on the untidy strategy: it returns what the value model
    returns, and the argument still denotes the same value afterwards. *)
Example store_model_agrees :
  let '(v, h) := stored_untidy in
  let '(r, h') := h_sanitize_strategy v h in
  closed h = true /\
  match r with Ok w => Ok (value_of h' w) | Raise e => Raise e end
  = sanitize_strategy untidy /\
  value_of h' v = untidy.
Proof. vm_compute. repeat split; reflexivity. Qed.

(** The two models also agree where the sanitizer falls back and where it
    raises. *)
Example store_model_agrees_on_fallback :
  let '(v, h) := store (PList [PInt 1]) [] in
  let '(r, h') := h_sanitize_strategy v h in
  match r with Ok w => Ok (value_of h' w) | Raise e => Raise e end
  = sanitize_strategy (PList [PInt 1]) /\
  value_of h' v = PList [PInt 1].
Proof. vm_compute. split; reflexivity. Qed.

Example store_model_agrees_on_raise :
  let '(v, h) := store numeric_name [] in
  let '(r, h') := h_sanitize_strategy v h in
  match r with Ok w => Ok (value_of h' w) | Raise e => Raise e end
  = sanitize_strategy numeric_name /\
  value_of h' v = numeric_name.
Proof. vm_compute. split; reflexivity. Qed.

(** After sanitizing the stored untidy strategy, the argument denotes what
    it denoted before. *)
Lemma sanitize_strategy_leaves_input_unchanged_witness :
  let v := fst stored_untidy in
  let h := snd stored_untidy in
  closed h = true /\ val_below (List.length h) v = true /\
  readback 5 (snd (h_sanitize_strategy v h)) v = readback 5 h v.
Proof.
  intros v h.
  assert (Hclosed : closed h = true) by reflexivity.
  split; [exact Hclosed|]. split; [reflexivity|].
  exact (proj2 (proj2 (sanitize_strategy_leaves_input_unchanged v h))
           Hclosed 5%nat v eq_refl).
Defined.

(** ** Further runs *)

(** The "Oversold" scenario validates with three warnings, and sanitizing
    fills in the timeframe and the default period of [rsi]. *)
Example oversold_validates :
  fst (validate_strategy oversold (mkValidator [] []))
  = Ok (true, [],
        ["Missing 'description' field - recommended for clarity";
         "'rsi' missing 'timeframe' - defaulting to 'daily'";
         "'rsi' missing 'period' - defaulting to 14"]).
Proof. reflexivity. Qed.

Example oversold_sanitized :
  sanitize_strategy oversold
  = Ok (PDict [("name", PStr "Oversold"); ("description", PStr "");
               ("conditions",
                PList [PDict [("lhs", PDict [("type", PStr "indicator");
                                             ("name", PStr "rsi");
                                             ("timeframe", PStr "daily");
                                             ("offset", PInt 0);
                                             ("params", PDict [("period", PInt 14)])]);
                              ("operator", PStr "<");
                              ("rhs", value 30)]])]).
Proof. reflexivity. Qed.

(** Other inputs on which the sanitizer raises: an offset that is not a
    number in text, a null multiplier, params that are not an object. *)
Example sanitize_raises_on_text_offset :
  sanitize_strategy
    (PDict [("name", PStr "s");
            ("conditions",
             PList [PDict [("lhs", PDict [("name", PStr "close"); ("offset", PStr "soon")]);
                           ("rhs", value 1)]])])
  = Raise ValueError.
Proof. reflexivity. Qed.

Example sanitize_raises_on_null_multiplier :
  sanitize_strategy
    (PDict [("name", PStr "s");
            ("conditions",
             PList [PDict [("lhs", value 1);
                           ("rhs", PDict [("name", PStr "close"); ("multiplier", PNone)])]])])
  = Raise TypeError.
Proof. reflexivity. Qed.

Example sanitize_raises_on_list_params :
  sanitize_strategy
    (PDict [("name", PStr "s");
            ("conditions",
             PList [PDict [("lhs", PDict [("name", PStr "sma"); ("params", PList [])]);
                           ("rhs", value 1)]])])
  = Raise AttributeError.
Proof. reflexivity. Qed.

(** The validator also raises when [params] is a list that contains the
    text ["period"]: the membership test passes and the subscript fails. *)
Example validate_raises_on_list_params :
  fst (validate_strategy
         (PDict [("name", PStr "s");
                 ("conditions",
                  PList [PDict [("lhs", PDict [("type", PStr "indicator");
                                               ("name", PStr "sma");
                                               ("params", PList [PStr "period"])]);
                                ("operator", PStr ">");
                                ("rhs", value 1)]])])
         (mkValidator [] []))
  = Raise TypeError.
Proof. reflexivity. Qed.

(** ** Further properties on the sample inputs *)

(** Validating "Oversold" with stale lists in [self] is validating it with
    empty ones, and [self] ends up holding the lists returned. *)
Lemma validate_strategy_forgets_prior_state_witness :
  validate_strategy oversold (mkValidator ["stale"] ["stale"])
  = validate_strategy oversold (mkValidator [] []) /\
  snd (validate_strategy oversold (mkValidator ["stale"] ["stale"]))
  = mkValidator []
      ["Missing 'description' field - recommended for clarity";
       "'rsi' missing 'timeframe' - defaulting to 'daily'";
       "'rsi' missing 'period' - defaulting to 14"].
Proof.
  destruct (validate_strategy_forgets_prior_state oversold (mkValidator [] []))
    as [Hany Hstate].
  split; [apply Hany|].
  rewrite (Hany (mkValidator ["stale"] ["stale"])).
  apply (Hstate true []). reflexivity.
Defined.

(** A named strategy with an empty conditions list: one error, no warning
    but the one for the description. *)
Lemma validate_strategy_bad_conditions_field_witness :
  conditions_field_error [("name", PStr "Empty"); ("conditions", PList [])]
  = Some "'conditions' array cannot be empty" /\
  validate_strategy (PDict [("name", PStr "Empty"); ("conditions", PList [])])
    (mkValidator ["stale"] [])
  = (Ok (false, ["'conditions' array cannot be empty"],
         ["Missing 'description' field - recommended for clarity"]),
     mkValidator ["'conditions' array cannot be empty"]
       ["Missing 'description' field - recommended for clarity"]).
Proof.
  split; [reflexivity|].
  exact (validate_strategy_bad_conditions_field
           [("name", PStr "Empty"); ("conditions", PList [])]
           (mkValidator ["stale"] []) _ eq_refl).
Defined.

(** A value operand holding 30 passes on either side and leaves [self]
    alone. *)
Lemma validate_operand_plain_witness :
  is_indicator_operand (value 30) = false /\
  exists valid reason,
    validate_operand (value 30) "lhs" (mkValidator ["e"] ["w"])
    = (Ok (valid, reason), mkValidator ["e"] ["w"]) /\
    valid = true.
Proof.
  split; [reflexivity|].
  destruct (validate_operand_plain (value 30) "lhs" (mkValidator ["e"] ["w"]) eq_refl)
    as (valid & reason & Hrun & Hvalid).
  exists valid, reason. split; [exact Hrun|].
  apply Hvalid. exists [("type", PStr "value"); ("value", PInt 30)], (PInt 30).
  repeat split.
Defined.

(** The operands of "Oversold" are typed, and its validation returns. *)
Lemma validate_strategy_returns_witness :
  (forall d conds c,
     oversold = PDict d -> dict_get "conditions" d = Some (PList conds) ->
     In c conds -> typed_condition c = true) /\
  exists is_valid errs warns,
    validate_strategy oversold (mkValidator [] [])
    = (Ok (is_valid, errs, warns), mkValidator errs warns).
Proof.
  assert (Htyped : forall d conds c,
             oversold = PDict d -> dict_get "conditions" d = Some (PList conds) ->
             In c conds -> typed_condition c = true).
  { intros d conds c Hd Hc Hin. inversion Hd; subst d.
    vm_compute in Hc. inversion Hc; subst conds.
    destruct Hin as [<- | []]. reflexivity. }
  split; [exact Htyped|].
  exact (validate_strategy_returns oversold (mkValidator [] []) Htyped).
Defined.

(** The weekly [rsi] operand passes on the LHS: its name, timeframe and
    period are as the validator requires. *)
Lemma validate_indicator_sound_witness :
  validate_indicator scaled_rsi "lhs" (mkValidator [] [])
  = (Ok (true, ""),
     mkValidator [] ["'multiplier' on LHS will be ignored - only valid for RHS"]) /\
  exists name cfg,
    dict_get "name" scaled_rsi = Some (PStr name) /\
    indicator_config (str_lower name) = Some cfg.
Proof.
  assert (Hrun : validate_indicator scaled_rsi "lhs" (mkValidator [] [])
                 = (Ok (true, ""),
                    mkValidator []
                      ["'multiplier' on LHS will be ignored - only valid for RHS"]))
    by reflexivity.
  split; [exact Hrun|].
  destruct (validate_indicator_sound scaled_rsi "lhs" _ _ _ Hrun)
    as (_ & name & cfg & Hname & Hcfg & _).
  exists name, cfg. split; assumption.
Defined.

(** "Oversold" is valid: it has a name and one condition, which passes. *)
Lemma valid_strategy_sound_witness :
  validate_strategy oversold (mkValidator [] [])
  = (Ok (true, [],
         ["Missing 'description' field - recommended for clarity";
          "'rsi' missing 'timeframe' - defaulting to 'daily'";
          "'rsi' missing 'period' - defaulting to 14"]),
     mkValidator []
       ["Missing 'description' field - recommended for clarity";
        "'rsi' missing 'timeframe' - defaulting to 'daily'";
        "'rsi' missing 'period' - defaulting to 14"]) /\
  exists fields name conds,
    oversold = PDict fields /\
    dict_get "name" fields = Some (PStr name) /\
    str_strip name <> "" /\
    dict_get "conditions" fields = Some (PList conds) /\
    conds <> [].
Proof.
  assert (Hrun : validate_strategy oversold (mkValidator [] [])
                 = (Ok (true, [],
                        ["Missing 'description' field - recommended for clarity";
                         "'rsi' missing 'timeframe' - defaulting to 'daily'";
                         "'rsi' missing 'period' - defaulting to 14"]),
                    mkValidator []
                      ["Missing 'description' field - recommended for clarity";
                       "'rsi' missing 'timeframe' - defaulting to 'daily'";
                       "'rsi' missing 'period' - defaulting to 14"]))
    by reflexivity.
  split; [exact Hrun|].
  destruct (valid_strategy_sound oversold (mkValidator [] []) _ _ _ Hrun)
    as (_ & fields & name & conds & H1 & H2 & H3 & H4 & H5 & _).
  exists fields, name, conds. repeat split; assumption.
Defined.

(** The untidy strategy comes back with its three keys, and with two of its
    four conditions. *)
Lemma sanitize_strategy_output_witness :
  exists v name description kept,
    sanitize_strategy untidy = Ok v /\
    v = PDict [("name", PStr name); ("description", description);
               ("conditions", PList kept)] /\
    str_strip name = name /\
    List.length kept = 2%nat.
Proof.
  let r := eval vm_compute in (sanitize_strategy untidy) in
  match r with
  | Ok ?s =>
      assert (Hrun : sanitize_strategy untidy = Ok s) by (vm_compute; reflexivity);
      destruct (sanitize_strategy_output untidy s Hrun)
        as (name & description & kept & Hv & Hname & _ & _);
      exists s, name, description, kept;
      split; [exact Hrun|]; split; [exact Hv|]; split; [exact Hname|];
      inversion Hv; reflexivity
  end.
Defined.

(** A text in the place of an operand is dropped; the value 30 is kept. *)
Lemma sanitize_operand_dropped_witness :
  sanitizable_operand (PStr "rsi") = false /\
  _sanitize_operand (PStr "rsi") "lhs" = Ok PNone /\
  sanitizable_operand (value 30) = true /\
  sanitized_operand "rhs" (value 30).
Proof.
  split; [reflexivity|]. split.
  - apply (proj1 (sanitize_operand_dropped (PStr "rsi") "lhs")). reflexivity.
  - split; [reflexivity|].
    apply (proj2 (sanitize_operand_dropped (value 30) "rhs") (value 30));
      reflexivity.
Defined.

(** A value operand holding a text that is no number is given the value 0. *)
Lemma sanitize_value_operand_witness :
  dict_get "type" [("type", PStr "value"); ("value", PStr "high")]
  = Some (PStr "value") /\
  _sanitize_operand (PDict [("type", PStr "value"); ("value", PStr "high")]) "rhs"
  = Ok (PDict [("type", PStr "value"); ("value", PInt 0)]).
Proof.
  split; [reflexivity|].
  exact (proj1 (sanitize_value_operand [("type", PStr "value"); ("value", PStr "high")]
                  "rhs" eq_refl)).
Defined.

(** "Oversold" is valid, and sanitizing it keeps its one condition and
    gives a strategy that validates without a warning. *)
Lemma sanitize_valid_strategy_witness :
  exists warns v kept,
    validate_strategy oversold (mkValidator [] [])
    = (Ok (true, [], warns), mkValidator [] warns) /\
    sanitize_strategy oversold = Ok v /\
    v = PDict [("name", PStr "Oversold"); ("description", PStr "");
               ("conditions", PList kept)] /\
    List.length kept = 1%nat /\
    validate_strategy v (mkValidator ["stale"] [])
    = (Ok (true, [], []), mkValidator [] []).
Proof.
  let r := eval vm_compute in (sanitize_strategy oversold) in
  let w := eval vm_compute in (warnings (snd (validate_strategy oversold (mkValidator [] [])))) in
  match r with
  | Ok ?s =>
      assert (Hvalid : validate_strategy oversold (mkValidator [] [])
                       = (Ok (true, [], w), mkValidator [] w))
        by (vm_compute; reflexivity);
      assert (Hrun : sanitize_strategy oversold = Ok s) by (vm_compute; reflexivity);
      destruct (sanitize_valid_strategy oversold _ _ _ _ s Hvalid Hrun)
        as (fields & name & kept & Hf & Hn & Hv & Hlen & Hok);
      exists w, s, kept;
      split; [exact Hvalid|]; split; [exact Hrun|];
      inversion Hf; subst fields;
      vm_compute in Hn; inversion Hn; subst name;
      split; [rewrite Hv; reflexivity|]; split; [rewrite Hlen; reflexivity|];
      apply Hok
  end.
Defined.

(** A strategy with no field at all: both suggestions are made. *)
Lemma suggest_fixes_for_bad_fields_witness :
  conditions_field_error [] = Some "Missing required field: 'conditions'" /\
  exists errs warns after,
    validate_strategy (PDict []) (mkValidator [] []) = (Ok (false, errs, warns), after) /\
    suggest_fixes errs
    = ["Add a 'name' field with a descriptive strategy name";
       "Add a 'conditions' array with at least one condition"].
Proof.
  split; [reflexivity|].
  exact (suggest_fixes_for_bad_fields [] (mkValidator [] []) _ eq_refl).
Defined.

(** The fallback strategy is rejected for its empty conditions list only. *)
Lemma sanitized_strategy_verdict_witness :
  sanitize_strategy PNone = Ok fallback_strategy /\
  exists name description kept,
    fallback_strategy = PDict [("name", PStr name); ("description", description);
                               ("conditions", PList kept)] /\
    validate_strategy fallback_strategy (mkValidator [] [])
    = (Ok ((List.length (sanitized_errors name kept) =? 0)%nat,
           sanitized_errors name kept, []),
       mkValidator (sanitized_errors name kept) []) /\
    sanitized_errors name kept = ["'conditions' array cannot be empty"].
Proof.
  split; [reflexivity|].
  destruct (sanitized_strategy_verdict PNone fallback_strategy (mkValidator [] []) eq_refl)
    as (name & description & kept & Hv & Hrun & _).
  exists name, description, kept. split; [exact Hv|]. split; [exact Hrun|].
  inversion Hv. reflexivity.
Defined.

(** ** The callers on the sample environment *)

(** The reference [lstrip] and [strip] return a part of their argument, and
    [lstrip] stops at a fence. *)
Lemma lstrip_suffix s : exists a, s = (a ++ Reference.lstrip s)%string.
Proof.
  induction s as [|c s IH]; [now exists ""|].
  simpl. destruct (Reference.is_space c); [|now exists ""].
  destruct IH as (a & Ha). exists (String c a). simpl. now rewrite <- Ha.
Qed.

Lemma rstrip_prefix s : exists b, s = (Reference.rstrip s ++ b)%string.
Proof.
  induction s as [|c s IH]; [now exists ""|].
  destruct IH as (b & Hb). simpl.
  destruct (Reference.rstrip s) as [|d r].
  - destruct (Reference.is_space c); [now exists (String c s)|].
    exists s. reflexivity.
  - exists b. simpl in *. now rewrite <- Hb.
Qed.

Lemma strip_part s : exists a b, s = (a ++ str_strip s ++ b)%string.
Proof.
  change (str_strip s) with (Reference.rstrip (Reference.lstrip s)).
  destruct (lstrip_suffix s) as (a & Ha).
  destruct (rstrip_prefix (Reference.lstrip s)) as (b & Hb).
  exists a, b. now rewrite <- Hb.
Qed.

Lemma lstrip_fence a b :
  Reference.lstrip (a ++ "```" ++ b) = (Reference.lstrip a ++ "```" ++ b)%string.
Proof.
  induction a as [|c a IH]; [reflexivity|].
  change ((String c a ++ "```" ++ b)%string) with (String c (a ++ "```" ++ b)%string).
  cbn [Reference.lstrip]. destruct (Reference.is_space c); [exact IH | reflexivity].
Qed.

(** The text "oversold" parses to a valid strategy: it comes back sanitized. *)
Lemma validate_json_string_accepts_witness :
  exists sanitized,
    validate_json_string loads error_text "oversold" = (true, Some sanitized, "") /\
    sanitize_strategy oversold = Ok sanitized /\
    validate_strategy sanitized (mkValidator ["stale"] [])
    = (Ok (true, [], []), mkValidator [] []).
Proof.
  let r := eval vm_compute in (validate_json_string loads error_text "oversold") in
  match r with
  | (true, ?p, ?m) =>
      assert (Hrun : validate_json_string loads error_text "oversold" = (true, p, m))
        by (vm_compute; reflexivity);
      destruct (proj1 (validate_json_string_accepts loads error_text "oversold") p m Hrun)
        as (Hm & strategy & warns & sanitized & Hload & _ & Hsan & Hp & Hok);
      exists sanitized;
      vm_compute in Hload; inversion Hload; subst strategy;
      split; [rewrite Hrun; inversion Hp; reflexivity|];
      split; [exact Hsan | apply Hok]
  end.
Defined.

(** The model's answer for "oversold" holds a valid strategy: it is returned
    as parsed, and validates. *)
Lemma parse_strategy_from_nl_sound_witness :
  exists warns,
    parse_strategy_from_nl loads Reference.lstrip answer explanation
      "oversold" true (mkValidator ["stale"] [])
    = (Return (true, Some oversold, "Explained.", ""), mkValidator [] warns) /\
    forall self, validate_strategy oversold self
                 = (Ok (true, [], warns), mkValidator [] warns).
Proof.
  let r := eval vm_compute in
             (parse_strategy_from_nl loads Reference.lstrip answer explanation
                "oversold" true (mkValidator ["stale"] [])) in
  match r with
  | (Return (?ok, ?p, ?e, ?m), ?after) =>
      assert (Hrun : parse_strategy_from_nl loads Reference.lstrip answer explanation
                       "oversold" true (mkValidator ["stale"] [])
                     = (Return (ok, p, e, m), after))
        by (vm_compute; reflexivity);
      destruct (proj1 (parse_strategy_from_nl_sound loads Reference.lstrip answer
                         explanation _ _ _ _ _ _ _ _ Hrun) eq_refl)
        as (_ & strategy & warns & Hp & _ & Hafter & Hok);
      exists warns;
      inversion Hp; subst strategy;
      split; [rewrite Hrun; inversion Hafter; reflexivity | exact Hok]
  end.
Defined.

(** The model's answer for "untidy" holds a strategy the validator rejects;
    with [auto_fix] it is sanitized, and the sanitized strategy is returned. *)
Lemma auto_fix_outcome_witness :
  exists sanitized,
    sanitize_strategy untidy = Ok sanitized /\
    (exists errs warns,
       fst (validate_strategy untidy (mkValidator [] [])) = Ok (false, errs, warns)) /\
    parse_strategy_from_nl loads Reference.lstrip answer explanation
      "untidy" true (mkValidator [] [])
    = (Return (true, Some sanitized, "Explained.", ""), mkValidator [] []).
Proof.
  let s := eval vm_compute in (sanitize_strategy untidy) in
  let v := eval vm_compute in (validate_strategy untidy (mkValidator [] [])) in
  match s with
  | Ok ?sanitized =>
      match v with
      | (Ok (false, ?errs, ?warns), ?after) =>
          assert (Hsan : sanitize_strategy untidy = Ok sanitized)
            by (vm_compute; reflexivity);
          assert (Hrun : validate_strategy untidy (mkValidator [] [])
                         = (Ok (false, errs, warns), after))
            by (vm_compute; reflexivity);
          assert (Hjson : _extract_json Reference.lstrip
                            (snd (fst (answer "untidy"))) <> "")
            by (vm_compute; discriminate);
          assert (Hload : loads (_extract_json Reference.lstrip
                                   (snd (fst (answer "untidy")))) = Parsed untidy)
            by (vm_compute; reflexivity);
          destruct (auto_fix_outcome loads Reference.lstrip answer explanation
                      "untidy" (mkValidator [] []) _ "" untidy errs warns after sanitized
                      eq_refl Hjson Hload Hrun Hsan)
            as (name & description & kept & Hshape & Hparse);
          exists sanitized;
          split; [exact Hsan|];
          split; [exists errs, warns; rewrite Hrun; reflexivity|];
          rewrite Hparse; inversion Hshape; reflexivity
      end
  end.
Defined.

(** A document naming "oversold" gives one strategy and one explanation. *)
Lemma parse_strategy_from_document_single_witness :
  exists after,
    parse_strategy_from_document loads Reference.lstrip answer explanation
      "oversold" (mkValidator [] [])
    = (Return (true, [Some oversold], ["Explained."], ""), after) /\
    exists warns, forall self,
      validate_strategy oversold self = (Ok (true, [], warns), mkValidator [] warns).
Proof.
  let r := eval vm_compute in
             (parse_strategy_from_document loads Reference.lstrip answer explanation
                "oversold" (mkValidator [] [])) in
  match r with
  | (Return (?ok, ?ss, ?es, ?m), ?after) =>
      assert (Hrun : parse_strategy_from_document loads Reference.lstrip answer
                       explanation "oversold" (mkValidator [] [])
                     = (Return (ok, ss, es, m), after))
        by (vm_compute; reflexivity);
      destruct (proj1 (parse_strategy_from_document_single loads Reference.lstrip answer
                         explanation _ _ _ _ _ _ _ Hrun) eq_refl)
        as (_ & strategy & text & warns & Hs & _ & Hok);
      exists after; split; [exact Hrun|];
      exists warns; inversion Hs; subst strategy; exact Hok
  end.
Defined.

(** What is extracted from a chatty answer is a part of it. *)
Lemma extract_json_is_part_witness :
  exists a b,
    "  Here: {a: {b: 1}} done  "
    = (a ++ _extract_json Reference.lstrip "  Here: {a: {b: 1}} done  " ++ b)%string.
Proof.
  exact (extract_json_is_part Reference.lstrip "  Here: {a: {b: 1}} done  "
           strip_part lstrip_suffix).
Defined.

(** Without a fence, the object is cut out at its braces. *)
Lemma extract_json_braces_witness :
  search_fenced Reference.lstrip (str_strip "  Here: {a: {b: 1}} done  ") = None /\
  _extract_json Reference.lstrip "  Here: {a: {b: 1}} done  " = "{a: {b: 1}}" /\
  (_extract_json Reference.lstrip "  Here: {a: {b: 1}} done  "
   = str_strip "  Here: {a: {b: 1}} done  " \/
   exists pre body post,
     str_strip "  Here: {a: {b: 1}} done  " = (pre ++ "{" ++ body ++ "}" ++ post)%string /\
     _extract_json Reference.lstrip "  Here: {a: {b: 1}} done  "
     = ("{" ++ body ++ "}")%string /\
     count_char "{" pre = 0%nat /\
     count_char "{" body = count_char "}" body).
Proof.
  split; [reflexivity|]. split; [reflexivity|].
  exact (extract_json_braces Reference.lstrip "  Here: {a: {b: 1}} done  " eq_refl).
Defined.

(** With a fenced block, what stands between the fences is returned, and the
    braces after the block are not looked at. *)
Lemma extract_json_fenced_witness :
  str_strip "Sure: ```json {a: 1} ``` bye {x}"
  = ("Sure: " ++ "```" ++ "json" ++ " {a: 1} " ++ "```" ++ " bye {x}")%string /\
  _extract_json Reference.lstrip "Sure: ```json {a: 1} ``` bye {x}" = "{a: 1}".
Proof.
  assert (Htext : str_strip "Sure: ```json {a: 1} ``` bye {x}"
                  = ("Sure: " ++ "```" ++ "json" ++ " {a: 1} " ++ "```" ++ " bye {x}")%string)
    by reflexivity.
  split; [exact Htext|].
  rewrite (extract_json_fenced Reference.lstrip "Sure: ```json {a: 1} ``` bye {x}"
             "Sure: " "json" " {a: 1} " " bye {x}"
             lstrip_fence lstrip_suffix Htext eq_refl eq_refl (or_introl eq_refl)).
  reflexivity.
Defined.

(** Sixteen symbols make two lines, of fifteen and of one. *)
Lemma chunks_partition_witness :
  let symbols := repeat "X" 16 in
  List.concat (chunks (formatted_symbols symbols)) = formatted_symbols symbols /\
  List.length (lines (formatted_symbols symbols)) = 2%nat /\
  map (@List.length string) (chunks (formatted_symbols symbols)) = [15; 1]%nat.
Proof.
  destruct (chunks_partition (repeat "X" 16)) as (Hconcat & _ & Hlines & _).
  split; [exact Hconcat|]. split; [exact Hlines | reflexivity].
Defined.

(** The sanitized "Oversold" strategy is explained in four lines. *)
Lemma basic_explanation_of_sanitized_witness :
  exists sanitized body,
    sanitize_strategy oversold = Ok sanitized /\
    List.length body = 1%nat /\
    _basic_explanation Reference.capitalize sanitized
    = Ok (join newline (fstr ["**"; "Oversold"; "**"; newline] :: "" ::
                        fstr [newline; "**Conditions:**"] :: body)).
Proof.
  let r := eval vm_compute in (sanitize_strategy oversold) in
  match r with
  | Ok ?s =>
      assert (Hrun : sanitize_strategy oversold = Ok s) by (vm_compute; reflexivity);
      destruct (basic_explanation_of_sanitized Reference.capitalize oversold s Hrun)
        as (name & description & kept & Hshape & Htext & _);
      inversion Hshape; subst name description kept;
      destruct (Htext "" eq_refl) as (body & Hlen & Hexp);
      exists s, body;
      split; [exact Hrun|]; split; [exact Hlen | exact Hexp]
  end.
Defined.

(** The [rsi] operand of "Oversold" is accepted as it is and sanitized to
    the daily timeframe, offset 0 and the default period 14. *)
Lemma sanitize_valid_indicator_witness :
  exists after d,
    validate_indicator [("type", PStr "indicator"); ("name", PStr "rsi")] "lhs"
      (mkValidator [] [])
    = (Ok (true, ""), after) /\
    _sanitize_operand (PDict [("type", PStr "indicator"); ("name", PStr "rsi")]) "lhs"
    = Ok (PDict d) /\
    dict_get "timeframe" d = Some (PStr "daily") /\
    dict_get "offset" d = Some (PInt 0) /\
    dict_get "params" d = Some (PDict [("period", PInt 14)]).
Proof.
  let r := eval vm_compute in
             (validate_indicator [("type", PStr "indicator"); ("name", PStr "rsi")] "lhs"
                (mkValidator [] [])) in
  let s := eval vm_compute in
             (_sanitize_operand (PDict [("type", PStr "indicator"); ("name", PStr "rsi")])
                "lhs") in
  match r with
  | (Ok (true, ?reason), ?after) =>
      match s with
      | Ok (PDict ?d) =>
          assert (Hvalid : validate_indicator
                             [("type", PStr "indicator"); ("name", PStr "rsi")] "lhs"
                             (mkValidator [] [])
                           = (Ok (true, reason), after)) by (vm_compute; reflexivity);
          assert (Hsan : _sanitize_operand
                           (PDict [("type", PStr "indicator"); ("name", PStr "rsi")]) "lhs"
                         = Ok (PDict d)) by (vm_compute; reflexivity);
          destruct (sanitize_valid_indicator _ _ _ _ _ _ Hvalid eq_refl Hsan)
            as (name & cfg & d' & Hname & Hcfg & Hd & _ & Htf & Hoff & Hparams);
          exists after, d;
          split; [exact Hvalid|]; split; [exact Hsan|];
          inversion Hd; subst d';
          inversion Hname; subst name;
          vm_compute in Hcfg; inversion Hcfg; subst cfg;
          split; [exact Htf|]; split; [exact Hoff | exact Hparams]
      end
  end.
Defined.


(** An unknown operator is replaced by [>], with no tolerance. *)
Lemma sanitize_condition_operator_witness :
  exists d,
    _sanitize_condition [("lhs", value 1); ("operator", PStr "~="); ("rhs", value 2)]
    = Ok (PDict d) /\
    dict_get "operator" d = Some (PStr ">") /\
    dict_get "tolerance" d = None.
Proof.
  let s := eval vm_compute in
             (_sanitize_condition
                [("lhs", value 1); ("operator", PStr "~="); ("rhs", value 2)]) in
  match s with
  | Ok (PDict ?d) =>
      assert (Hsan : _sanitize_condition
                       [("lhs", value 1); ("operator", PStr "~="); ("rhs", value 2)]
                     = Ok (PDict d)) by (vm_compute; reflexivity);
      exists d; split; [exact Hsan|];
      exact (sanitize_condition_operator _ _ Hsan)
  end.
Defined.


(** "Oversold" is valid and its operands are fit: sanitizing it returns. *)
Lemma sanitize_returns_on_valid_witness :
  (forall fields c,
     oversold = PDict fields -> In c (strategy_conditions fields) ->
     typed_condition c = true /\
     (forall d, c = PDict d ->
                rhs_fields_convertible (dict_get_default "rhs" PNone d) = true)) /\
  exists v,
    sanitize_strategy oversold = Ok v /\
    validate_strategy v (mkValidator ["stale"] ["stale"])
    = (Ok (true, [], []), mkValidator [] []).
Proof.
  assert (Hfit : forall fields c,
             oversold = PDict fields -> In c (strategy_conditions fields) ->
             typed_condition c = true /\
             (forall d, c = PDict d ->
                        rhs_fields_convertible (dict_get_default "rhs" PNone d) = true)).
  { intros fields c Hf Hc. inversion Hf; subst fields.
    vm_compute in Hc. destruct Hc as [<- | []].
    split; [reflexivity|]. intros d Hd. inversion Hd; subst d. reflexivity. }
  split; [exact Hfit|].
  let w := eval vm_compute in
             (warnings (snd (validate_strategy oversold (mkValidator [] [])))) in
  assert (Hvalid : validate_strategy oversold (mkValidator [] [])
                   = (Ok (true, [], w), mkValidator [] w))
    by (vm_compute; reflexivity).
  destruct (sanitize_returns_on_valid oversold _ _ _ _ Hvalid Hfit) as (v & Hrun & Hok).
  exists v. split; [exact Hrun | apply Hok].
Defined.


(** The model's answer for "oversold" is valid as parsed: with [auto_fix]
    and without it the parsed strategy itself is returned. *)
Lemma auto_fix_only_for_invalid_witness :
  exists warns,
    forall auto_fix,
      parse_strategy_from_nl loads Reference.lstrip answer explanation
        "oversold" auto_fix (mkValidator [] [])
      = (Return (true, Some oversold, "Explained.", ""), mkValidator [] warns).
Proof.
  let v := eval vm_compute in (validate_strategy oversold (mkValidator [] [])) in
  match v with
  | (Ok (true, ?errs, ?warns), ?after) =>
      assert (Hrun : validate_strategy oversold (mkValidator [] [])
                     = (Ok (true, errs, warns), after))
        by (vm_compute; reflexivity);
      assert (Hjson : _extract_json Reference.lstrip
                        (snd (fst (answer "oversold"))) <> "")
        by (vm_compute; discriminate);
      assert (Hload : loads (_extract_json Reference.lstrip
                               (snd (fst (answer "oversold")))) = Parsed oversold)
        by (vm_compute; reflexivity);
      exists warns; intros auto_fix;
      rewrite (proj2 (auto_fix_only_for_invalid loads Reference.lstrip answer
                        explanation "oversold" (mkValidator [] []))
                 auto_fix _ "" oversold errs warns after eq_refl Hjson Hload Hrun);
      reflexivity
  end.
Defined.


(** An LHS that is not an object is dropped, and an RHS whose multiplier is
    [None] makes [float] raise: the condition raises, it is not dropped. *)
Lemma sanitize_condition_dropped_witness :
  sanitizable_operand (PStr "x") = false /\
  _sanitize_operand (PDict [("name", PStr "close"); ("multiplier", PNone)]) "rhs"
  = Raise TypeError /\
  _sanitize_condition
    [("lhs", PStr "x");
     ("rhs", PDict [("name", PStr "close"); ("multiplier", PNone)])]
  = Raise TypeError.
Proof.
  assert (Hdrop : sanitizable_operand (PStr "x") = false) by reflexivity.
  assert (Hraise : _sanitize_operand
                     (PDict [("name", PStr "close"); ("multiplier", PNone)]) "rhs"
                   = Raise TypeError) by (vm_compute; reflexivity).
  split; [exact Hdrop|]. split; [exact Hraise|].
  exact (proj2 (proj2 (sanitize_condition_dropped
                         [("lhs", PStr "x");
                          ("rhs", PDict [("name", PStr "close"); ("multiplier", PNone)])]))
           (PStr "x") (PDict [("name", PStr "close"); ("multiplier", PNone)]) TypeError
           eq_refl eq_refl (or_introl (conj Hdrop Hraise))).
Defined.

(** An error text that holds two of the patterns gets the suggestion of the
    earlier one in the chain only. *)
Example suggest_fixes_takes_first_match :
  suggest_fixes ["Condition 1: Invalid operator 'Unknown indicator'. Valid: []"]
  = first_suggestion "Unknown indicator" /\
  List.length (first_suggestion "Unknown indicator") = 1%nat /\
  first_suggestion "Invalid operator" <> first_suggestion "Unknown indicator".
Proof. vm_compute. repeat split. discriminate. Qed.

(** The approximate operator without a tolerance: the warning carries the
    index plus one, the verdict does not. *)
Example tolerance_warning_numbered :
  let condition :=
    PDict [("lhs", PDict [("type", PStr "indicator"); ("name", PStr "close")]);
           ("operator", PStr "≈ (approx)");
           ("rhs", PDict [("type", PStr "value"); ("value", PInt 100)])] in
  validate_condition condition 4 (mkValidator [] [])
  = (Ok (true, ""),
     mkValidator []
       ["Condition 5: '≈ (approx)' operator without 'tolerance' - defaulting to 1%";
        "'close' missing 'timeframe' - defaulting to 'daily'"]) /\
  tolerance_warning condition 4
  = ["Condition 5: '≈ (approx)' operator without 'tolerance' - defaulting to 1%"].
Proof. vm_compute. split; reflexivity. Qed.
